(** * TrustLease escrow: agreement state machine and fee accounting

    A shallow embedding of [contracts/TrustLeaseEscrow.sol] (Solidity ^0.8.28)
    together with the parts of [contracts/RentalReceipt.sol] and of the
    property-verification interface that the escrow calls into.

    - [uint256] and [address] values are modelled as [N]; Solidity 0.8
      arithmetic is checked, so [+], [-] and [*] revert on overflow or
      underflow instead of wrapping ([checked_add], [checked_sub],
      [checked_mul]).
    - Solidity mappings are total: an absent key reads as the zero value.
      They are modelled as [gmap] read with the total lookup [!!!].
    - A transaction either succeeds with a new state or reverts and leaves the
      state untouched: operations live in the monad [M], whose failure
      carries the revert reason and no state.
    - Ether leaving the contract through [Address.sendValue] is recorded in
      the [sent] log and deducted from [balance].  A recipient may refuse a
      payment, which reverts the transaction: the transaction context says
      which transfers go through ([accepts]).  Recipients are taken not to
      call back into the contract, and the [nonReentrant] guard is therefore
      not represented. *)

From Stdlib Require Import NArith String List Lia.
From stdpp Require Import base decidable numbers option list gmap strings.

Local Open Scope N_scope.

(** Solidity's zero values of [uint256], [address] and [bool]: what a mapping
    returns for a key never written.  They take precedence over the default
    inhabitants of the library, which are [1] and [true]. *)
#[global] Instance uint256_zero : Inhabited N | 0 := populate 0.
#[global] Instance bool_zero : Inhabited bool | 0 := populate false.

(** ** Primitive types and units *)

Abbreviation address := N (only parsing).
Abbreviation uint256 := N (only parsing).

Definition MAX_UINT256 : N := 2 ^ 256 - 1.

(** Solidity time unit: [1 days]. *)
Definition days : N := 86400.

(** ** Enumerations *)

Inductive AgreementStatus : Type :=
| Pending
| Active
| Completed
| Disputed
| Cancelled
| Terminated.

(** [RentStatus.Disputed] is spelled [RentDisputed] here, the name [Disputed]
    being taken by [AgreementStatus]. *)
Inductive RentStatus : Type :=
| Paid
| Overdue
| RentDisputed.

#[global] Instance AgreementStatus_eq_dec : EqDecision AgreementStatus.
Proof. solve_decision. Defined.

#[global] Instance RentStatus_eq_dec : EqDecision RentStatus.
Proof. solve_decision. Defined.

(** ** Structs *)

Record RentalAgreement : Type := {
  agreementId : uint256;
  propertyId : uint256;
  tenant : address;
  landlord : address;
  depositAmount : uint256;
  monthlyRent : uint256;
  rentInterval : uint256;
  startDate : uint256;
  endDate : uint256;
  createdAt : uint256;
  status : AgreementStatus;
  metadataHash : string;
  tenantConfirmed : bool;
  landlordConfirmed : bool;
  disputeDeadline : uint256;
  nextRentDueDate : uint256;
  overdueGracePeriod : uint256;
  totalRentPaid : uint256
}.

Record RentPayment : Type := {
  rp_agreementId : uint256;
  amount : uint256;
  paidDate : uint256;
  periodStart : uint256;
  periodEnd : uint256;
  rp_status : RentStatus
}.

Record Dispute : Type := {
  d_agreementId : uint256;
  initiator : address;
  reason : string;
  evidenceHashes : list string;
  d_createdAt : uint256;
  resolved : bool;
  winner : address;
  isRentDispute : bool
}.

Record FeeBreakdown : Type := {
  fb_depositAmount : uint256;
  fb_totalRentPaid : uint256;
  platformFeeOnDeposit : uint256;
  platformFeeOnRent : uint256;
  listingFee : uint256;
  totalGasSponsored : uint256;
  netToLandlord : uint256;
  netToTenant : uint256
}.

(** Zero values: what a mapping returns for a key never written. *)

#[global] Instance RentalAgreement_inhabited : Inhabited RentalAgreement :=
  populate {| agreementId := 0; propertyId := 0; tenant := 0; landlord := 0;
              depositAmount := 0; monthlyRent := 0; rentInterval := 0; startDate := 0;
              endDate := 0; createdAt := 0; status := Pending; metadataHash := "";
              tenantConfirmed := false; landlordConfirmed := false; disputeDeadline := 0;
              nextRentDueDate := 0; overdueGracePeriod := 0; totalRentPaid := 0 |}.

#[global] Instance Dispute_inhabited : Inhabited Dispute :=
  populate {| d_agreementId := 0; initiator := 0; reason := ""; evidenceHashes := [];
              d_createdAt := 0; resolved := false; winner := 0; isRentDispute := false |}.

(** Field updates of storage structs: [set_f v x] is [x] with field [f]
    replaced by [v].  The projections of [RentPayment], [Dispute],
    [FeeBreakdown] and [Receipt] that would clash with those of
    [RentalAgreement] carry a short prefix. *)

Definition set_status (v : AgreementStatus) (x : RentalAgreement) : RentalAgreement :=
  {| agreementId := agreementId x; propertyId := propertyId x; tenant := tenant x;
     landlord := landlord x; depositAmount := depositAmount x; monthlyRent := monthlyRent x;
     rentInterval := rentInterval x; startDate := startDate x; endDate := endDate x;
     createdAt := createdAt x; status := v; metadataHash := metadataHash x;
     tenantConfirmed := tenantConfirmed x; landlordConfirmed := landlordConfirmed x;
     disputeDeadline := disputeDeadline x; nextRentDueDate := nextRentDueDate x;
     overdueGracePeriod := overdueGracePeriod x; totalRentPaid := totalRentPaid x |}.

Definition set_tenantConfirmed (v : bool) (x : RentalAgreement) : RentalAgreement :=
  {| agreementId := agreementId x; propertyId := propertyId x; tenant := tenant x;
     landlord := landlord x; depositAmount := depositAmount x; monthlyRent := monthlyRent x;
     rentInterval := rentInterval x; startDate := startDate x; endDate := endDate x;
     createdAt := createdAt x; status := status x; metadataHash := metadataHash x;
     tenantConfirmed := v; landlordConfirmed := landlordConfirmed x;
     disputeDeadline := disputeDeadline x; nextRentDueDate := nextRentDueDate x;
     overdueGracePeriod := overdueGracePeriod x; totalRentPaid := totalRentPaid x |}.

Definition set_landlordConfirmed (v : bool) (x : RentalAgreement) : RentalAgreement :=
  {| agreementId := agreementId x; propertyId := propertyId x; tenant := tenant x;
     landlord := landlord x; depositAmount := depositAmount x; monthlyRent := monthlyRent x;
     rentInterval := rentInterval x; startDate := startDate x; endDate := endDate x;
     createdAt := createdAt x; status := status x; metadataHash := metadataHash x;
     tenantConfirmed := tenantConfirmed x; landlordConfirmed := v;
     disputeDeadline := disputeDeadline x; nextRentDueDate := nextRentDueDate x;
     overdueGracePeriod := overdueGracePeriod x; totalRentPaid := totalRentPaid x |}.

Definition set_disputeDeadline (v : N) (x : RentalAgreement) : RentalAgreement :=
  {| agreementId := agreementId x; propertyId := propertyId x; tenant := tenant x;
     landlord := landlord x; depositAmount := depositAmount x; monthlyRent := monthlyRent x;
     rentInterval := rentInterval x; startDate := startDate x; endDate := endDate x;
     createdAt := createdAt x; status := status x; metadataHash := metadataHash x;
     tenantConfirmed := tenantConfirmed x; landlordConfirmed := landlordConfirmed x;
     disputeDeadline := v; nextRentDueDate := nextRentDueDate x;
     overdueGracePeriod := overdueGracePeriod x; totalRentPaid := totalRentPaid x |}.

Definition set_nextRentDueDate (v : N) (x : RentalAgreement) : RentalAgreement :=
  {| agreementId := agreementId x; propertyId := propertyId x; tenant := tenant x;
     landlord := landlord x; depositAmount := depositAmount x; monthlyRent := monthlyRent x;
     rentInterval := rentInterval x; startDate := startDate x; endDate := endDate x;
     createdAt := createdAt x; status := status x; metadataHash := metadataHash x;
     tenantConfirmed := tenantConfirmed x; landlordConfirmed := landlordConfirmed x;
     disputeDeadline := disputeDeadline x; nextRentDueDate := v;
     overdueGracePeriod := overdueGracePeriod x; totalRentPaid := totalRentPaid x |}.

Definition set_totalRentPaid (v : N) (x : RentalAgreement) : RentalAgreement :=
  {| agreementId := agreementId x; propertyId := propertyId x; tenant := tenant x;
     landlord := landlord x; depositAmount := depositAmount x; monthlyRent := monthlyRent x;
     rentInterval := rentInterval x; startDate := startDate x; endDate := endDate x;
     createdAt := createdAt x; status := status x; metadataHash := metadataHash x;
     tenantConfirmed := tenantConfirmed x; landlordConfirmed := landlordConfirmed x;
     disputeDeadline := disputeDeadline x; nextRentDueDate := nextRentDueDate x;
     overdueGracePeriod := overdueGracePeriod x; totalRentPaid := v |}.

Definition set_evidenceHashes (v : list string) (x : Dispute) : Dispute :=
  {| d_agreementId := d_agreementId x; initiator := initiator x; reason := reason x;
     evidenceHashes := v; d_createdAt := d_createdAt x; resolved := resolved x;
     winner := winner x; isRentDispute := isRentDispute x |}.

Definition set_resolved (v : bool) (x : Dispute) : Dispute :=
  {| d_agreementId := d_agreementId x; initiator := initiator x; reason := reason x;
     evidenceHashes := evidenceHashes x; d_createdAt := d_createdAt x; resolved := v;
     winner := winner x; isRentDispute := isRentDispute x |}.

Definition set_winner (v : N) (x : Dispute) : Dispute :=
  {| d_agreementId := d_agreementId x; initiator := initiator x; reason := reason x;
     evidenceHashes := evidenceHashes x; d_createdAt := d_createdAt x; resolved := resolved x;
     winner := v; isRentDispute := isRentDispute x |}.

(** ** Events *)

Inductive Event : Type :=
| AgreementCreated (agreementId propertyId : uint256) (tenant landlord : address)
    (depositAmount monthlyRent rentInterval : uint256)
| TenantConfirmed (agreementId : uint256)
| LandlordConfirmed (agreementId : uint256)
| RentPaid (agreementId amount periodStart periodEnd nextDueDate : uint256)
| RentOverdue (agreementId daysOverdue : uint256)
| DepositReleased (agreementId amount platformFee : uint256)
| DisputeRaised (agreementId : uint256) (initiator : address) (reason : string)
    (isRentDispute : bool)
| EvidenceSubmitted (agreementId : uint256) (evidenceHash : string)
| DisputeResolved (agreementId : uint256) (winner : address)
| AgreementCancelled (agreementId : uint256)
| TenantRefunded (agreementId amount : uint256)
| FeeBreakdownCalculated (agreementId landlordNet platformTotal : uint256)
| GasSubsidyGranted (tenant : address)
| AgreementTerminated (agreementId refundAmount : uint256)
| OwnershipTransferred (previousOwner newOwner : address)
| Paused (account : address).

(** ** Collaborating contracts *)

(** The property-verification contract is only read, through the three view
    functions of [IPropertyVerification]. *)
Record PropertyVerification : Type := {
  isPropertyVerified : uint256 -> bool;
  getPropertyOwner : uint256 -> address;
  getListingFee : uint256
}.

Inductive ReceiptType : Type :=
| RentalAgreementReceipt
| RentPaymentReceipt.

Record Receipt : Type := {
  receiptType : ReceiptType;
  r_tenant : address;
  r_landlord : address;
  r_propertyId : uint256;
  r_amount : uint256;
  r_startDate : uint256;
  r_endDate : uint256;
  issuedDate : uint256;
  r_metadataHash : string;
  linkedAgreementId : uint256
}.

(** Storage of [RentalReceipt]; [minters] are the holders of [MINTER_ROLE].
    The ERC-721 ownership bookkeeping behind [_safeMint] is left out. *)
Record RentalReceipt : Type := {
  minters : gset address;
  _nextReceiptId : uint256;
  receipts : gmap N Receipt;
  tenantReceipts : gmap N (list N);
  agreementRentReceipts : gmap N (list N)
}.

(** ** Contract state *)

(** The storage variables of [TrustLeaseEscrow] (with [owner] from [Ownable]
    and [paused] from [Pausable]), the contract's own address and ether
    balance, and the logs of ether sent out and of events emitted. *)
Record World : Type := {
  propertyVerification : PropertyVerification;
  rentalReceipt : RentalReceipt;
  _nextAgreementId : uint256;
  agreements : gmap N RentalAgreement;
  disputes : gmap N Dispute;
  rentPayments : gmap N (list RentPayment);
  tenantAgreements : gmap N (list N);
  landlordAgreements : gmap N (list N);
  lastOverdueCheck : gmap N N;
  platformFeePercent : uint256;
  rentProcessingFeePercent : uint256;
  disputePeriod : uint256;
  defaultGracePeriod : uint256;
  platformWallet : address;
  gasSubsidyPool : uint256;
  isGasSubsidized : gmap N bool;
  owner : address;
  paused : bool;
  this : address;
  balance : N;
  sent : list (address * N);
  events : list Event
}.

Definition set_rentalReceipt (v : RentalReceipt) (x : World) : World :=
  {| propertyVerification := propertyVerification x; rentalReceipt := v;
     _nextAgreementId := _nextAgreementId x; agreements := agreements x; disputes := disputes x;
     rentPayments := rentPayments x; tenantAgreements := tenantAgreements x;
     landlordAgreements := landlordAgreements x; lastOverdueCheck := lastOverdueCheck x;
     platformFeePercent := platformFeePercent x;
     rentProcessingFeePercent := rentProcessingFeePercent x; disputePeriod := disputePeriod x;
     defaultGracePeriod := defaultGracePeriod x; platformWallet := platformWallet x;
     gasSubsidyPool := gasSubsidyPool x; isGasSubsidized := isGasSubsidized x; owner := owner x;
     paused := paused x; this := this x; balance := balance x; sent := sent x;
     events := events x |}.

Definition set__nextAgreementId (v : N) (x : World) : World :=
  {| propertyVerification := propertyVerification x; rentalReceipt := rentalReceipt x;
     _nextAgreementId := v; agreements := agreements x; disputes := disputes x;
     rentPayments := rentPayments x; tenantAgreements := tenantAgreements x;
     landlordAgreements := landlordAgreements x; lastOverdueCheck := lastOverdueCheck x;
     platformFeePercent := platformFeePercent x;
     rentProcessingFeePercent := rentProcessingFeePercent x; disputePeriod := disputePeriod x;
     defaultGracePeriod := defaultGracePeriod x; platformWallet := platformWallet x;
     gasSubsidyPool := gasSubsidyPool x; isGasSubsidized := isGasSubsidized x; owner := owner x;
     paused := paused x; this := this x; balance := balance x; sent := sent x;
     events := events x |}.

Definition set_agreements (v : gmap N RentalAgreement) (x : World) : World :=
  {| propertyVerification := propertyVerification x; rentalReceipt := rentalReceipt x;
     _nextAgreementId := _nextAgreementId x; agreements := v; disputes := disputes x;
     rentPayments := rentPayments x; tenantAgreements := tenantAgreements x;
     landlordAgreements := landlordAgreements x; lastOverdueCheck := lastOverdueCheck x;
     platformFeePercent := platformFeePercent x;
     rentProcessingFeePercent := rentProcessingFeePercent x; disputePeriod := disputePeriod x;
     defaultGracePeriod := defaultGracePeriod x; platformWallet := platformWallet x;
     gasSubsidyPool := gasSubsidyPool x; isGasSubsidized := isGasSubsidized x; owner := owner x;
     paused := paused x; this := this x; balance := balance x; sent := sent x;
     events := events x |}.

Definition set_disputes (v : gmap N Dispute) (x : World) : World :=
  {| propertyVerification := propertyVerification x; rentalReceipt := rentalReceipt x;
     _nextAgreementId := _nextAgreementId x; agreements := agreements x; disputes := v;
     rentPayments := rentPayments x; tenantAgreements := tenantAgreements x;
     landlordAgreements := landlordAgreements x; lastOverdueCheck := lastOverdueCheck x;
     platformFeePercent := platformFeePercent x;
     rentProcessingFeePercent := rentProcessingFeePercent x; disputePeriod := disputePeriod x;
     defaultGracePeriod := defaultGracePeriod x; platformWallet := platformWallet x;
     gasSubsidyPool := gasSubsidyPool x; isGasSubsidized := isGasSubsidized x; owner := owner x;
     paused := paused x; this := this x; balance := balance x; sent := sent x;
     events := events x |}.

Definition set_rentPayments (v : gmap N (list RentPayment)) (x : World) : World :=
  {| propertyVerification := propertyVerification x; rentalReceipt := rentalReceipt x;
     _nextAgreementId := _nextAgreementId x; agreements := agreements x; disputes := disputes x;
     rentPayments := v; tenantAgreements := tenantAgreements x;
     landlordAgreements := landlordAgreements x; lastOverdueCheck := lastOverdueCheck x;
     platformFeePercent := platformFeePercent x;
     rentProcessingFeePercent := rentProcessingFeePercent x; disputePeriod := disputePeriod x;
     defaultGracePeriod := defaultGracePeriod x; platformWallet := platformWallet x;
     gasSubsidyPool := gasSubsidyPool x; isGasSubsidized := isGasSubsidized x; owner := owner x;
     paused := paused x; this := this x; balance := balance x; sent := sent x;
     events := events x |}.

Definition set_tenantAgreements (v : gmap N (list N)) (x : World) : World :=
  {| propertyVerification := propertyVerification x; rentalReceipt := rentalReceipt x;
     _nextAgreementId := _nextAgreementId x; agreements := agreements x; disputes := disputes x;
     rentPayments := rentPayments x; tenantAgreements := v;
     landlordAgreements := landlordAgreements x; lastOverdueCheck := lastOverdueCheck x;
     platformFeePercent := platformFeePercent x;
     rentProcessingFeePercent := rentProcessingFeePercent x; disputePeriod := disputePeriod x;
     defaultGracePeriod := defaultGracePeriod x; platformWallet := platformWallet x;
     gasSubsidyPool := gasSubsidyPool x; isGasSubsidized := isGasSubsidized x; owner := owner x;
     paused := paused x; this := this x; balance := balance x; sent := sent x;
     events := events x |}.

Definition set_landlordAgreements (v : gmap N (list N)) (x : World) : World :=
  {| propertyVerification := propertyVerification x; rentalReceipt := rentalReceipt x;
     _nextAgreementId := _nextAgreementId x; agreements := agreements x; disputes := disputes x;
     rentPayments := rentPayments x; tenantAgreements := tenantAgreements x;
     landlordAgreements := v; lastOverdueCheck := lastOverdueCheck x;
     platformFeePercent := platformFeePercent x;
     rentProcessingFeePercent := rentProcessingFeePercent x; disputePeriod := disputePeriod x;
     defaultGracePeriod := defaultGracePeriod x; platformWallet := platformWallet x;
     gasSubsidyPool := gasSubsidyPool x; isGasSubsidized := isGasSubsidized x; owner := owner x;
     paused := paused x; this := this x; balance := balance x; sent := sent x;
     events := events x |}.

Definition set_lastOverdueCheck (v : gmap N N) (x : World) : World :=
  {| propertyVerification := propertyVerification x; rentalReceipt := rentalReceipt x;
     _nextAgreementId := _nextAgreementId x; agreements := agreements x; disputes := disputes x;
     rentPayments := rentPayments x; tenantAgreements := tenantAgreements x;
     landlordAgreements := landlordAgreements x; lastOverdueCheck := v;
     platformFeePercent := platformFeePercent x;
     rentProcessingFeePercent := rentProcessingFeePercent x; disputePeriod := disputePeriod x;
     defaultGracePeriod := defaultGracePeriod x; platformWallet := platformWallet x;
     gasSubsidyPool := gasSubsidyPool x; isGasSubsidized := isGasSubsidized x; owner := owner x;
     paused := paused x; this := this x; balance := balance x; sent := sent x;
     events := events x |}.

Definition set_platformFeePercent (v : N) (x : World) : World :=
  {| propertyVerification := propertyVerification x; rentalReceipt := rentalReceipt x;
     _nextAgreementId := _nextAgreementId x; agreements := agreements x; disputes := disputes x;
     rentPayments := rentPayments x; tenantAgreements := tenantAgreements x;
     landlordAgreements := landlordAgreements x; lastOverdueCheck := lastOverdueCheck x;
     platformFeePercent := v; rentProcessingFeePercent := rentProcessingFeePercent x;
     disputePeriod := disputePeriod x; defaultGracePeriod := defaultGracePeriod x;
     platformWallet := platformWallet x; gasSubsidyPool := gasSubsidyPool x;
     isGasSubsidized := isGasSubsidized x; owner := owner x; paused := paused x; this := this x;
     balance := balance x; sent := sent x; events := events x |}.

Definition set_rentProcessingFeePercent (v : N) (x : World) : World :=
  {| propertyVerification := propertyVerification x; rentalReceipt := rentalReceipt x;
     _nextAgreementId := _nextAgreementId x; agreements := agreements x; disputes := disputes x;
     rentPayments := rentPayments x; tenantAgreements := tenantAgreements x;
     landlordAgreements := landlordAgreements x; lastOverdueCheck := lastOverdueCheck x;
     platformFeePercent := platformFeePercent x; rentProcessingFeePercent := v;
     disputePeriod := disputePeriod x; defaultGracePeriod := defaultGracePeriod x;
     platformWallet := platformWallet x; gasSubsidyPool := gasSubsidyPool x;
     isGasSubsidized := isGasSubsidized x; owner := owner x; paused := paused x; this := this x;
     balance := balance x; sent := sent x; events := events x |}.

Definition set_disputePeriod (v : N) (x : World) : World :=
  {| propertyVerification := propertyVerification x; rentalReceipt := rentalReceipt x;
     _nextAgreementId := _nextAgreementId x; agreements := agreements x; disputes := disputes x;
     rentPayments := rentPayments x; tenantAgreements := tenantAgreements x;
     landlordAgreements := landlordAgreements x; lastOverdueCheck := lastOverdueCheck x;
     platformFeePercent := platformFeePercent x;
     rentProcessingFeePercent := rentProcessingFeePercent x; disputePeriod := v;
     defaultGracePeriod := defaultGracePeriod x; platformWallet := platformWallet x;
     gasSubsidyPool := gasSubsidyPool x; isGasSubsidized := isGasSubsidized x; owner := owner x;
     paused := paused x; this := this x; balance := balance x; sent := sent x;
     events := events x |}.

Definition set_defaultGracePeriod (v : N) (x : World) : World :=
  {| propertyVerification := propertyVerification x; rentalReceipt := rentalReceipt x;
     _nextAgreementId := _nextAgreementId x; agreements := agreements x; disputes := disputes x;
     rentPayments := rentPayments x; tenantAgreements := tenantAgreements x;
     landlordAgreements := landlordAgreements x; lastOverdueCheck := lastOverdueCheck x;
     platformFeePercent := platformFeePercent x;
     rentProcessingFeePercent := rentProcessingFeePercent x; disputePeriod := disputePeriod x;
     defaultGracePeriod := v; platformWallet := platformWallet x;
     gasSubsidyPool := gasSubsidyPool x; isGasSubsidized := isGasSubsidized x; owner := owner x;
     paused := paused x; this := this x; balance := balance x; sent := sent x;
     events := events x |}.

Definition set_gasSubsidyPool (v : N) (x : World) : World :=
  {| propertyVerification := propertyVerification x; rentalReceipt := rentalReceipt x;
     _nextAgreementId := _nextAgreementId x; agreements := agreements x; disputes := disputes x;
     rentPayments := rentPayments x; tenantAgreements := tenantAgreements x;
     landlordAgreements := landlordAgreements x; lastOverdueCheck := lastOverdueCheck x;
     platformFeePercent := platformFeePercent x;
     rentProcessingFeePercent := rentProcessingFeePercent x; disputePeriod := disputePeriod x;
     defaultGracePeriod := defaultGracePeriod x; platformWallet := platformWallet x;
     gasSubsidyPool := v; isGasSubsidized := isGasSubsidized x; owner := owner x;
     paused := paused x; this := this x; balance := balance x; sent := sent x;
     events := events x |}.

Definition set_isGasSubsidized (v : gmap N bool) (x : World) : World :=
  {| propertyVerification := propertyVerification x; rentalReceipt := rentalReceipt x;
     _nextAgreementId := _nextAgreementId x; agreements := agreements x; disputes := disputes x;
     rentPayments := rentPayments x; tenantAgreements := tenantAgreements x;
     landlordAgreements := landlordAgreements x; lastOverdueCheck := lastOverdueCheck x;
     platformFeePercent := platformFeePercent x;
     rentProcessingFeePercent := rentProcessingFeePercent x; disputePeriod := disputePeriod x;
     defaultGracePeriod := defaultGracePeriod x; platformWallet := platformWallet x;
     gasSubsidyPool := gasSubsidyPool x; isGasSubsidized := v; owner := owner x;
     paused := paused x; this := this x; balance := balance x; sent := sent x;
     events := events x |}.

Definition set_owner (v : N) (x : World) : World :=
  {| propertyVerification := propertyVerification x; rentalReceipt := rentalReceipt x;
     _nextAgreementId := _nextAgreementId x; agreements := agreements x; disputes := disputes x;
     rentPayments := rentPayments x; tenantAgreements := tenantAgreements x;
     landlordAgreements := landlordAgreements x; lastOverdueCheck := lastOverdueCheck x;
     platformFeePercent := platformFeePercent x;
     rentProcessingFeePercent := rentProcessingFeePercent x; disputePeriod := disputePeriod x;
     defaultGracePeriod := defaultGracePeriod x; platformWallet := platformWallet x;
     gasSubsidyPool := gasSubsidyPool x; isGasSubsidized := isGasSubsidized x; owner := v;
     paused := paused x; this := this x; balance := balance x; sent := sent x; events := events x |}.

Definition set_paused (v : bool) (x : World) : World :=
  {| propertyVerification := propertyVerification x; rentalReceipt := rentalReceipt x;
     _nextAgreementId := _nextAgreementId x; agreements := agreements x; disputes := disputes x;
     rentPayments := rentPayments x; tenantAgreements := tenantAgreements x;
     landlordAgreements := landlordAgreements x; lastOverdueCheck := lastOverdueCheck x;
     platformFeePercent := platformFeePercent x;
     rentProcessingFeePercent := rentProcessingFeePercent x; disputePeriod := disputePeriod x;
     defaultGracePeriod := defaultGracePeriod x; platformWallet := platformWallet x;
     gasSubsidyPool := gasSubsidyPool x; isGasSubsidized := isGasSubsidized x; owner := owner x;
     paused := v; this := this x; balance := balance x; sent := sent x; events := events x |}.

Definition set_balance (v : N) (x : World) : World :=
  {| propertyVerification := propertyVerification x; rentalReceipt := rentalReceipt x;
     _nextAgreementId := _nextAgreementId x; agreements := agreements x; disputes := disputes x;
     rentPayments := rentPayments x; tenantAgreements := tenantAgreements x;
     landlordAgreements := landlordAgreements x; lastOverdueCheck := lastOverdueCheck x;
     platformFeePercent := platformFeePercent x;
     rentProcessingFeePercent := rentProcessingFeePercent x; disputePeriod := disputePeriod x;
     defaultGracePeriod := defaultGracePeriod x; platformWallet := platformWallet x;
     gasSubsidyPool := gasSubsidyPool x; isGasSubsidized := isGasSubsidized x; owner := owner x;
     paused := paused x; this := this x; balance := v; sent := sent x; events := events x |}.

Definition set_sent (v : list (N * N)) (x : World) : World :=
  {| propertyVerification := propertyVerification x; rentalReceipt := rentalReceipt x;
     _nextAgreementId := _nextAgreementId x; agreements := agreements x; disputes := disputes x;
     rentPayments := rentPayments x; tenantAgreements := tenantAgreements x;
     landlordAgreements := landlordAgreements x; lastOverdueCheck := lastOverdueCheck x;
     platformFeePercent := platformFeePercent x;
     rentProcessingFeePercent := rentProcessingFeePercent x; disputePeriod := disputePeriod x;
     defaultGracePeriod := defaultGracePeriod x; platformWallet := platformWallet x;
     gasSubsidyPool := gasSubsidyPool x; isGasSubsidized := isGasSubsidized x; owner := owner x;
     paused := paused x; this := this x; balance := balance x; sent := v; events := events x |}.

Definition set_events (v : list Event) (x : World) : World :=
  {| propertyVerification := propertyVerification x; rentalReceipt := rentalReceipt x;
     _nextAgreementId := _nextAgreementId x; agreements := agreements x; disputes := disputes x;
     rentPayments := rentPayments x; tenantAgreements := tenantAgreements x;
     landlordAgreements := landlordAgreements x; lastOverdueCheck := lastOverdueCheck x;
     platformFeePercent := platformFeePercent x;
     rentProcessingFeePercent := rentProcessingFeePercent x; disputePeriod := disputePeriod x;
     defaultGracePeriod := defaultGracePeriod x; platformWallet := platformWallet x;
     gasSubsidyPool := gasSubsidyPool x; isGasSubsidized := isGasSubsidized x; owner := owner x;
     paused := paused x; this := this x; balance := balance x; sent := sent x; events := v |}.

(** ** Transactions: a state monad with revert *)

Inductive result (A : Type) : Type :=
| Ok (a : A)
| Revert (why : string).

Arguments Ok {A} a.
Arguments Revert {A} why.

Definition M (A : Type) : Type := World -> result (A * World).

Definition ret {A : Type} (a : A) : M A := fun w => Ok (a, w).

Definition bind {A B : Type} (m : M A) (k : A -> M B) : M B :=
  fun w => match m w with
           | Ok (a, w1) => k a w1
           | Revert why => Revert why
           end.

Definition revert {A : Type} (why : string) : M A := fun _ => Revert why.

Definition gets {A : Type} (f : World -> A) : M A := fun w => Ok (f w, w).

Definition modify (f : World -> World) : M unit := fun w => Ok (tt, f w).

Declare Scope sol_scope.
Delimit Scope sol_scope with sol.
Bind Scope sol_scope with M.

Notation "x <- m ;; k" := (bind m (fun x => k))
  (at level 100, m at next level, right associativity) : sol_scope.
Notation "m ;; k" := (bind m (fun _ => k))
  (at level 100, right associativity) : sol_scope.

Local Open Scope sol_scope.

(** [require(cond, why)] *)
Definition require (P : Prop) `{Decision P} (why : string) : M unit :=
  if decide P then ret tt else revert why.

Definition emit (ev : Event) : M unit :=
  modify (fun w => set_events (events w ++ [ev]) w).

(** Checked arithmetic of Solidity 0.8: [Panic(0x11)] on overflow/underflow. *)

Definition checked_add (a b : uint256) : M uint256 :=
  if decide (a + b <= MAX_UINT256) then ret (a + b) else revert "Panic(0x11)".

Definition checked_sub (a b : uint256) : M uint256 :=
  if decide (b <= a) then ret (a - b) else revert "Panic(0x11)".

Definition checked_mul (a b : uint256) : M uint256 :=
  if decide (a * b <= MAX_UINT256) then ret (a * b) else revert "Panic(0x11)".

(** The transaction context: [msg.sender], [msg.value], [block.timestamp],
    [tx.gasprice], and the two successive readings of [gasleft()] that
    [payRent] makes (first in the condition of its conditional expression,
    then in the else branch).  [accepts r v] is the outcome of the low-level
    call [r.call{value: v}("")] during the transaction: false for a contract
    without a payable [receive] or [fallback], or whose function reverts. *)
Record Env : Type := {
  msg_sender : address;
  msg_value : uint256;
  block_timestamp : uint256;
  tx_gasprice : uint256;
  gasleft_cond : uint256;
  gasleft_else : uint256;
  accepts : address -> uint256 -> bool
}.

(** A [payable] function credits [msg.value] to the contract before its body
    runs; any other function rejects a call that carries value. *)
Definition payable (e : Env) : M unit :=
  modify (fun w => set_balance (balance w + msg_value e) w).

Definition nonpayable (e : Env) : M unit :=
  require (msg_value e = 0) "non-payable function called with value".

(** Modifiers of [Ownable] and [Pausable]. *)
Definition onlyOwner (e : Env) : M unit :=
  o <- gets owner ;;
  require (o = msg_sender e) "OwnableUnauthorizedAccount".

Definition whenNotPaused : M unit :=
  p <- gets paused ;;
  require (p = false) "EnforcedPause".

(** [Address.sendValue(recipient, amount)]: reverts when the contract holds
    less than [amount] and when the call to the recipient fails. *)
Definition sendValue (e : Env) (recipient : address) (amt : uint256) : M unit :=
  b <- gets balance ;;
  require (amt <= b) "InsufficientBalance" ;;
  require (accepts e recipient amt = true) "FailedCall" ;;
  modify (fun w => set_sent (sent w ++ [(recipient, amt)]) (set_balance (balance w - amt) w)).

(** Storage access. *)

Definition agreement (id : uint256) : M RentalAgreement :=
  gets (fun w => agreements w !!! id).

Definition updateAgreement (id : uint256) (f : RentalAgreement -> RentalAgreement) : M unit :=
  modify (fun w => set_agreements (<[id := f (agreements w !!! id)]> (agreements w)) w).

Definition dispute (id : uint256) : M Dispute :=
  gets (fun w => disputes w !!! id).

Definition updateDispute (id : uint256) (f : Dispute -> Dispute) : M unit :=
  modify (fun w => set_disputes (<[id := f (disputes w !!! id)]> (disputes w)) w).

Definition storeDispute (id : uint256) (d : Dispute) : M unit :=
  modify (fun w => set_disputes (<[id := d]> (disputes w)) w).

(** ** RentalReceipt.sol, as called by the escrow *)

Definition onlyMinter : M unit :=
  me <- gets this ;;
  rr <- gets rentalReceipt ;;
  require (me ∈ minters rr) "AccessControlUnauthorizedAccount".

Definition recordReceipt (r : Receipt) (forAgreement : option uint256) : M uint256 :=
  rr <- gets rentalReceipt ;;
  let receiptId := _nextReceiptId rr in
  next <- checked_add receiptId 1 ;;
  modify (set_rentalReceipt
    {| minters := minters rr;
       _nextReceiptId := next;
       receipts := <[receiptId := r]> (receipts rr);
       tenantReceipts :=
         <[r_tenant r := (tenantReceipts rr !!! r_tenant r) ++ [receiptId]]> (tenantReceipts rr);
       agreementRentReceipts :=
         match forAgreement with
         | Some id =>
             <[id := (agreementRentReceipts rr !!! id) ++ [receiptId]]> (agreementRentReceipts rr)
         | None => agreementRentReceipts rr
         end |}) ;;
  ret receiptId.

Definition mintReceipt (e : Env) (tenant landlord : address)
    (propertyId depositAmount rentAmount startDate endDate : uint256)
    (metadataHash : string) : M uint256 :=
  onlyMinter ;;
  require (tenant <> 0) "Invalid tenant address" ;;
  require (landlord <> 0) "Invalid landlord address" ;;
  require (0 < depositAmount) "Deposit must be greater than zero" ;;
  require (startDate < endDate) "Invalid rental period" ;;
  require (0 < N.of_nat (String.length metadataHash)) "Metadata hash required" ;;
  rr <- gets rentalReceipt ;;
  recordReceipt
    {| receiptType := RentalAgreementReceipt; r_tenant := tenant; r_landlord := landlord;
       r_propertyId := propertyId; r_amount := depositAmount; r_startDate := startDate;
       r_endDate := endDate; issuedDate := block_timestamp e;
       r_metadataHash := metadataHash; linkedAgreementId := _nextReceiptId rr |}
    None.

Definition mintRentPaymentProof (e : Env) (tenant landlord : address)
    (agreementId rentAmount paymentDate periodStart periodEnd : uint256)
    (metadataHash : string) : M uint256 :=
  onlyMinter ;;
  require (tenant <> 0) "Invalid tenant address" ;;
  require (landlord <> 0) "Invalid landlord address" ;;
  require (0 < rentAmount) "Rent must be greater than zero" ;;
  require (periodStart < periodEnd) "Invalid period" ;;
  require (0 < N.of_nat (String.length metadataHash)) "Metadata hash required" ;;
  recordReceipt
    {| receiptType := RentPaymentReceipt; r_tenant := tenant; r_landlord := landlord;
       r_propertyId := 0; r_amount := rentAmount; r_startDate := periodStart;
       r_endDate := periodEnd; issuedDate := paymentDate;
       r_metadataHash := metadataHash; linkedAgreementId := agreementId |}
    (Some agreementId).

(** ** TrustLeaseEscrow.sol *)

Definition createAgreement (e : Env) (propertyId : uint256) (landlord : address)
    (monthlyRent rentInterval startDate endDate : uint256) (metadataHash : string)
    : M uint256 :=
  payable e ;;
  whenNotPaused ;;
  require (0 < msg_value e) "Deposit must be greater than zero" ;;
  require (0 < monthlyRent) "Monthly rent must be greater than zero" ;;
  require (1 * days <= rentInterval /\ rentInterval <= 365 * days) "Invalid rent interval" ;;
  pv <- gets propertyVerification ;;
  require (isPropertyVerified pv propertyId = true) "Property not verified" ;;
  require (landlord = getPropertyOwner pv propertyId) "Landlord mismatch" ;;
  require (landlord <> msg_sender e) "Landlord cannot be tenant" ;;
  require (startDate < endDate) "Invalid rental period" ;;
  require (block_timestamp e <= startDate) "Start date must be in future" ;;
  agreementId <- gets _nextAgreementId ;;
  next <- checked_add agreementId 1 ;;
  modify (set__nextAgreementId next) ;;
  firstDue <- checked_add startDate rentInterval ;;
  grace <- gets defaultGracePeriod ;;
  modify (fun w => set_agreements (<[agreementId :=
    {| agreementId := agreementId;
       propertyId := propertyId;
       tenant := msg_sender e;
       landlord := landlord;
       depositAmount := msg_value e;
       monthlyRent := monthlyRent;
       rentInterval := rentInterval;
       startDate := startDate;
       endDate := endDate;
       createdAt := block_timestamp e;
       status := Pending;
       metadataHash := metadataHash;
       tenantConfirmed := false;
       landlordConfirmed := false;
       disputeDeadline := 0;
       nextRentDueDate := firstDue;
       overdueGracePeriod := grace;
       totalRentPaid := 0 |}]> (agreements w)) w) ;;
  modify (fun w => set_tenantAgreements
    (<[msg_sender e := (tenantAgreements w !!! msg_sender e) ++ [agreementId]]>
       (tenantAgreements w)) w) ;;
  modify (fun w => set_landlordAgreements
    (<[landlord := (landlordAgreements w !!! landlord) ++ [agreementId]]>
       (landlordAgreements w)) w) ;;
  emit (AgreementCreated agreementId propertyId (msg_sender e) landlord (msg_value e)
          monthlyRent rentInterval) ;;
  ret agreementId.

Definition _activateAgreement (e : Env) (agreementId : uint256) : M unit :=
  updateAgreement agreementId (set_status Active) ;;
  period <- gets disputePeriod ;;
  deadline <- checked_add (block_timestamp e) period ;;
  updateAgreement agreementId (set_disputeDeadline deadline).

Definition tenantConfirm (e : Env) (agreementId : uint256) : M unit :=
  nonpayable e ;;
  a <- agreement agreementId ;;
  require (tenant a = msg_sender e) "Not the tenant" ;;
  require (status a = Pending) "Agreement not pending" ;;
  require (tenantConfirmed a = false) "Already confirmed" ;;
  updateAgreement agreementId (set_tenantConfirmed true) ;;
  emit (TenantConfirmed agreementId) ;;
  if landlordConfirmed a then _activateAgreement e agreementId else ret tt.

Definition landlordConfirm (e : Env) (agreementId : uint256) : M unit :=
  nonpayable e ;;
  a <- agreement agreementId ;;
  require (landlord a = msg_sender e) "Not the landlord" ;;
  require (status a = Pending) "Agreement not pending" ;;
  require (landlordConfirmed a = false) "Already confirmed" ;;
  updateAgreement agreementId (set_landlordConfirmed true) ;;
  emit (LandlordConfirmed agreementId) ;;
  if tenantConfirmed a then _activateAgreement e agreementId else ret tt.

Definition payRent (e : Env) (agreementId : uint256) (metadataHash : string) : M unit :=
  payable e ;;
  whenNotPaused ;;
  a <- agreement agreementId ;;
  require (status a = Active) "Agreement not active" ;;
  require (msg_sender e = tenant a) "Not the tenant" ;;
  require (monthlyRent a <= msg_value e) "Insufficient rent amount" ;;
  require (block_timestamp e <= endDate a) "Lease has ended" ;;
  periodStart <- checked_sub (nextRentDueDate a) (rentInterval a) ;;
  let periodEnd := nextRentDueDate a in
  modify (fun w => set_rentPayments (<[agreementId := (rentPayments w !!! agreementId) ++
    [{| rp_agreementId := agreementId;
        amount := msg_value e;
        paidDate := block_timestamp e;
        periodStart := periodStart;
        periodEnd := periodEnd;
        rp_status := Paid |}]]> (rentPayments w)) w) ;;
  total <- checked_add (totalRentPaid a) (msg_value e) ;;
  updateAgreement agreementId (set_totalRentPaid total) ;;
  nextDue <- checked_add (nextRentDueDate a) (rentInterval a) ;;
  updateAgreement agreementId (set_nextRentDueDate nextDue) ;;
  rate <- gets rentProcessingFeePercent ;;
  scaled <- checked_mul (msg_value e) rate ;;
  let processingFee := scaled / 100 in
  landlordAmount <- checked_sub (msg_value e) processingFee ;;
  subsidized <- gets (fun w => isGasSubsidized w !!! msg_sender e) ;;
  pool <- gets gasSubsidyPool ;;
  (if decide (subsidized = true /\ 0 < pool) then
     costAtTest <- checked_mul (tx_gasprice e) (gasleft_cond e) ;;
     gasRefund <- (if decide (pool < costAtTest) then ret pool
                   else checked_mul (tx_gasprice e) (gasleft_else e)) ;;
     rest <- checked_sub pool gasRefund ;;
     modify (set_gasSubsidyPool rest) ;;
     sendValue e (msg_sender e) gasRefund
   else ret tt) ;;
  excess <- checked_sub (msg_value e) (monthlyRent a) ;;
  (if decide (0 < excess) then sendValue e (msg_sender e) excess else ret tt) ;;
  sendValue e (landlord a) landlordAmount ;;
  wallet <- gets platformWallet ;;
  sendValue e wallet processingFee ;;
  mintRentPaymentProof e (tenant a) (landlord a) agreementId (msg_value e)
    (block_timestamp e) periodStart periodEnd metadataHash ;;
  emit (RentPaid agreementId (msg_value e) periodStart periodEnd nextDue).

Definition _autoRaiseRentDispute (e : Env) (agreementId : uint256) : M unit :=
  updateAgreement agreementId (set_status Disputed) ;;
  self <- gets this ;;
  storeDispute agreementId
    {| d_agreementId := agreementId;
       initiator := self;
       reason := "Rent payment overdue beyond grace period";
       evidenceHashes := [];
       d_createdAt := block_timestamp e;
       resolved := false;
       winner := 0;
       isRentDispute := true |} ;;
  emit (DisputeRaised agreementId self "Auto-flagged: Rent overdue" true).

Definition checkRentOverdue (e : Env) (agreementId : uint256) : M unit :=
  nonpayable e ;;
  a <- agreement agreementId ;;
  require (status a = Active) "Agreement not active" ;;
  admin <- gets owner ;;
  require (msg_sender e = tenant a \/ msg_sender e = landlord a \/ msg_sender e = admin)
    "Not authorized" ;;
  last <- gets (fun w => lastOverdueCheck w !!! agreementId) ;;
  cooldownEnd <- checked_add last (1 * days) ;;
  require (cooldownEnd < block_timestamp e) "Cooldown: Check once per day" ;;
  let dueDate := nextRentDueDate a in
  graceEnd <- checked_add dueDate (overdueGracePeriod a) ;;
  require (graceEnd < block_timestamp e) "Still within grace period" ;;
  late <- checked_sub (block_timestamp e) graceEnd ;;
  let daysOverdue := late / (1 * days) in
  emit (RentOverdue agreementId daysOverdue) ;;
  modify (fun w => set_lastOverdueCheck
    (<[agreementId := block_timestamp e]> (lastOverdueCheck w)) w) ;;
  now_ <- agreement agreementId ;;
  if decide (3 <= daysOverdue /\ status now_ <> Disputed)
  then _autoRaiseRentDispute e agreementId
  else ret tt.

Definition _emitFeeBreakdown (agreementId : uint256) : M unit :=
  a <- agreement agreementId ;;
  depositRate <- gets platformFeePercent ;;
  rentRate <- gets rentProcessingFeePercent ;;
  scaledDeposit <- checked_mul (depositAmount a) depositRate ;;
  let depositFee := scaledDeposit / 100 in
  scaledRent <- checked_mul (totalRentPaid a) rentRate ;;
  let rentFees := scaledRent / 100 in
  totalPlatformFees <- checked_add depositFee rentFees ;;
  depositNet <- checked_sub (depositAmount a) depositFee ;;
  rentNet <- checked_sub (totalRentPaid a) rentFees ;;
  landlordNet <- checked_add depositNet rentNet ;;
  emit (FeeBreakdownCalculated agreementId landlordNet totalPlatformFees).

Definition releaseDeposit (e : Env) (agreementId : uint256) : M unit :=
  nonpayable e ;;
  a <- agreement agreementId ;;
  require (status a = Active \/ status a = Completed) "Agreement not releasable" ;;
  admin <- gets owner ;;
  require (msg_sender e = tenant a \/ msg_sender e = landlord a \/ msg_sender e = admin)
    "Not authorized" ;;
  require (disputeDeadline a <= block_timestamp e) "Dispute period not ended" ;;
  require (endDate a <= block_timestamp e) "Lease not ended" ;;
  updateAgreement agreementId (set_status Completed) ;;
  rate <- gets platformFeePercent ;;
  scaled <- checked_mul (depositAmount a) rate ;;
  let platformFee := scaled / 100 in
  landlordAmount <- checked_sub (depositAmount a) platformFee ;;
  sendValue e (landlord a) landlordAmount ;;
  wallet <- gets platformWallet ;;
  sendValue e wallet platformFee ;;
  mintReceipt e (tenant a) (landlord a) (propertyId a) (depositAmount a) (monthlyRent a)
    (startDate a) (endDate a) (metadataHash a) ;;
  emit (DepositReleased agreementId landlordAmount platformFee) ;;
  _emitFeeBreakdown agreementId.

Definition raiseDispute (e : Env) (agreementId : uint256) (reason evidenceHash : string)
    : M unit :=
  nonpayable e ;;
  a <- agreement agreementId ;;
  require (status a = Active \/ status a = Pending) "Agreement not disputable" ;;
  require (msg_sender e = tenant a \/ msg_sender e = landlord a) "Not authorized" ;;
  require (0 < N.of_nat (String.length reason)) "Reason required" ;;
  updateAgreement agreementId (set_status Disputed) ;;
  storeDispute agreementId
    {| d_agreementId := agreementId;
       initiator := msg_sender e;
       reason := reason;
       evidenceHashes := [evidenceHash];
       d_createdAt := block_timestamp e;
       resolved := false;
       winner := 0;
       isRentDispute := false |} ;;
  emit (DisputeRaised agreementId (msg_sender e) reason false) ;;
  emit (EvidenceSubmitted agreementId evidenceHash).

Definition submitEvidence (e : Env) (agreementId : uint256) (evidenceHash : string)
    : M unit :=
  nonpayable e ;;
  a <- agreement agreementId ;;
  d <- dispute agreementId ;;
  require (status a = Disputed) "No active dispute" ;;
  require (msg_sender e = tenant a \/ msg_sender e = landlord a) "Not authorized" ;;
  require (resolved d = false) "Dispute already resolved" ;;
  require (0 < N.of_nat (String.length evidenceHash)) "Evidence hash required" ;;
  updateDispute agreementId (fun d => set_evidenceHashes (evidenceHashes d ++ [evidenceHash]) d) ;;
  emit (EvidenceSubmitted agreementId evidenceHash).

Definition resolveDispute (e : Env) (agreementId : uint256) (refundTenant : bool) : M unit :=
  nonpayable e ;;
  onlyOwner e ;;
  a <- agreement agreementId ;;
  d <- dispute agreementId ;;
  require (status a = Disputed) "Agreement not disputed" ;;
  require (resolved d = false) "Dispute already resolved" ;;
  updateDispute agreementId (set_resolved true) ;;
  (if refundTenant then
     updateDispute agreementId (set_winner (tenant a)) ;;
     updateAgreement agreementId (set_status Terminated) ;;
     let refundAmount := depositAmount a in
     sendValue e (tenant a) refundAmount ;;
     emit (TenantRefunded agreementId refundAmount)
   else
     updateDispute agreementId (set_winner (landlord a)) ;;
     updateAgreement agreementId (set_status Completed) ;;
     rate <- gets platformFeePercent ;;
     scaled <- checked_mul (depositAmount a) rate ;;
     let platformFee := scaled / 100 in
     landlordAmount <- checked_sub (depositAmount a) platformFee ;;
     sendValue e (landlord a) landlordAmount ;;
     wallet <- gets platformWallet ;;
     sendValue e wallet platformFee ;;
     emit (DepositReleased agreementId landlordAmount platformFee)) ;;
  d' <- dispute agreementId ;;
  emit (DisputeResolved agreementId (winner d')).

Definition cancelAgreement (e : Env) (agreementId : uint256) : M unit :=
  nonpayable e ;;
  a <- agreement agreementId ;;
  require (status a = Pending) "Agreement not pending" ;;
  require (msg_sender e = tenant a) "Only tenant can cancel" ;;
  updateAgreement agreementId (set_status Cancelled) ;;
  sendValue e (tenant a) (depositAmount a) ;;
  emit (AgreementCancelled agreementId) ;;
  emit (TenantRefunded agreementId (depositAmount a)).

Definition terminateAgreement (e : Env) (agreementId proRatedRefund : uint256) : M unit :=
  nonpayable e ;;
  onlyOwner e ;;
  a <- agreement agreementId ;;
  require (status a = Active \/ status a = Disputed) "Invalid status for termination" ;;
  totalPaid <- checked_add (depositAmount a) (totalRentPaid a) ;;
  require (proRatedRefund <= totalPaid) "Refund exceeds total paid" ;;
  updateAgreement agreementId (set_status Terminated) ;;
  (if decide (0 < proRatedRefund) then
     sendValue e (tenant a) proRatedRefund ;;
     emit (TenantRefunded agreementId proRatedRefund)
   else ret tt) ;;
  held <- checked_add (depositAmount a) (totalRentPaid a) ;;
  remaining <- checked_sub held proRatedRefund ;;
  (if decide (0 < remaining) then
     rate <- gets platformFeePercent ;;
     scaled <- checked_mul remaining rate ;;
     let platformFee := scaled / 100 in
     landlordAmount <- checked_sub remaining platformFee ;;
     sendValue e (landlord a) landlordAmount ;;
     wallet <- gets platformWallet ;;
     sendValue e wallet platformFee ;;
     emit (DepositReleased agreementId landlordAmount platformFee)
   else ret tt) ;;
  emit (AgreementTerminated agreementId proRatedRefund).

Definition calculateFeeBreakdown (e : Env) (agreementId : uint256) : M FeeBreakdown :=
  nonpayable e ;;
  a <- agreement agreementId ;;
  depositRate <- gets platformFeePercent ;;
  rentRate <- gets rentProcessingFeePercent ;;
  scaledDeposit <- checked_mul (depositAmount a) depositRate ;;
  let depositFee := scaledDeposit / 100 in
  scaledRent <- checked_mul (totalRentPaid a) rentRate ;;
  let rentFees := scaledRent / 100 in
  depositNet <- checked_sub (depositAmount a) depositFee ;;
  rentNet <- checked_sub (totalRentPaid a) rentFees ;;
  landlordNet <- checked_add depositNet rentNet ;;
  pv <- gets propertyVerification ;;
  ret {| fb_depositAmount := depositAmount a;
         fb_totalRentPaid := totalRentPaid a;
         platformFeeOnDeposit := depositFee;
         platformFeeOnRent := rentFees;
         listingFee := getListingFee pv;
         totalGasSponsored := 0;
         netToLandlord := landlordNet;
         netToTenant := 0 |}.

Definition grantGasSubsidy (e : Env) (tenant : address) : M unit :=
  nonpayable e ;;
  onlyOwner e ;;
  require (tenant <> 0) "Invalid tenant address" ;;
  modify (fun w => set_isGasSubsidized (<[tenant := true]> (isGasSubsidized w)) w) ;;
  emit (GasSubsidyGranted tenant).

Definition fundGasSubsidy (e : Env) : M unit :=
  payable e ;;
  require (0 < msg_value e) "Must send funds" ;;
  pool <- gets gasSubsidyPool ;;
  pool' <- checked_add pool (msg_value e) ;;
  modify (set_gasSubsidyPool pool').

Definition updatePlatformFee (e : Env) (newFeePercent : uint256) : M unit :=
  nonpayable e ;;
  onlyOwner e ;;
  require (newFeePercent <= 5) "Fee too high" ;;
  modify (set_platformFeePercent newFeePercent).

Definition updateRentProcessingFee (e : Env) (newFeePercent : uint256) : M unit :=
  nonpayable e ;;
  onlyOwner e ;;
  require (newFeePercent <= 3) "Fee too high" ;;
  modify (set_rentProcessingFeePercent newFeePercent).

Definition updateDisputePeriod (e : Env) (newPeriod : uint256) : M unit :=
  nonpayable e ;;
  onlyOwner e ;;
  require (1 * days <= newPeriod /\ newPeriod <= 30 * days) "Invalid period" ;;
  modify (set_disputePeriod newPeriod).

Definition updateGracePeriod (e : Env) (newPeriod : uint256) : M unit :=
  nonpayable e ;;
  onlyOwner e ;;
  require (1 * days <= newPeriod /\ newPeriod <= 7 * days) "Invalid grace period" ;;
  modify (set_defaultGracePeriod newPeriod).

Definition pause (e : Env) : M unit :=
  nonpayable e ;;
  onlyOwner e ;;
  whenNotPaused ;;
  modify (set_paused true) ;;
  emit (Paused (msg_sender e)).

(** Inherited from OpenZeppelin's [Ownable]. *)

Definition transferOwnership (e : Env) (newOwner : address) : M unit :=
  nonpayable e ;;
  onlyOwner e ;;
  require (newOwner <> 0) "OwnableInvalidOwner" ;;
  old <- gets owner ;;
  modify (set_owner newOwner) ;;
  emit (OwnershipTransferred old newOwner).

Definition renounceOwnership (e : Env) : M unit :=
  nonpayable e ;;
  onlyOwner e ;;
  old <- gets owner ;;
  modify (set_owner 0) ;;
  emit (OwnershipTransferred old 0).

(** ** The contract as a transition system *)

(** One constructor per state-changing external function. *)
Inductive Op : Type :=
| CreateAgreement (propertyId : uint256) (landlord : address)
    (monthlyRent rentInterval startDate endDate : uint256) (metadataHash : string)
| TenantConfirm (agreementId : uint256)
| LandlordConfirm (agreementId : uint256)
| PayRent (agreementId : uint256) (metadataHash : string)
| CheckRentOverdue (agreementId : uint256)
| ReleaseDeposit (agreementId : uint256)
| RaiseDispute (agreementId : uint256) (reason evidenceHash : string)
| SubmitEvidence (agreementId : uint256) (evidenceHash : string)
| ResolveDispute (agreementId : uint256) (refundTenant : bool)
| CancelAgreement (agreementId : uint256)
| TerminateAgreement (agreementId proRatedRefund : uint256)
| GrantGasSubsidy (tenant : address)
| FundGasSubsidy
| UpdatePlatformFee (newFeePercent : uint256)
| UpdateRentProcessingFee (newFeePercent : uint256)
| UpdateDisputePeriod (newPeriod : uint256)
| UpdateGracePeriod (newPeriod : uint256)
| Pause
| TransferOwnership (newOwner : address)
| RenounceOwnership.

Definition exec (e : Env) (op : Op) : M unit :=
  match op with
  | CreateAgreement p l r i s d h => createAgreement e p l r i s d h ;; ret tt
  | TenantConfirm id => tenantConfirm e id
  | LandlordConfirm id => landlordConfirm e id
  | PayRent id h => payRent e id h
  | CheckRentOverdue id => checkRentOverdue e id
  | ReleaseDeposit id => releaseDeposit e id
  | RaiseDispute id r h => raiseDispute e id r h
  | SubmitEvidence id h => submitEvidence e id h
  | ResolveDispute id b => resolveDispute e id b
  | CancelAgreement id => cancelAgreement e id
  | TerminateAgreement id r => terminateAgreement e id r
  | GrantGasSubsidy t => grantGasSubsidy e t
  | FundGasSubsidy => fundGasSubsidy e
  | UpdatePlatformFee p => updatePlatformFee e p
  | UpdateRentProcessingFee p => updateRentProcessingFee e p
  | UpdateDisputePeriod p => updateDisputePeriod e p
  | UpdateGracePeriod p => updateGracePeriod e p
  | Pause => pause e
  | TransferOwnership o => transferOwnership e o
  | RenounceOwnership => renounceOwnership e
  end.

(** A successful transaction. *)
Definition step (w : World) (e : Env) (op : Op) (w' : World) : Prop :=
  exec e op w = Ok (tt, w').

(** Histories: any number of successful transactions, each with its own
    context. *)
Inductive reaches : World -> World -> Prop :=
| reaches_refl w : reaches w w
| reaches_step w e op w1 w2 : step w e op w1 -> reaches w1 w2 -> reaches w w2.


(** The state right after the constructor ran.  The constructor rejects a zero
    address for either collaborator or for the platform wallet; the
    collaborators are given here by their behaviour rather than their
    address, and [wallet] is expected to be non-zero. *)
Definition deploy (pv : PropertyVerification) (rr : RentalReceipt)
    (deployer self wallet : address) : World :=
  {| propertyVerification := pv;
     rentalReceipt := rr;
     _nextAgreementId := 1;
     agreements := ∅;
     disputes := ∅;
     rentPayments := ∅;
     tenantAgreements := ∅;
     landlordAgreements := ∅;
     lastOverdueCheck := ∅;
     platformFeePercent := 2;
     rentProcessingFeePercent := 1;
     disputePeriod := 7 * days;
     defaultGracePeriod := 3 * days;
     platformWallet := wallet;
     gasSubsidyPool := 0;
     isGasSubsidized := ∅;
     owner := deployer;
     paused := false;
     this := self;
     balance := 0;
     sent := [];
     events := [] |}.

(** ** Derived quantities used in the statements *)

(** The value of the conditional expression at lines 317-321 of [payRent]:
    the whole pool when the cost at the first [gasleft()] reading exceeds it,
    the cost at the second reading otherwise. *)
Definition gasRefundOf (e : Env) (pool : uint256) : uint256 :=
  if decide (pool < tx_gasprice e * gasleft_cond e) then pool
  else tx_gasprice e * gasleft_else e.

(** The guard of the subsidy branch of [payRent]. *)
Definition subsidyDue (e : Env) (w : World) : Prop :=
  isGasSubsidized w !!! msg_sender e = true /\ 0 < gasSubsidyPool w.

#[global] Instance subsidyDue_dec e w : Decision (subsidyDue e w).
Proof. unfold subsidyDue. apply _. Defined.

Definition subsidyAmount (e : Env) (w : World) : uint256 :=
  if decide (subsidyDue e w) then gasRefundOf e (gasSubsidyPool w) else 0.

Definition subsidyTransfers (e : Env) (w : World) : list (address * N) :=
  if decide (subsidyDue e w) then [(msg_sender e, gasRefundOf e (gasSubsidyPool w))] else [].

(** The refund of an overpayment made by [payRent], if any. *)
Definition excessTransfers (e : Env) (a : RentalAgreement) : list (address * N) :=
  if decide (0 < msg_value e - monthlyRent a)
  then [(msg_sender e, msg_value e - monthlyRent a)]
  else [].

(** The fee [payRent] takes from a payment [v]. *)
Definition processingFeeOf (w : World) (v : uint256) : uint256 :=
  v * rentProcessingFeePercent w / 100.

(** The fee taken from a deposit on release. *)
Definition platformFeeOf (w : World) (deposit : uint256) : uint256 :=
  deposit * platformFeePercent w / 100.

(** Total amount of a list of transfers. *)
Definition totalSent (l : list (address * N)) : N :=
  foldr (fun p acc => snd p + acc) 0 l.

(** An agreement exists once [createAgreement] has handed out its id. *)
Definition created (w : World) (id : uint256) : Prop := id < _nextAgreementId w.

(** What a transaction adds to [totalRentPaid] of agreement [id]. *)
Definition rentPaidBy (e : Env) (op : Op) (id : uint256) : uint256 :=
  match op with
  | PayRent id' _ => if decide (id' = id) then msg_value e else 0
  | _ => 0
  end.

(** What a transaction takes out of the gas-subsidy pool. *)
Definition poolPaidBy (e : Env) (op : Op) (w : World) : uint256 :=
  match op with
  | PayRent _ _ => subsidyAmount e w
  | _ => 0
  end.

(** The status edges listed in section 4.1 of the specification. *)
Inductive listed_edge : AgreementStatus -> AgreementStatus -> Prop :=
| edge_activate : listed_edge Pending Active
| edge_cancel : listed_edge Pending Cancelled
| edge_complete : listed_edge Active Completed
| edge_dispute : listed_edge Active Disputed
| edge_terminate : listed_edge Active Terminated
| edge_resolve_landlord : listed_edge Disputed Completed
| edge_resolve_tenant : listed_edge Disputed Terminated.

(** The edges the contract has: the listed ones and, through [raiseDispute],
    Pending to Disputed. *)
Inductive contract_edge : AgreementStatus -> AgreementStatus -> Prop :=
| edge_listed s s' : listed_edge s s' -> contract_edge s s'
| edge_dispute_pending : contract_edge Pending Disputed.

(** Position of a status along the life of an agreement; every edge moves
    strictly upwards. *)
Definition stage (s : AgreementStatus) : nat :=
  match s with
  | Pending => 0
  | Active => 1
  | Disputed => 2
  | Completed | Cancelled | Terminated => 3
  end.

(** ** A concrete deployment, used to exercise the statements *)

Module Scenario.

Definition admin : address := 1.
Definition wallet : address := 7.
Definition alice : address := 10.
Definition bob : address := 11.
Definition larry : address := 20.
Definition escrow : address := 99.

Definition registry : PropertyVerification :=
  {| isPropertyVerified := fun p => bool_decide (p = 1);
     getPropertyOwner := fun p => if decide (p = 1) then larry else 0;
     getListingFee := 100 |}.

Definition ledger : RentalReceipt :=
  {| minters := {[ escrow ]}; _nextReceiptId := 1; receipts := ∅;
     tenantReceipts := ∅; agreementRentReceipts := ∅ |}.

Definition call (sender value time : N) : Env :=
  {| msg_sender := sender; msg_value := value; block_timestamp := time;
     tx_gasprice := 2; gasleft_cond := 30; gasleft_else := 25;
     accepts := fun _ _ => true |}.

(** The state a transaction leaves behind (the state itself if it reverts). *)
Definition commit (e : Env) (op : Op) (w : World) : World :=
  match exec e op w with
  | Ok (_, w') => w'
  | Revert _ => w
  end.

Definition leaseStart : N := 1000.
Definition leaseEnd : N := leaseStart + 90 * days.
Definition afterLease : N := leaseEnd + 10 * days.

Definition lease : Op := CreateAgreement 1 larry 100 (30 * days) leaseStart leaseEnd "terms".

Definition genesis : World := deploy registry ledger admin escrow wallet.

(** Alice and Bob each lock a deposit of 1000 for a lease from Larry. *)
Definition w_created : World := commit (call alice 1000 10) lease genesis.
Definition w_two : World := commit (call bob 1000 20) lease w_created.

(** Agreement 1 becomes Active. *)
Definition w_half : World := commit (call alice 0 30) (TenantConfirm 1) w_two.
Definition w_active : World := commit (call larry 0 40) (LandlordConfirm 1) w_half.

(** Alice pays 150 for a rent of 100. *)
Definition w_paid : World := commit (call alice 150 50) (PayRent 1 "june") w_active.

(** The pool is funded and Alice made eligible; she then pays the exact rent. *)
Definition w_funded : World := commit (call admin 40 60) FundGasSubsidy w_active.
Definition w_granted : World := commit (call admin 0 70) (GrantGasSubsidy alice) w_funded.
Definition w_subsidised : World := commit (call alice 100 80) (PayRent 1 "july") w_granted.

(** The lease ends and the deposit of agreement 1 is released, twice. *)
Definition w_released : World := commit (call larry 0 afterLease) (ReleaseDeposit 1) w_active.
Definition w_released_again : World :=
  commit (call larry 0 afterLease) (ReleaseDeposit 1) w_released.


(** A dispute on agreement 1, raised while Active, resolved for the tenant
    or for the landlord. *)
Definition w_disputed : World :=
  commit (call alice 0 100) (RaiseDispute 1 "broken heating" "photo") w_active.
Definition w_tenant_wins : World := commit (call admin 0 200) (ResolveDispute 1 true) w_disputed.
Definition w_landlord_wins : World :=
  commit (call admin 0 200) (ResolveDispute 1 false) w_disputed.

(** A dispute raised on agreement 2 while it is still Pending. *)
Definition w_pending_dispute : World :=
  commit (call bob 0 100) (RaiseDispute 2 "never got the keys" "chat") w_active.

End Scenario.

(** ** Notions used for the remaining operations *)

(** The ranges the four [update...] functions enforce on the parameters. *)
Definition paramsInRange (w : World) : Prop :=
  platformFeePercent w <= 5 /\
  rentProcessingFeePercent w <= 3 /\
  (1 * days <= disputePeriod w /\ disputePeriod w <= 30 * days) /\
  (1 * days <= defaultGracePeriod w /\ defaultGracePeriod w <= 7 * days).

(** The fields of an agreement fixed by [createAgreement]. *)
Definition sameTerms (a a' : RentalAgreement) : Prop :=
  agreementId a' = agreementId a /\
  propertyId a' = propertyId a /\
  tenant a' = tenant a /\
  landlord a' = landlord a /\
  depositAmount a' = depositAmount a /\
  monthlyRent a' = monthlyRent a /\
  rentInterval a' = rentInterval a /\
  startDate a' = startDate a /\
  endDate a' = endDate a /\
  createdAt a' = createdAt a /\
  metadataHash a' = metadataHash a /\
  overdueGracePeriod a' = overdueGracePeriod a.

(** The agreement a transaction is addressed to, if any. *)
Definition target (op : Op) : option uint256 :=
  match op with
  | TenantConfirm id | LandlordConfirm id | PayRent id _ | CheckRentOverdue id
  | ReleaseDeposit id | RaiseDispute id _ _ | SubmitEvidence id _ | ResolveDispute id _
  | CancelAgreement id | TerminateAgreement id _ => Some id
  | _ => None
  end.

(** The functions carrying the [onlyOwner] modifier. *)
Definition adminOnly (op : Op) : bool :=
  match op with
  | ResolveDispute _ _ | TerminateAgreement _ _ | GrantGasSubsidy _ | UpdatePlatformFee _
  | UpdateRentProcessingFee _ | UpdateDisputePeriod _ | UpdateGracePeriod _ | Pause
  | TransferOwnership _ | RenounceOwnership => true
  | _ => false
  end.

(** Statuses from which no function of the contract accepts the agreement. *)
Definition closed (s : AgreementStatus) : Prop := s = Cancelled \/ s = Terminated.

(** Sum of the amounts recorded in a rent ledger. *)
Definition ledgerTotal (l : list RentPayment) : N :=
  foldr (fun p acc => amount p + acc) 0 l.

(** The rent ledger of agreement [id] lines up with its schedule: the [k]-th
    payment covers the [k]-th interval after [startDate], and the next due
    date is the end of the first interval not yet paid. *)
Definition ledgerAligned (w : World) (id : uint256) : Prop :=
  let a := agreements w !!! id in
  let l := rentPayments w !!! id in
  nextRentDueDate a = startDate a + (N.of_nat (length l) + 1) * rentInterval a /\
  forall (k : nat) (p : RentPayment),
    l !! k = Some p ->
    periodStart p = startDate a + N.of_nat k * rentInterval a /\
    periodEnd p = startDate a + (N.of_nat k + 1) * rentInterval a.

(** Every Active agreement carries both confirmations. *)
Definition activeConfirmed (w : World) : Prop :=
  forall id, status (agreements w !!! id) = Active ->
             tenantConfirmed (agreements w !!! id) = true /\
             landlordConfirmed (agreements w !!! id) = true.

(** Every Disputed agreement has an unresolved dispute on record. *)
Definition disputesOpen (w : World) : Prop :=
  forall id, status (agreements w !!! id) = Disputed ->
             resolved (disputes w !!! id) = false.

(** More of the concrete deployment. *)
Module Cases.
Import Scenario.

(** Bob withdraws from agreement 2 while it is Pending. *)
Definition w_cancelled : World := commit (call bob 0 50) (CancelAgreement 2) w_active.

(** After Alice's payment of 150 the owner ends agreement 1 early and sends
    300 back to her. *)
Definition w_terminated : World := commit (call admin 0 60) (TerminateAgreement 1 300) w_paid.

(** Larry adds evidence to the dispute on agreement 1. *)
Definition w_evidence : World :=
  commit (call larry 0 110) (SubmitEvidence 1 "invoice") w_disputed.

(** The owner pauses the contract. *)
Definition w_paused : World := commit (call admin 0 45) Pause w_active.

(** A call during which every recipient refuses the ether sent to it. *)
Definition refusedCall (sender value time : N) : Env :=
  {| msg_sender := sender; msg_value := value; block_timestamp := time;
     tx_gasprice := 2; gasleft_cond := 30; gasleft_else := 25;
     accepts := fun _ _ => false |}.

(** A lease whose terms were left empty, confirmed by both parties. *)
Definition blankLease : Op := CreateAgreement 1 larry 100 (30 * days) leaseStart leaseEnd "".
Definition w_blank : World :=
  commit (call larry 0 40) (LandlordConfirm 1)
    (commit (call alice 0 30) (TenantConfirm 1)
       (commit (call alice 1000 10) blankLease genesis)).

End Cases.

(** ** The property-verification contract

    The contract behind the three view functions the escrow calls
    (PropertyVerification.sol).  Of the ERC-721 machinery it inherits only the
    table of badge owners is kept: [_safeMint] refuses the zero address and,
    through the contract's [_update] override, a token that already has an
    owner; the recipient is taken to accept the badge.  The inherited transfer
    functions always revert on such badges and are left out. *)

Module Registry.

Record Property : Type := {
  owner : address;
  propertyAddress : string;
  documentHash : string;
  videoHash : string;
  gpsCoordinates : string;
  verificationDate : uint256;
  isVerified : bool;
  isActive : bool;
  kycLevel : uint256
}.

Record KYCProof : Type := {
  personaVerificationId : string;
  videoTimestamp : string;
  governmentIdVerified : bool;
  addressProofVerified : bool
}.

#[global] Instance Property_inhabited : Inhabited Property :=
  populate {| owner := 0; propertyAddress := ""; documentHash := ""; videoHash := "";
              gpsCoordinates := ""; verificationDate := 0; isVerified := false;
              isActive := false; kycLevel := 0 |}.

#[global] Instance KYCProof_inhabited : Inhabited KYCProof :=
  populate {| personaVerificationId := ""; videoTimestamp := "";
              governmentIdVerified := false; addressProofVerified := false |}.

Definition set_verificationDate (v : N) (x : Property) : Property :=
  {| owner := owner x; propertyAddress := propertyAddress x; documentHash := documentHash x;
     videoHash := videoHash x; gpsCoordinates := gpsCoordinates x; verificationDate := v;
     isVerified := isVerified x; isActive := isActive x; kycLevel := kycLevel x |}.

Definition set_isVerified (v : bool) (x : Property) : Property :=
  {| owner := owner x; propertyAddress := propertyAddress x; documentHash := documentHash x;
     videoHash := videoHash x; gpsCoordinates := gpsCoordinates x;
     verificationDate := verificationDate x; isVerified := v; isActive := isActive x;
     kycLevel := kycLevel x |}.

Definition set_isActive (v : bool) (x : Property) : Property :=
  {| owner := owner x; propertyAddress := propertyAddress x; documentHash := documentHash x;
     videoHash := videoHash x; gpsCoordinates := gpsCoordinates x;
     verificationDate := verificationDate x; isVerified := isVerified x; isActive := v;
     kycLevel := kycLevel x |}.


Inductive Event : Type :=
| PropertySubmitted (propertyId : uint256) (landlord : address) (propertyAddress : string)
    (kycLevel : uint256)
| PropertyVerified (propertyId : uint256) (verifier : address) (kycLevel : uint256)
| PropertyDeactivated (propertyId : uint256) (reason : string)
| KYCProofLinked (propertyId : uint256) (personaVerificationId : string)
| ListingFeeUpdated (oldFee newFee : uint256)
| GasSponsorshipGranted (user : address)
| OwnershipTransferred (previousOwner newOwner : address).

(** Storage of the contract ([_owner] from [Ownable], [badges] the ERC-721
    owner table), its ether balance and the logs of transfers and events. *)
Record State : Type := {
  _nextPropertyId : uint256;
  properties : gmap N Property;
  kycProofs : gmap N KYCProof;
  landlordProperties : gmap N (list N);
  listingFee : uint256;
  kycProcessingFee : uint256;
  feeCollector : address;
  sponsorshipPool : uint256;
  gasSponsored : gmap N bool;
  _owner : address;
  badges : gmap N N;
  balance : N;
  sent : list (address * N);
  events : list Event
}.

Definition set__nextPropertyId (v : N) (x : State) : State :=
  {| _nextPropertyId := v; properties := properties x; kycProofs := kycProofs x;
     landlordProperties := landlordProperties x; listingFee := listingFee x;
     kycProcessingFee := kycProcessingFee x; feeCollector := feeCollector x;
     sponsorshipPool := sponsorshipPool x; gasSponsored := gasSponsored x;
     _owner := _owner x; badges := badges x; balance := balance x; sent := sent x;
     events := events x |}.

Definition set_properties (v : gmap N Property) (x : State) : State :=
  {| _nextPropertyId := _nextPropertyId x; properties := v; kycProofs := kycProofs x;
     landlordProperties := landlordProperties x; listingFee := listingFee x;
     kycProcessingFee := kycProcessingFee x; feeCollector := feeCollector x;
     sponsorshipPool := sponsorshipPool x; gasSponsored := gasSponsored x;
     _owner := _owner x; badges := badges x; balance := balance x; sent := sent x;
     events := events x |}.

Definition set_kycProofs (v : gmap N KYCProof) (x : State) : State :=
  {| _nextPropertyId := _nextPropertyId x; properties := properties x; kycProofs := v;
     landlordProperties := landlordProperties x; listingFee := listingFee x;
     kycProcessingFee := kycProcessingFee x; feeCollector := feeCollector x;
     sponsorshipPool := sponsorshipPool x; gasSponsored := gasSponsored x;
     _owner := _owner x; badges := badges x; balance := balance x; sent := sent x;
     events := events x |}.

Definition set_landlordProperties (v : gmap N (list N)) (x : State) : State :=
  {| _nextPropertyId := _nextPropertyId x; properties := properties x;
     kycProofs := kycProofs x; landlordProperties := v; listingFee := listingFee x;
     kycProcessingFee := kycProcessingFee x; feeCollector := feeCollector x;
     sponsorshipPool := sponsorshipPool x; gasSponsored := gasSponsored x;
     _owner := _owner x; badges := badges x; balance := balance x; sent := sent x;
     events := events x |}.

Definition set_listingFee (v : N) (x : State) : State :=
  {| _nextPropertyId := _nextPropertyId x; properties := properties x;
     kycProofs := kycProofs x; landlordProperties := landlordProperties x; listingFee := v;
     kycProcessingFee := kycProcessingFee x; feeCollector := feeCollector x;
     sponsorshipPool := sponsorshipPool x; gasSponsored := gasSponsored x;
     _owner := _owner x; badges := badges x; balance := balance x; sent := sent x;
     events := events x |}.

Definition set_kycProcessingFee (v : N) (x : State) : State :=
  {| _nextPropertyId := _nextPropertyId x; properties := properties x;
     kycProofs := kycProofs x; landlordProperties := landlordProperties x;
     listingFee := listingFee x; kycProcessingFee := v; feeCollector := feeCollector x;
     sponsorshipPool := sponsorshipPool x; gasSponsored := gasSponsored x;
     _owner := _owner x; badges := badges x; balance := balance x; sent := sent x;
     events := events x |}.

Definition set_sponsorshipPool (v : N) (x : State) : State :=
  {| _nextPropertyId := _nextPropertyId x; properties := properties x;
     kycProofs := kycProofs x; landlordProperties := landlordProperties x;
     listingFee := listingFee x; kycProcessingFee := kycProcessingFee x;
     feeCollector := feeCollector x; sponsorshipPool := v; gasSponsored := gasSponsored x;
     _owner := _owner x; badges := badges x; balance := balance x; sent := sent x;
     events := events x |}.

Definition set_gasSponsored (v : gmap N bool) (x : State) : State :=
  {| _nextPropertyId := _nextPropertyId x; properties := properties x;
     kycProofs := kycProofs x; landlordProperties := landlordProperties x;
     listingFee := listingFee x; kycProcessingFee := kycProcessingFee x;
     feeCollector := feeCollector x; sponsorshipPool := sponsorshipPool x; gasSponsored := v;
     _owner := _owner x; badges := badges x; balance := balance x; sent := sent x;
     events := events x |}.

Definition set__owner (v : N) (x : State) : State :=
  {| _nextPropertyId := _nextPropertyId x; properties := properties x;
     kycProofs := kycProofs x; landlordProperties := landlordProperties x;
     listingFee := listingFee x; kycProcessingFee := kycProcessingFee x;
     feeCollector := feeCollector x; sponsorshipPool := sponsorshipPool x;
     gasSponsored := gasSponsored x; _owner := v; badges := badges x; balance := balance x;
     sent := sent x; events := events x |}.

Definition set_badges (v : gmap N N) (x : State) : State :=
  {| _nextPropertyId := _nextPropertyId x; properties := properties x;
     kycProofs := kycProofs x; landlordProperties := landlordProperties x;
     listingFee := listingFee x; kycProcessingFee := kycProcessingFee x;
     feeCollector := feeCollector x; sponsorshipPool := sponsorshipPool x;
     gasSponsored := gasSponsored x; _owner := _owner x; badges := v; balance := balance x;
     sent := sent x; events := events x |}.

Definition set_balance (v : N) (x : State) : State :=
  {| _nextPropertyId := _nextPropertyId x; properties := properties x;
     kycProofs := kycProofs x; landlordProperties := landlordProperties x;
     listingFee := listingFee x; kycProcessingFee := kycProcessingFee x;
     feeCollector := feeCollector x; sponsorshipPool := sponsorshipPool x;
     gasSponsored := gasSponsored x; _owner := _owner x; badges := badges x; balance := v;
     sent := sent x; events := events x |}.

Definition set_sent (v : list (N * N)) (x : State) : State :=
  {| _nextPropertyId := _nextPropertyId x; properties := properties x;
     kycProofs := kycProofs x; landlordProperties := landlordProperties x;
     listingFee := listingFee x; kycProcessingFee := kycProcessingFee x;
     feeCollector := feeCollector x; sponsorshipPool := sponsorshipPool x;
     gasSponsored := gasSponsored x; _owner := _owner x; badges := badges x;
     balance := balance x; sent := v; events := events x |}.

Definition set_events (v : list Event) (x : State) : State :=
  {| _nextPropertyId := _nextPropertyId x; properties := properties x;
     kycProofs := kycProofs x; landlordProperties := landlordProperties x;
     listingFee := listingFee x; kycProcessingFee := kycProcessingFee x;
     feeCollector := feeCollector x; sponsorshipPool := sponsorshipPool x;
     gasSponsored := gasSponsored x; _owner := _owner x; badges := badges x;
     balance := balance x; sent := sent x; events := v |}.


(** Transactions of this contract: the same monad over its own state. *)

Definition R (A : Type) : Type := State -> result (A * State).

Definition ret {A : Type} (a : A) : R A := fun s => Ok (a, s).

Definition bind {A B : Type} (m : R A) (k : A -> R B) : R B :=
  fun s => match m s with
           | Ok (a, s1) => k a s1
           | Revert why => Revert why
           end.

Definition revert {A : Type} (why : string) : R A := fun _ => Revert why.

Definition gets {A : Type} (f : State -> A) : R A := fun s => Ok (f s, s).

Definition modify (f : State -> State) : R unit := fun s => Ok (tt, f s).

Declare Scope reg_scope.
Delimit Scope reg_scope with reg.
Bind Scope reg_scope with R.

Notation "x <- m ;; k" := (bind m (fun x => k))
  (at level 100, m at next level, right associativity) : reg_scope.
Notation "m ;; k" := (bind m (fun _ => k))
  (at level 100, right associativity) : reg_scope.

Local Open Scope reg_scope.

Definition require (P : Prop) `{Decision P} (why : string) : R unit :=
  if decide P then ret tt else revert why.

Definition emit (ev : Event) : R unit :=
  modify (fun s => set_events (events s ++ [ev]) s).

Definition checked_add (a b : uint256) : R uint256 :=
  if decide (a + b <= MAX_UINT256) then ret (a + b) else revert "Panic(0x11)".

Definition checked_sub (a b : uint256) : R uint256 :=
  if decide (b <= a) then ret (a - b) else revert "Panic(0x11)".

Definition payable (e : Env) : R unit :=
  modify (fun s => set_balance (balance s + msg_value e) s).

Definition nonpayable (e : Env) : R unit :=
  require (msg_value e = 0) "non-payable function called with value".

Definition onlyOwner (e : Env) : R unit :=
  o <- gets _owner ;;
  require (o = msg_sender e) "OwnableUnauthorizedAccount".

Definition sendValue (e : Env) (recipient : address) (amt : uint256) : R unit :=
  b <- gets balance ;;
  require (amt <= b) "InsufficientBalance" ;;
  require (accepts e recipient amt = true) "FailedCall" ;;
  modify (fun s => set_sent (sent s ++ [(recipient, amt)]) (set_balance (balance s - amt) s)).

Definition property (id : uint256) : R Property :=
  gets (fun s => properties s !!! id).

Definition updateProperty (id : uint256) (f : Property -> Property) : R unit :=
  modify (fun s => set_properties (<[id := f (properties s !!! id)]> (properties s)) s).

(** [_safeMint(to, tokenId)] with the [_update] override of this contract. *)
Definition _safeMint (to : address) (tokenId : uint256) : R unit :=
  require (to <> 0) "ERC721InvalidReceiver" ;;
  from <- gets (fun s => badges s !!! tokenId) ;;
  require (~ (from <> 0 /\ to <> 0)) "Property badges are non-transferable" ;;
  modify (fun s => set_badges (<[tokenId := to]> (badges s)) s).

Definition submitProperty (e : Env) (_propertyAddress _documentHash _videoHash
    _gpsCoordinates : string) (_kycLevel : uint256) : R uint256 :=
  payable e ;;
  require (0 < N.of_nat (String.length _propertyAddress)) "Property address required" ;;
  require (0 < N.of_nat (String.length _documentHash)) "Document hash required" ;;
  require (0 < N.of_nat (String.length _videoHash)) "Video hash required" ;;
  require (0 < N.of_nat (String.length _gpsCoordinates)) "GPS coordinates required" ;;
  require (_kycLevel = 1 \/ _kycLevel = 2) "Invalid KYC level" ;;
  base <- gets listingFee ;;
  requiredFee <- (if decide (_kycLevel = 2)
                  then extra <- gets kycProcessingFee ;; checked_add base extra
                  else ret base) ;;
  sponsored <- gets (fun s => gasSponsored s !!! msg_sender e) ;;
  (if negb sponsored then
     require (requiredFee <= msg_value e) "Insufficient listing fee" ;;
     collector <- gets feeCollector ;;
     sendValue e collector (msg_value e)
   else
     pool <- gets sponsorshipPool ;;
     require (requiredFee <= pool) "Sponsorship pool depleted" ;;
     rest <- checked_sub pool requiredFee ;;
     modify (set_sponsorshipPool rest)) ;;
  propertyId <- gets _nextPropertyId ;;
  next <- checked_add propertyId 1 ;;
  modify (set__nextPropertyId next) ;;
  modify (fun s => set_properties (<[propertyId :=
    {| owner := msg_sender e;
       propertyAddress := _propertyAddress;
       documentHash := _documentHash;
       videoHash := _videoHash;
       gpsCoordinates := _gpsCoordinates;
       verificationDate := 0;
       isVerified := false;
       isActive := true;
       kycLevel := _kycLevel |}]> (properties s)) s) ;;
  modify (fun s => set_landlordProperties
    (<[msg_sender e := (landlordProperties s !!! msg_sender e) ++ [propertyId]]>
       (landlordProperties s)) s) ;;
  emit (PropertySubmitted propertyId (msg_sender e) _propertyAddress _kycLevel) ;;
  ret propertyId.

Definition linkKYCProof (e : Env) (propertyId : uint256) (_personaVerificationId
    _videoTimestamp : string) (_governmentIdVerified _addressProofVerified : bool)
    : R unit :=
  nonpayable e ;;
  onlyOwner e ;;
  p <- property propertyId ;;
  require (owner p <> 0) "Property does not exist" ;;
  require (isVerified p = false) "Property already verified" ;;
  require (0 < N.of_nat (String.length _personaVerificationId)) "Persona ID required" ;;
  require (0 < N.of_nat (String.length _videoTimestamp)) "Video timestamp required" ;;
  modify (fun s => set_kycProofs (<[propertyId :=
    {| personaVerificationId := _personaVerificationId;
       videoTimestamp := _videoTimestamp;
       governmentIdVerified := _governmentIdVerified;
       addressProofVerified := _addressProofVerified |}]> (kycProofs s)) s) ;;
  emit (KYCProofLinked propertyId _personaVerificationId).

Definition verifyProperty (e : Env) (propertyId : uint256) : R unit :=
  nonpayable e ;;
  onlyOwner e ;;
  p <- property propertyId ;;
  proof <- gets (fun s => kycProofs s !!! propertyId) ;;
  require (owner p <> 0) "Property does not exist" ;;
  require (isVerified p = false) "Property already verified" ;;
  require (isActive p = true) "Property is deactivated" ;;
  (if decide (kycLevel p = 2) then
     require (governmentIdVerified proof = true) "Government ID not verified" ;;
     require (addressProofVerified proof = true) "Address proof not verified"
   else ret tt) ;;
  updateProperty propertyId (set_isVerified true) ;;
  updateProperty propertyId (set_verificationDate (block_timestamp e)) ;;
  _safeMint (owner p) propertyId ;;
  emit (PropertyVerified propertyId (msg_sender e) (kycLevel p)).

Definition deactivateProperty (e : Env) (propertyId : uint256) (reason : string) : R unit :=
  nonpayable e ;;
  onlyOwner e ;;
  p <- property propertyId ;;
  require (owner p <> 0) "Property does not exist" ;;
  require (isActive p = true) "Property already deactivated" ;;
  updateProperty propertyId (set_isActive false) ;;
  emit (PropertyDeactivated propertyId reason).

Definition grantGasSponsorship (e : Env) (user : address) : R unit :=
  nonpayable e ;;
  onlyOwner e ;;
  require (user <> 0) "Invalid user address" ;;
  modify (fun s => set_gasSponsored (<[user := true]> (gasSponsored s)) s) ;;
  emit (GasSponsorshipGranted user).

Definition fundSponsorshipPool (e : Env) : R unit :=
  payable e ;;
  require (0 < msg_value e) "Must send funds" ;;
  pool <- gets sponsorshipPool ;;
  pool' <- checked_add pool (msg_value e) ;;
  modify (set_sponsorshipPool pool').

Definition emergencyWithdrawSponsorship (e : Env) : R unit :=
  nonpayable e ;;
  onlyOwner e ;;
  pool <- gets sponsorshipPool ;;
  require (0 < pool) "No funds to withdraw" ;;
  let amount := pool in
  modify (set_sponsorshipPool 0) ;;
  admin <- gets _owner ;;
  sendValue e admin amount.

Definition updateListingFee (e : Env) (newFee : uint256) : R unit :=
  nonpayable e ;;
  onlyOwner e ;;
  oldFee <- gets listingFee ;;
  modify (set_listingFee newFee) ;;
  emit (ListingFeeUpdated oldFee newFee).

Definition updateKYCFee (e : Env) (newFee : uint256) : R unit :=
  nonpayable e ;;
  onlyOwner e ;;
  modify (set_kycProcessingFee newFee).

(** Inherited from OpenZeppelin's [Ownable]. *)

Definition transferOwnership (e : Env) (newOwner : address) : R unit :=
  nonpayable e ;;
  onlyOwner e ;;
  require (newOwner <> 0) "OwnableInvalidOwner" ;;
  old <- gets _owner ;;
  modify (set__owner newOwner) ;;
  emit (OwnershipTransferred old newOwner).

Definition renounceOwnership (e : Env) : R unit :=
  nonpayable e ;;
  onlyOwner e ;;
  old <- gets _owner ;;
  modify (set__owner 0) ;;
  emit (OwnershipTransferred old 0).

(** The three views the escrow reads. *)

Definition isPropertyVerified (s : State) (propertyId : uint256) : bool :=
  let p := properties s !!! propertyId in
  isVerified p && isActive p.

Definition getPropertyOwner (s : State) (propertyId : uint256) : address :=
  owner (properties s !!! propertyId).

Definition getListingFee (s : State) : uint256 := listingFee s.

Definition views (s : State) : PropertyVerification :=
  Build_PropertyVerification (isPropertyVerified s) (getPropertyOwner s) (getListingFee s).

Inductive Op : Type :=
| SubmitProperty (_propertyAddress _documentHash _videoHash _gpsCoordinates : string)
    (_kycLevel : uint256)
| LinkKYCProof (propertyId : uint256) (_personaVerificationId _videoTimestamp : string)
    (_governmentIdVerified _addressProofVerified : bool)
| VerifyProperty (propertyId : uint256)
| DeactivateProperty (propertyId : uint256) (reason : string)
| GrantGasSponsorship (user : address)
| FundSponsorshipPool
| EmergencyWithdrawSponsorship
| UpdateListingFee (newFee : uint256)
| UpdateKYCFee (newFee : uint256)
| TransferOwnership (newOwner : address)
| RenounceOwnership.

Definition exec (e : Env) (op : Op) : R unit :=
  match op with
  | SubmitProperty a d v g k => submitProperty e a d v g k ;; ret tt
  | LinkKYCProof p i t g a => linkKYCProof e p i t g a
  | VerifyProperty p => verifyProperty e p
  | DeactivateProperty p r => deactivateProperty e p r
  | GrantGasSponsorship u => grantGasSponsorship e u
  | FundSponsorshipPool => fundSponsorshipPool e
  | EmergencyWithdrawSponsorship => emergencyWithdrawSponsorship e
  | UpdateListingFee f => updateListingFee e f
  | UpdateKYCFee f => updateKYCFee e f
  | TransferOwnership o => transferOwnership e o
  | RenounceOwnership => renounceOwnership e
  end.

Definition step (s : State) (e : Env) (op : Op) (s' : State) : Prop :=
  exec e op s = Ok (tt, s').

Inductive reaches : State -> State -> Prop :=
| reaches_refl s : reaches s s
| reaches_step s e op s1 s2 : step s e op s1 -> reaches s1 s2 -> reaches s s2.

(** The state right after the constructor ran ([0.1 ether] and [0.05 ether]
    are the initial fees). *)
Definition deploy (deployer collector : address) : State :=
  {| _nextPropertyId := 1;
     properties := ∅;
     kycProofs := ∅;
     landlordProperties := ∅;
     listingFee := 100000000000000000;
     kycProcessingFee := 50000000000000000;
     feeCollector := collector;
     sponsorshipPool := 0;
     gasSponsored := ∅;
     _owner := deployer;
     badges := ∅;
     balance := 0;
     sent := [];
     events := [] |}.

(** A property has been submitted once its id has been handed out. *)
Definition submitted (s : State) (id : uint256) : Prop := id < _nextPropertyId s.

(** A verified property exists and, at KYC level 2, has both proofs on
    record. *)
Definition verifiedSound (s : State) : Prop :=
  forall id, isVerified (properties s !!! id) = true ->
    owner (properties s !!! id) <> 0 /\
    (kycLevel (properties s !!! id) = 2 ->
     governmentIdVerified (kycProofs s !!! id) = true /\
     addressProofVerified (kycProofs s !!! id) = true).

(** A concrete registry: Larry lists a flat at KYC level 2, the owner links
    the proofs and verifies it, and later deactivates it. *)
Definition commit (e : Env) (op : Op) (s : State) : State :=
  match exec e op s with
  | Ok (_, s') => s'
  | Revert _ => s
  end.

Definition fee : N := 150000000000000000.

Definition r_genesis : State := deploy Scenario.admin Scenario.wallet.
Definition r_listed : State :=
  commit (Scenario.call Scenario.larry fee 1)
    (SubmitProperty "12 Elm Street" "deed" "tour" "51.5,-0.1" 2) r_genesis.
Definition r_linked : State :=
  commit (Scenario.call Scenario.admin 0 2) (LinkKYCProof 1 "persona-1" "t0" true true)
    r_listed.
Definition r_verified : State :=
  commit (Scenario.call Scenario.admin 0 3) (VerifyProperty 1) r_linked.
Definition r_deactivated : State :=
  commit (Scenario.call Scenario.admin 0 4) (DeactivateProperty 1 "fraud") r_verified.

(** Bob puts 500 into the sponsorship pool. *)
Definition r_funded : State :=
  commit (Scenario.call Scenario.bob 500 5) FundSponsorshipPool r_listed.

End Registry.

(** An escrow deployed against the concrete registry. *)
Module Joint.

Definition genesis : World :=
  deploy (Registry.views Registry.r_verified) Scenario.ledger Scenario.admin Scenario.escrow
    Scenario.wallet.

Definition w_created : World :=
  Scenario.commit (Scenario.call Scenario.alice 1000 10) Scenario.lease genesis.

End Joint.

(** * Reasoning about successful transactions *)

Section Inversion.
Context {A B : Type}.

Lemma bind_Ok (m : M A) (k : A -> M B) (w w' : World) (b : B) :
  bind m k w = Ok (b, w') ->
  exists a w1, m w = Ok (a, w1) /\ k a w1 = Ok (b, w').
Proof.
  unfold bind. destruct (m w) as [[a w1]|why]; [|discriminate].
  intros Hk. exists a, w1. split; [reflexivity|exact Hk].
Qed.

Lemma bind_Ok_intro (m : M A) (k : A -> M B) (w w1 w' : World) (a : A) (b : B) :
  m w = Ok (a, w1) -> k a w1 = Ok (b, w') -> bind m k w = Ok (b, w').
Proof. unfold bind. intros -> Hk. exact Hk. Qed.

Lemma bind_Revert (m : M A) (k : A -> M B) (w : World) (why : string) :
  m w = Revert why -> bind m k w = Revert why.
Proof. unfold bind. intros ->. reflexivity. Qed.

Lemma ret_Ok (a a' : A) (w w' : World) : ret a w = Ok (a', w') -> a' = a /\ w' = w.
Proof. unfold ret. intros [= -> ->]. split; reflexivity. Qed.

Lemma gets_Ok (f : World -> A) (a : A) (w w' : World) :
  gets f w = Ok (a, w') -> a = f w /\ w' = w.
Proof. unfold gets. intros [= <- <-]. split; reflexivity. Qed.

Lemma revert_Ok (why : string) (w : World) (r : A * World) : revert why w = Ok r -> False.
Proof. discriminate. Qed.

End Inversion.

Lemma modify_Ok (f : World -> World) (u : unit) (w w' : World) :
  modify f w = Ok (u, w') -> w' = f w.
Proof. unfold modify. intros Heq. congruence. Qed.

Lemma require_Ok (P : Prop) `{Decision P} (why : string) (u : unit) (w w' : World) :
  require P why w = Ok (u, w') -> P /\ w' = w.
Proof.
  unfold require. destruct (decide P) as [HP|HP]; [|discriminate].
  intros [_ ->]%ret_Ok. split; [exact HP|reflexivity].
Qed.

Lemma require_not (P : Prop) `{Decision P} (why : string) (w : World) :
  ~ P -> require P why w = Revert why.
Proof. unfold require. intros HP. destruct (decide P); [contradiction|reflexivity]. Qed.

Lemma checked_add_Ok (a b c : N) (w w' : World) :
  checked_add a b w = Ok (c, w') -> c = a + b /\ a + b <= MAX_UINT256 /\ w' = w.
Proof.
  unfold checked_add. destruct (decide _) as [Hle|]; [|discriminate].
  intros [-> ->]%ret_Ok. auto.
Qed.

Lemma checked_sub_Ok (a b c : N) (w w' : World) :
  checked_sub a b w = Ok (c, w') -> c = a - b /\ b <= a /\ w' = w.
Proof.
  unfold checked_sub. destruct (decide _) as [Hle|]; [|discriminate].
  intros [-> ->]%ret_Ok. auto.
Qed.

Lemma checked_mul_Ok (a b c : N) (w w' : World) :
  checked_mul a b w = Ok (c, w') -> c = a * b /\ a * b <= MAX_UINT256 /\ w' = w.
Proof.
  unfold checked_mul. destruct (decide _) as [Hle|]; [|discriminate].
  intros [-> ->]%ret_Ok. auto.
Qed.

(** Projections of updated records are computed away. *)
Ltac simp_w :=
  cbn [
    agreementId propertyId tenant landlord depositAmount monthlyRent rentInterval startDate
    endDate createdAt status metadataHash tenantConfirmed landlordConfirmed disputeDeadline
    nextRentDueDate overdueGracePeriod totalRentPaid d_agreementId initiator reason
    evidenceHashes d_createdAt resolved winner isRentDispute propertyVerification
    rentalReceipt _nextAgreementId agreements disputes rentPayments tenantAgreements
    landlordAgreements lastOverdueCheck platformFeePercent rentProcessingFeePercent
    disputePeriod defaultGracePeriod platformWallet gasSubsidyPool isGasSubsidized owner
    paused this balance sent events set_status set_tenantConfirmed set_landlordConfirmed
    set_disputeDeadline set_nextRentDueDate set_totalRentPaid set_evidenceHashes
    set_resolved set_winner set_rentalReceipt set__nextAgreementId set_agreements
    set_disputes set_rentPayments set_tenantAgreements set_landlordAgreements
    set_lastOverdueCheck set_platformFeePercent set_rentProcessingFeePercent
    set_disputePeriod set_defaultGracePeriod set_gasSubsidyPool set_isGasSubsidized
    set_owner set_paused set_balance set_sent set_events
  ] in *.

(** [inv_ok] takes a hypothesis [m w = Ok r] apart, one primitive at a time,
    splitting on the conditionals it meets. *)
Ltac inv_ok_one :=
  match goal with
  | H : bind _ _ _ = Ok _ |- _ =>
      apply bind_Ok in H; destruct H as (? & ? & ? & H)
  | H : ret _ _ = Ok _ |- _ => apply ret_Ok in H; destruct H as [? ?]; subst
  | H : gets _ _ = Ok _ |- _ => apply gets_Ok in H; destruct H as [? ?]; subst
  | H : modify _ _ = Ok _ |- _ => apply modify_Ok in H; subst
  | H : revert _ _ = Ok _ |- _ => exfalso; exact (revert_Ok _ _ _ H)
  | H : Revert _ = Ok _ |- _ => discriminate H
  | H : require _ _ _ = Ok _ |- _ => apply require_Ok in H; destruct H as [? ?]; subst
  | H : checked_add _ _ _ = Ok _ |- _ =>
      apply checked_add_Ok in H; destruct H as (? & ? & ?); subst
  | H : checked_sub _ _ _ = Ok _ |- _ =>
      apply checked_sub_Ok in H; destruct H as (? & ? & ?); subst
  | H : checked_mul _ _ _ = Ok _ |- _ =>
      apply checked_mul_Ok in H; destruct H as (? & ? & ?); subst
  | H : (if decide ?P then _ else _) _ = Ok _ |- _ => destruct (decide P)
  | H : (if ?b then _ else _) _ = Ok _ |- _ => destruct b eqn:?
  end.

Ltac inv_ok := repeat inv_ok_one.

(** What the composite helpers do when they succeed. *)

Lemma sendValue_Ok (e : Env) (recipient : address) (amt : uint256) (u : unit)
    (w w' : World) :
  sendValue e recipient amt w = Ok (u, w') ->
  amt <= balance w /\ accepts e recipient amt = true /\
  w' = set_sent (sent w ++ [(recipient, amt)]) (set_balance (balance w - amt) w).
Proof. unfold sendValue. intros H. inv_ok. auto. Qed.

Lemma emit_Ok (ev : Event) (u : unit) (w w' : World) :
  emit ev w = Ok (u, w') -> w' = set_events (events w ++ [ev]) w.
Proof. unfold emit. intros H. inv_ok. reflexivity. Qed.

Lemma recordReceipt_Ok (r : Receipt) (o : option uint256) (n : uint256) (w w' : World) :
  recordReceipt r o w = Ok (n, w') -> exists rr, w' = set_rentalReceipt rr w.
Proof. unfold recordReceipt. intros H. inv_ok. eexists. reflexivity. Qed.

Lemma mintReceipt_Ok e t l p d r s en h (n : uint256) (w w' : World) :
  mintReceipt e t l p d r s en h w = Ok (n, w') -> exists rr, w' = set_rentalReceipt rr w.
Proof.
  unfold mintReceipt, onlyMinter. intros H. inv_ok.
  eapply recordReceipt_Ok. eassumption.
Qed.

Lemma mintRentPaymentProof_Ok e t l i r d s en h (n : uint256) (w w' : World) :
  mintRentPaymentProof e t l i r d s en h w = Ok (n, w') ->
  exists rr, w' = set_rentalReceipt rr w.
Proof.
  unfold mintRentPaymentProof, onlyMinter. intros H. inv_ok.
  eapply recordReceipt_Ok. eassumption.
Qed.

Lemma updateAgreement_Ok (id : uint256) f (u : unit) (w w' : World) :
  updateAgreement id f w = Ok (u, w') ->
  w' = set_agreements (<[id := f (agreements w !!! id)]> (agreements w)) w.
Proof. unfold updateAgreement. intros H. inv_ok. reflexivity. Qed.

Lemma updateDispute_Ok (id : uint256) f (u : unit) (w w' : World) :
  updateDispute id f w = Ok (u, w') ->
  w' = set_disputes (<[id := f (disputes w !!! id)]> (disputes w)) w.
Proof. unfold updateDispute. intros H. inv_ok. reflexivity. Qed.

Lemma storeDispute_Ok (id : uint256) d (u : unit) (w w' : World) :
  storeDispute id d w = Ok (u, w') -> w' = set_disputes (<[id := d]> (disputes w)) w.
Proof. unfold storeDispute. intros H. inv_ok. reflexivity. Qed.

Ltac inv_call_one :=
  match goal with
  | H : sendValue _ _ _ _ = Ok _ |- _ =>
      apply sendValue_Ok in H; destruct H as (? & ? & ?); subst
  | H : emit _ _ = Ok _ |- _ => apply emit_Ok in H; subst
  | H : mintReceipt _ _ _ _ _ _ _ _ _ _ = Ok _ |- _ =>
      apply mintReceipt_Ok in H; destruct H as [? ?]; subst
  | H : mintRentPaymentProof _ _ _ _ _ _ _ _ _ _ = Ok _ |- _ =>
      apply mintRentPaymentProof_Ok in H; destruct H as [? ?]; subst
  | H : updateAgreement _ _ _ = Ok _ |- _ => apply updateAgreement_Ok in H; subst
  | H : updateDispute _ _ _ = Ok _ |- _ => apply updateDispute_Ok in H; subst
  | H : storeDispute _ _ _ = Ok _ |- _ => apply storeDispute_Ok in H; subst
  | H : agreement _ _ = Ok _ |- _ => unfold agreement in H
  | H : dispute _ _ = Ok _ |- _ => unfold dispute in H
  | H : payable _ _ = Ok _ |- _ => unfold payable in H
  | H : nonpayable _ _ = Ok _ |- _ => unfold nonpayable in H
  | H : onlyOwner _ _ = Ok _ |- _ => unfold onlyOwner in H
  | H : whenNotPaused _ = Ok _ |- _ => unfold whenNotPaused in H
  | _ => inv_ok_one
  end.

(** [inv_tx H] unfolds nothing by itself: unfold the operation in [H] first. *)
Ltac inv_tx := simp_w; repeat (inv_call_one; simp_w).

(** Conversely, running a transaction forwards: each primitive succeeds when
    its guard holds. *)

Lemma require_intro (P : Prop) `{Decision P} (why : string) (w : World) :
  P -> require P why w = Ok (tt, w).
Proof. unfold require. intros HP. destruct (decide P); [reflexivity|contradiction]. Qed.

Lemma checked_add_intro (a b : N) (w : World) :
  a + b <= MAX_UINT256 -> checked_add a b w = Ok (a + b, w).
Proof. unfold checked_add. intros H. destruct (decide _); [reflexivity|contradiction]. Qed.

Lemma checked_sub_intro (a b : N) (w : World) :
  b <= a -> checked_sub a b w = Ok (a - b, w).
Proof. unfold checked_sub. intros H. destruct (decide _); [reflexivity|contradiction]. Qed.

Lemma checked_mul_intro (a b : N) (w : World) :
  a * b <= MAX_UINT256 -> checked_mul a b w = Ok (a * b, w).
Proof. unfold checked_mul. intros H. destruct (decide _); [reflexivity|contradiction]. Qed.

Lemma sendValue_intro (e : Env) (recipient : address) (amt : uint256) (w : World) :
  amt <= balance w -> accepts e recipient amt = true ->
  sendValue e recipient amt w
  = Ok (tt, set_sent (sent w ++ [(recipient, amt)]) (set_balance (balance w - amt) w)).
Proof.
  intros H Hacc. unfold sendValue.
  eapply bind_Ok_intro; [reflexivity|].
  eapply bind_Ok_intro; [apply require_intro; exact H|].
  eapply bind_Ok_intro; [apply require_intro; exact Hacc|]. reflexivity.
Qed.

Ltac run_prim :=
  let side :=
    (rewrite ?lookup_total_insert_eq; simp_w; first [assumption | reflexivity | lia]) in
  first [ apply require_intro; side
        | apply checked_add_intro; side
        | apply checked_sub_intro; side
        | apply checked_mul_intro; side
        | apply sendValue_intro; side
        | reflexivity ].

Ltac run :=
  simp_w;
  lazymatch goal with
  | |- bind _ _ _ = Ok _ => eapply bind_Ok_intro; [run|run]
  | |- _ => run_prim
  end.

(** * Rent payment *)

(** Everything a successful [payRent] does to the agreement table, the rent
    ledger, the subsidy pool and the log of outgoing transfers. *)
Lemma payRent_effect (e : Env) (id : uint256) (h : string) (w w' : World) (u : unit) :
  payRent e id h w = Ok (u, w') ->
  let a := agreements w !!! id in
  let v := msg_value e in
  let fee := processingFeeOf w v in
  status a = Active /\ msg_sender e = tenant a /\ monthlyRent a <= v /\
  rentInterval a <= nextRentDueDate a /\ fee <= v /\
  agreements w' =
    <[id := set_nextRentDueDate (nextRentDueDate a + rentInterval a)
              (set_totalRentPaid (totalRentPaid a + v) a)]> (agreements w) /\
  rentPayments w' =
    <[id := (rentPayments w !!! id) ++
            [{| rp_agreementId := id; amount := v; paidDate := block_timestamp e;
                periodStart := nextRentDueDate a - rentInterval a;
                periodEnd := nextRentDueDate a; rp_status := Paid |}]]> (rentPayments w) /\
  sent w' = sent w ++ subsidyTransfers e w ++ excessTransfers e a ++
            [(landlord a, v - fee); (platformWallet w, fee)] /\
  subsidyAmount e w <= gasSubsidyPool w /\
  gasSubsidyPool w' = gasSubsidyPool w - subsidyAmount e w /\
  _nextAgreementId w' = _nextAgreementId w.
Proof.
  intros H. unfold payRent in H. inv_tx.
  all: unfold processingFeeOf, subsidyTransfers, subsidyAmount, excessTransfers,
         gasRefundOf, subsidyDue.
  all: rewrite lookup_total_insert_eq, insert_insert_eq.
  all: repeat (split; [first [assumption | reflexivity]|]).
  all: repeat match goal with
         | |- context [decide ?P] => destruct (decide P); try contradiction; try lia
         end.
  all: rewrite <- ?app_assoc; simpl.
  all: repeat split; try reflexivity; try lia.
Qed.

(** C3. A successful [payRent] of value [v] sends the processing fee
    [v * rentProcessingFeePercent / 100] (truncating division) to the platform
    wallet and [v] minus that fee to the landlord, and in the same
    transaction refunds whatever exceeds [monthlyRent] to the tenant.  With
    [v = 150], [monthlyRent = 100] and a rate of 1 the tenant gets 50 back
    while landlord and platform share the full 150 as 149 and 1. *)
Theorem payRent_split (e : Env) (id : uint256) (h : string) (w w' : World) (u : unit) :
  payRent e id h w = Ok (u, w') ->
  let a := agreements w !!! id in
  let v := msg_value e in
  let fee := v * rentProcessingFeePercent w / 100 in
  monthlyRent a <= v /\
  sent w' = sent w ++ subsidyTransfers e w ++
            (if decide (monthlyRent a < v) then [(tenant a, v - monthlyRent a)] else []) ++
            [(landlord a, v - fee); (platformWallet w, fee)] /\
  (v = 150 -> monthlyRent a = 100 -> rentProcessingFeePercent w = 1 ->
   sent w' = sent w ++ subsidyTransfers e w ++
             [(tenant a, 50); (landlord a, 149); (platformWallet w, 1)]).
Proof.
  intros H a v fee.
  destruct (payRent_effect _ _ _ _ _ _ H) as (_ & Hten & Hrent & _ & _ & _ & _ & Hsent & _).
  fold a v in Hten, Hrent, Hsent. unfold processingFeeOf, excessTransfers in Hsent.
  fold v fee in Hsent. rewrite Hten in Hsent.
  assert (Hgen : sent w' = sent w ++ subsidyTransfers e w ++
            (if decide (monthlyRent a < v) then [(tenant a, v - monthlyRent a)] else []) ++
            [(landlord a, v - fee); (platformWallet w, fee)]).
  { rewrite Hsent. do 2 f_equal.
    destruct (decide (0 < v - monthlyRent a)), (decide (monthlyRent a < v));
      first [reflexivity | lia]. }
  split; [exact Hrent|]. split; [exact Hgen|].
  intros Hv Hm Hr. rewrite Hgen. subst fee. rewrite Hv, Hm, Hr.
  reflexivity.
Qed.

Lemma payRent_split_witness :
  payRent (Scenario.call Scenario.alice 150 50) 1 "june" Scenario.w_active
    = Ok (tt, Scenario.w_paid) /\
  sent Scenario.w_paid =
    [(Scenario.alice, 50); (Scenario.larry, 149); (Scenario.wallet, 1)].
Proof.
  assert (H : payRent (Scenario.call Scenario.alice 150 50) 1 "june" Scenario.w_active
              = Ok (tt, Scenario.w_paid)) by (vm_compute; reflexivity).
  split; [exact H|].
  destruct (payRent_split _ _ _ _ _ _ H) as (_ & _ & Hs).
  rewrite Hs by (vm_compute; reflexivity).
  vm_compute. reflexivity.
Defined.

(** C5. When a successful [payRent] carries more than [monthlyRent], the
    transfers it makes besides the gas subsidy (excess to the tenant, net rent
    to the landlord, fee to the platform) add up to
    [v + (v - monthlyRent)], strictly more than the [v] it received. *)
Theorem payRent_overpayment_outflow (e : Env) (id : uint256) (h : string) (w w' : World)
    (u : unit) :
  payRent e id h w = Ok (u, w') ->
  let a := agreements w !!! id in
  let v := msg_value e in
  let fee := v * rentProcessingFeePercent w / 100 in
  monthlyRent a < v ->
  let out := [(tenant a, v - monthlyRent a); (landlord a, v - fee); (platformWallet w, fee)] in
  sent w' = sent w ++ subsidyTransfers e w ++ out /\
  totalSent out = v + (v - monthlyRent a) /\
  v < totalSent out.
Proof.
  intros H a v fee Hover out.
  destruct (payRent_split _ _ _ _ _ _ H) as (_ & Hsent & _).
  destruct (payRent_effect _ _ _ _ _ _ H) as (_ & _ & _ & _ & Hfee & _).
  fold a v fee in Hsent. unfold processingFeeOf in Hfee. fold v fee in Hfee.
  destruct (decide (monthlyRent a < v)) as [_|]; [|contradiction].
  split; [exact Hsent|].
  unfold out, totalSent. simpl. split; lia.
Qed.

Lemma payRent_overpayment_outflow_witness :
  payRent (Scenario.call Scenario.alice 150 50) 1 "june" Scenario.w_active
    = Ok (tt, Scenario.w_paid) /\
  totalSent (sent Scenario.w_paid) = 200.
Proof.
  assert (H : payRent (Scenario.call Scenario.alice 150 50) 1 "june" Scenario.w_active
              = Ok (tt, Scenario.w_paid)) by (vm_compute; reflexivity).
  split; [exact H|].
  destruct (payRent_overpayment_outflow _ _ _ _ _ _ H) as (Hs & _ & _).
  { vm_compute. reflexivity. }
  rewrite Hs. vm_compute. reflexivity.
Defined.

(** C7. A successful [payRent] moves [nextRentDueDate] forward by exactly one
    [rentInterval], and the payment it appends to the rent ledger covers the
    period from [nextRentDueDate - rentInterval] to [nextRentDueDate], both
    taken at the start of the call. *)
Theorem payRent_period (e : Env) (id : uint256) (h : string) (w w' : World) (u : unit) :
  payRent e id h w = Ok (u, w') ->
  let a := agreements w !!! id in
  let a' := agreements w' !!! id in
  nextRentDueDate a' = nextRentDueDate a + rentInterval a /\
  rentInterval a' = rentInterval a /\
  exists p : RentPayment,
    rentPayments w' !!! id = rentPayments w !!! id ++ [p] /\
    rp_status p = Paid /\
    amount p = msg_value e /\
    periodStart p = nextRentDueDate a - rentInterval a /\
    periodEnd p = nextRentDueDate a /\
    periodStart p + rentInterval a = periodEnd p.
Proof.
  intros H a a'.
  destruct (payRent_effect _ _ _ _ _ _ H) as (_ & _ & _ & Hint & _ & Hag & Hpay & _).
  fold a in Hint, Hag, Hpay. subst a'.
  rewrite Hag, Hpay, !lookup_total_insert_eq. simpl.
  split; [reflexivity|]. split; [reflexivity|].
  eexists. split; [reflexivity|]. simpl.
  repeat split; lia.
Qed.

Lemma payRent_period_witness :
  payRent (Scenario.call Scenario.alice 150 50) 1 "june" Scenario.w_active
    = Ok (tt, Scenario.w_paid) /\
  nextRentDueDate (agreements Scenario.w_paid !!! 1) =
    Scenario.leaseStart + 30 * days + 30 * days.
Proof.
  assert (H : payRent (Scenario.call Scenario.alice 150 50) 1 "june" Scenario.w_active
              = Ok (tt, Scenario.w_paid)) by (vm_compute; reflexivity).
  split; [exact H|].
  destruct (payRent_period _ _ _ _ _ _ H) as (Hn & _).
  rewrite Hn. vm_compute. reflexivity.
Defined.

(** * Properties of every transaction *)

Ltac unfold_ops :=
  unfold createAgreement, tenantConfirm, landlordConfirm, _activateAgreement, payRent,
    checkRentOverdue, _autoRaiseRentDispute, releaseDeposit, _emitFeeBreakdown, raiseDispute,
    submitEvidence, resolveDispute, cancelAgreement, terminateAgreement, grantGasSubsidy,
    fundGasSubsidy, updatePlatformFee, updateRentProcessingFee, updateDisputePeriod,
    updateGracePeriod, pause, transferOwnership, renounceOwnership in *.

(** Reads of a table after writes: decide whether the key read is the key
    written; a key below [_nextAgreementId] is never the fresh one. *)
Ltac lookup_cases :=
  repeat match goal with
  | |- context [ <[?i := _]> _ !!! ?i ] => rewrite (lookup_total_insert_eq _ i)
  | H : ?i <> ?j |- context [ <[?i := _]> _ !!! ?j ] =>
      rewrite (lookup_total_insert_ne _ i j) by exact H
  | |- context [ <[?i := _]> _ !!! ?j ] =>
      let Heq := fresh "Heq" in
      destruct (decide (i = j)) as [Heq|];
      [first [exfalso; lia | rewrite <- Heq in *]|]
  end.

(** Split a successful [exec] into the twenty operations and invert each. *)
Ltac invert_op H := simpl in H; unfold_ops; inv_tx.

Ltac by_operation H :=
  match type of H with
  | exec _ ?op _ = Ok _ => destruct op; invert_op H
  end.

Lemma step_nextAgreementId (w w' : World) (e : Env) (op : Op) :
  step w e op w' -> _nextAgreementId w <= _nextAgreementId w'.
Proof. unfold step. intros H. by_operation H; lia. Qed.

Lemma step_created (w w' : World) (e : Env) (op : Op) (id : uint256) :
  step w e op w' -> created w id -> created w' id.
Proof. unfold created. intros H%step_nextAgreementId Hid. lia. Qed.

Lemma step_totalRentPaid (w w' : World) (e : Env) (op : Op) (id : uint256) :
  step w e op w' -> created w id ->
  totalRentPaid (agreements w' !!! id)
  = totalRentPaid (agreements w !!! id) + rentPaidBy e op id.
Proof.
  unfold step, created. intros H Hid.
  by_operation H; simpl; lookup_cases; simp_w;
    try (destruct (decide _)); first [lia | congruence].
Qed.

Lemma step_status (w w' : World) (e : Env) (op : Op) (id : uint256) :
  step w e op w' -> created w id ->
  status (agreements w' !!! id) = status (agreements w !!! id) \/
  contract_edge (status (agreements w !!! id)) (status (agreements w' !!! id)).
Proof.
  unfold step, created. intros H Hid.
  by_operation H; simpl; lookup_cases; simp_w; try (left; reflexivity).
  all: repeat match goal with
         | H : _ \/ _ |- _ => destruct H
         end.
  all: repeat match goal with
         | H : status _ = _ |- _ => rewrite H
         end.
  all: first [ left; reflexivity
             | right; apply edge_dispute_pending
             | right; apply edge_listed; constructor ].
Qed.

Lemma contract_edge_stage (s s' : AgreementStatus) :
  contract_edge s s' -> (stage s < stage s')%nat.
Proof. intros [? ? []|]; simpl; lia. Qed.

Lemma reaches_stage (w w' : World) (id : uint256) :
  reaches w w' -> created w id ->
  (stage (status (agreements w !!! id)) <= stage (status (agreements w' !!! id)))%nat.
Proof.
  induction 1 as [w|w e op w1 w2 Hstep _ IH]; intros Hid; [lia|].
  specialize (IH (step_created _ _ _ _ _ Hstep Hid)).
  destruct (step_status _ _ _ _ id Hstep Hid) as [Heq|Hedge].
  - rewrite <- Heq. exact IH.
  - apply contract_edge_stage in Hedge. lia.
Qed.

Lemma reaches_totalRentPaid (w w' : World) (id : uint256) :
  reaches w w' -> created w id ->
  totalRentPaid (agreements w !!! id) <= totalRentPaid (agreements w' !!! id).
Proof.
  induction 1 as [w|w e op w1 w2 Hstep _ IH]; intros Hid; [lia|].
  specialize (IH (step_created _ _ _ _ _ Hstep Hid)).
  rewrite (step_totalRentPaid _ _ _ _ id Hstep Hid) in IH. lia.
Qed.

(** C6. For every agreement that has been created, [totalRentPaid] grows by
    exactly [msg.value] in a successful [payRent] on that agreement and is left
    alone by every other successful transaction; over any history it never
    decreases. *)
Theorem totalRentPaid_accounting (w : World) (id : uint256) :
  created w id ->
  (forall e h w', step w e (PayRent id h) w' ->
     totalRentPaid (agreements w' !!! id)
     = totalRentPaid (agreements w !!! id) + msg_value e) /\
  (forall e op w', step w e op w' -> (forall h, op <> PayRent id h) ->
     totalRentPaid (agreements w' !!! id) = totalRentPaid (agreements w !!! id)) /\
  (forall w', reaches w w' ->
     totalRentPaid (agreements w !!! id) <= totalRentPaid (agreements w' !!! id)).
Proof.
  intros Hid. repeat split.
  - intros e h w' Hstep.
    rewrite (step_totalRentPaid _ _ _ _ id Hstep Hid). simpl.
    destruct (decide (id = id)); [reflexivity|contradiction].
  - intros e op w' Hstep Hop.
    rewrite (step_totalRentPaid _ _ _ _ id Hstep Hid).
    destruct op; simpl; try lia.
    destruct (decide _) as [->|]; [|lia]. exfalso. eapply Hop. reflexivity.
  - intros w' Hreach. apply reaches_totalRentPaid; assumption.
Qed.

Lemma totalRentPaid_accounting_witness :
  created Scenario.w_active 1 /\
  totalRentPaid (agreements Scenario.w_paid !!! 1) = 150 /\
  totalRentPaid (agreements Scenario.w_disputed !!! 1) = 0.
Proof.
  assert (Hid : created Scenario.w_active 1) by (vm_compute; reflexivity).
  destruct (totalRentPaid_accounting Scenario.w_active 1 Hid) as (Hpay & Hother & _).
  split; [exact Hid|]. split.
  - rewrite (Hpay (Scenario.call Scenario.alice 150 50) "june" Scenario.w_paid)
      by (vm_compute; reflexivity).
    vm_compute. reflexivity.
  - rewrite (Hother (Scenario.call Scenario.alice 0 100)
               (RaiseDispute 1 "broken heating" "photo") Scenario.w_disputed)
      by first [discriminate | vm_compute; reflexivity].
    vm_compute. reflexivity.
Defined.

(** C2 (as the contract has it). For every agreement that has been created,
    a successful transaction either leaves its status alone or moves it along
    an edge of section 4.1 or along Pending to Disputed, the edge
    [raiseDispute] adds; over any history a status that is no longer Pending
    never becomes Pending again, and one that is past Active never becomes
    Pending or Active again. *)
Theorem status_follows_contract_edges (w : World) (id : uint256) :
  created w id ->
  (forall e op w', step w e op w' ->
     status (agreements w' !!! id) = status (agreements w !!! id) \/
     contract_edge (status (agreements w !!! id)) (status (agreements w' !!! id))) /\
  (forall w', reaches w w' ->
     (status (agreements w !!! id) <> Pending -> status (agreements w' !!! id) <> Pending) /\
     (status (agreements w !!! id) <> Pending /\ status (agreements w !!! id) <> Active ->
      status (agreements w' !!! id) <> Pending /\ status (agreements w' !!! id) <> Active)).
Proof.
  intros Hid. split.
  - intros e op w' Hstep. exact (step_status _ _ _ _ id Hstep Hid).
  - intros w' Hreach. pose proof (reaches_stage _ _ id Hreach Hid) as Hstage.
    destruct (status (agreements w !!! id)), (status (agreements w' !!! id));
      simpl in Hstage; repeat split; intros; try discriminate; try lia;
      intuition congruence.
Qed.

Lemma status_follows_contract_edges_witness :
  created Scenario.w_active 1 /\
  contract_edge (status (agreements Scenario.w_active !!! 1))
                (status (agreements Scenario.w_disputed !!! 1)).
Proof.
  assert (Hid : created Scenario.w_active 1) by (vm_compute; reflexivity).
  destruct (status_follows_contract_edges Scenario.w_active 1 Hid) as (Hstep & _).
  split; [exact Hid|].
  destruct (Hstep (Scenario.call Scenario.alice 0 100)
              (RaiseDispute 1 "broken heating" "photo") Scenario.w_disputed) as [Heq|Hedge].
  - vm_compute. reflexivity.
  - exfalso. revert Heq. vm_compute. discriminate.
  - exact Hedge.
Defined.

(** C2 as stated fails: [raiseDispute] takes the Pending agreement 2 straight
    to Disputed, which is not among the edges of section 4.1. *)
Lemma pending_agreement_can_be_disputed :
  step Scenario.w_active (Scenario.call Scenario.bob 0 100)
       (RaiseDispute 2 "never got the keys" "chat") Scenario.w_pending_dispute /\
  created Scenario.w_active 2 /\
  status (agreements Scenario.w_active !!! 2) = Pending /\
  status (agreements Scenario.w_pending_dispute !!! 2) = Disputed /\
  ~ listed_edge Pending Disputed.
Proof.
  split; [vm_compute; reflexivity|].
  split; [vm_compute; reflexivity|].
  split; [vm_compute; reflexivity|].
  split; [vm_compute; reflexivity|].
  intros Hedge. inversion Hedge.
Qed.

(** * Gas-subsidy pool *)





(** * Overdue rent *)






(** * Dispute resolution *)

Lemma resolveDispute_effect (e : Env) (id : uint256) (b : bool) (w w' : World) (u : unit) :
  resolveDispute e id b w = Ok (u, w') ->
  let a := agreements w !!! id in
  let d := disputes w !!! id in
  let fee := platformFeeOf w (depositAmount a) in
  owner w = msg_sender e /\ status a = Disputed /\ resolved d = false /\
  agreements w' = <[id := set_status (if b then Terminated else Completed) a]> (agreements w) /\
  disputes w' =
    <[id := set_winner (if b then tenant a else landlord a) (set_resolved true d)]>
      (disputes w) /\
  sent w' = sent w ++ (if b then [(tenant a, depositAmount a)]
                       else [(landlord a, depositAmount a - fee); (platformWallet w, fee)]) /\
  _nextAgreementId w' = _nextAgreementId w.
Proof.
  intros H. unfold resolveDispute in H. inv_tx.
  all: unfold platformFeeOf.
  all: rewrite ?lookup_total_insert_eq, ?insert_insert_eq, <- ?app_assoc.
  all: repeat (split; [first [assumption | reflexivity]|]); reflexivity.
Qed.

Lemma resolveDispute_needs_dispute (e : Env) (id : uint256) (b : bool) (w : World) :
  status (agreements w !!! id) <> Disputed ->
  exists why, resolveDispute e id b w = Revert why.
Proof.
  intros Hst. destruct (resolveDispute e id b w) as [[u w']|why] eqn:H.
  - exfalso. apply resolveDispute_effect in H. destruct H as (_ & H & _). contradiction.
  - exists why. reflexivity.
Qed.

(** The owner can always resolve an unresolved dispute of a Disputed
    agreement, provided the contract still holds the deposit and the payees
    accept their payments. *)
Lemma resolveDispute_succeeds (e : Env) (id : uint256) (b : bool) (w : World) :
  let a := agreements w !!! id in
  let fee := depositAmount a * platformFeePercent w / 100 in
  msg_value e = 0 -> owner w = msg_sender e ->
  status a = Disputed -> resolved (disputes w !!! id) = false ->
  depositAmount a <= balance w ->
  platformFeePercent w <= 5 -> depositAmount a * 5 <= MAX_UINT256 ->
  (if b then accepts e (tenant a) (depositAmount a) = true
   else accepts e (landlord a) (depositAmount a - fee) = true /\
        accepts e (platformWallet w) fee = true) ->
  exists w', resolveDispute e id b w = Ok (tt, w').
Proof.
  intros a fee0 Hval Hown Hst Hres Hbal Hcap Hbig Hacc. subst a fee0.
  assert (Hmul : depositAmount (agreements w !!! id) * platformFeePercent w <= MAX_UINT256)
    by nia.
  assert (Hfee : depositAmount (agreements w !!! id) * platformFeePercent w / 100
                 <= depositAmount (agreements w !!! id)).
  { apply N.Div0.div_le_upper_bound. nia. }
  set (fee := depositAmount (agreements w !!! id) * platformFeePercent w / 100) in *.
  destruct b; [|destruct Hacc as [Hlandlord Hwallet]];
    eexists; unfold resolveDispute, nonpayable, onlyOwner, agreement, dispute; run.
Qed.

(** Once an agreement is Completed, Cancelled or Terminated its dispute record
    is never written again. *)
Lemma step_settled_dispute (w w' : World) (e : Env) (op : Op) (id : uint256) :
  step w e op w' -> stage (status (agreements w !!! id)) = 3%nat ->
  disputes w' !!! id = disputes w !!! id.
Proof.
  unfold step. intros H Hst.
  by_operation H; simpl; lookup_cases; try reflexivity.
  all: repeat match goal with
         | Hs : _ \/ _ |- _ => destruct Hs
         end.
  all: match goal with
       | Hs : status _ = _ |- _ => rewrite Hs in Hst; discriminate Hst
       end.
Qed.

Lemma reaches_settled_dispute (w w' : World) (id : uint256) :
  reaches w w' -> created w id -> stage (status (agreements w !!! id)) = 3%nat ->
  stage (status (agreements w' !!! id)) = 3%nat /\
  disputes w' !!! id = disputes w !!! id.
Proof.
  induction 1 as [w|w e op w1 w2 Hstep Hrest IH]; intros Hid Hst; [auto|].
  assert (Hst1 : stage (status (agreements w1 !!! id)) = 3%nat).
  { pose proof (reaches_stage w w1 id
                  (reaches_step _ _ _ _ _ Hstep (reaches_refl w1)) Hid) as Hle.
    destruct (status (agreements w1 !!! id)); simpl in *; lia. }
  destruct (IH (step_created _ _ _ _ _ Hstep Hid) Hst1) as [Hst2 Hd].
  split; [exact Hst2|].
  rewrite Hd. exact (step_settled_dispute _ _ _ _ _ Hstep Hst).
Qed.

(** C9. On a Disputed agreement with an unresolved dispute the owner's
    [resolveDispute] goes through for either value of [refundTenant], as long
    as the contract holds the deposit and the payees take their payments.
    A successful [resolveDispute] finds the agreement Disputed and its
    dispute unresolved, and marks the dispute resolved.  With
    [refundTenant = true] the tenant becomes the winner, the agreement becomes
    Terminated and the whole deposit goes back to the tenant; with
    [refundTenant = false] the landlord becomes the winner, the agreement
    becomes Completed, the landlord gets the deposit less the platform fee and
    the platform wallet the fee.  Any further [resolveDispute] on the agreement
    reverts, right away and after any later history, and the recorded winner
    never changes. *)
Theorem resolveDispute_once (e : Env) (id : uint256) (b : bool) (w : World) :
  let a := agreements w !!! id in
  let fee := depositAmount a * platformFeePercent w / 100 in
  (msg_value e = 0 -> owner w = msg_sender e ->
   status a = Disputed -> resolved (disputes w !!! id) = false ->
   depositAmount a <= balance w ->
   platformFeePercent w <= 5 -> depositAmount a * 5 <= MAX_UINT256 ->
   (if b then accepts e (tenant a) (depositAmount a) = true
    else accepts e (landlord a) (depositAmount a - fee) = true /\
         accepts e (platformWallet w) fee = true) ->
   exists w', resolveDispute e id b w = Ok (tt, w')) /\
  (forall u w', resolveDispute e id b w = Ok (u, w') ->
   status a = Disputed /\
   resolved (disputes w !!! id) = false /\
   resolved (disputes w' !!! id) = true /\
   (b = true ->
      winner (disputes w' !!! id) = tenant a /\
      status (agreements w' !!! id) = Terminated /\
      sent w' = sent w ++ [(tenant a, depositAmount a)]) /\
   (b = false ->
      winner (disputes w' !!! id) = landlord a /\
      status (agreements w' !!! id) = Completed /\
      sent w' = sent w ++ [(landlord a, depositAmount a - fee); (platformWallet w, fee)]) /\
   (forall e2 b2, exists why, resolveDispute e2 id b2 w' = Revert why) /\
   (created w id ->
    forall w2, reaches w' w2 ->
      winner (disputes w2 !!! id) = winner (disputes w' !!! id) /\
      resolved (disputes w2 !!! id) = true /\
      forall e2 b2, exists why, resolveDispute e2 id b2 w2 = Revert why)).
Proof.
  intros a fee. split; [exact (resolveDispute_succeeds e id b w)|].
  intros u w' H.
  destruct (resolveDispute_effect _ _ _ _ _ _ H) as (_ & Hst & Hres & Hag & Hd & Hsent & Hnext).
  fold a in Hst, Hag, Hd, Hsent. unfold platformFeeOf in Hsent. fold a fee in Hsent.
  assert (Hst' : stage (status (agreements w' !!! id)) = 3%nat).
  { rewrite Hag, lookup_total_insert_eq. destruct b; reflexivity. }
  assert (Hres' : resolved (disputes w' !!! id) = true).
  { rewrite Hd, lookup_total_insert_eq. reflexivity. }
  split; [exact Hst|]. split; [exact Hres|]. split; [exact Hres'|].
  split; [|split; [|split]].
  - intros ->. rewrite Hag, Hd, !lookup_total_insert_eq. auto.
  - intros ->. rewrite Hag, Hd, !lookup_total_insert_eq. auto.
  - intros e2 b2. apply resolveDispute_needs_dispute.
    intros Hdis. rewrite Hdis in Hst'. discriminate.
  - intros Hid w2 Hreach.
    assert (Hid' : created w' id) by (unfold created in *; rewrite Hnext; exact Hid).
    destruct (reaches_settled_dispute _ _ _ Hreach Hid' Hst') as [Hst2 Hd2].
    rewrite Hd2. split; [reflexivity|]. split; [exact Hres'|].
    intros e2 b2. apply resolveDispute_needs_dispute.
    intros Hdis. rewrite Hdis in Hst2. discriminate.
Qed.

Lemma resolveDispute_once_witness :
  (resolveDispute (Scenario.call Scenario.admin 0 200) 1 true Scenario.w_disputed
     = Ok (tt, Scenario.w_tenant_wins) /\
   winner (disputes Scenario.w_tenant_wins !!! 1) = Scenario.alice /\
   status (agreements Scenario.w_tenant_wins !!! 1) = Terminated /\
   sent Scenario.w_tenant_wins = [(Scenario.alice, 1000)] /\
   exists why,
     resolveDispute (Scenario.call Scenario.admin 0 300) 1 false Scenario.w_tenant_wins
     = Revert why) /\
  (resolveDispute (Scenario.call Scenario.admin 0 200) 1 false Scenario.w_disputed
     = Ok (tt, Scenario.w_landlord_wins) /\
   winner (disputes Scenario.w_landlord_wins !!! 1) = Scenario.larry /\
   status (agreements Scenario.w_landlord_wins !!! 1) = Completed /\
   sent Scenario.w_landlord_wins = [(Scenario.larry, 980); (Scenario.wallet, 20)] /\
   exists why,
     resolveDispute (Scenario.call Scenario.admin 0 300) 1 true Scenario.w_landlord_wins
     = Revert why) /\
  (exists w',
     resolveDispute (Scenario.call Scenario.admin 0 200) 1 false Scenario.w_disputed
     = Ok (tt, w')).
Proof.
  split; [|split].
  - assert (H : resolveDispute (Scenario.call Scenario.admin 0 200) 1 true
                  Scenario.w_disputed = Ok (tt, Scenario.w_tenant_wins))
      by (vm_compute; reflexivity).
    split; [exact H|].
    destruct (resolveDispute_once (Scenario.call Scenario.admin 0 200) 1 true
                Scenario.w_disputed) as [_ Hdone].
    destruct (Hdone _ _ H) as (_ & _ & _ & Hyes & _ & Hagain & _).
    destruct (Hyes eq_refl) as (Hw & Hs & Hsent).
    split; [etransitivity; [exact Hw|]; vm_compute; reflexivity|].
    split; [exact Hs|].
    split; [etransitivity; [exact Hsent|]; vm_compute; reflexivity|].
    apply Hagain.
  - assert (H : resolveDispute (Scenario.call Scenario.admin 0 200) 1 false
                  Scenario.w_disputed = Ok (tt, Scenario.w_landlord_wins))
      by (vm_compute; reflexivity).
    split; [exact H|].
    destruct (resolveDispute_once (Scenario.call Scenario.admin 0 200) 1 false
                Scenario.w_disputed) as [_ Hdone].
    destruct (Hdone _ _ H) as (_ & _ & _ & _ & Hno & Hagain & _).
    destruct (Hno eq_refl) as (Hw & Hs & Hsent).
    split; [etransitivity; [exact Hw|]; vm_compute; reflexivity|].
    split; [exact Hs|].
    split; [etransitivity; [exact Hsent|]; vm_compute; reflexivity|].
    apply Hagain.
  - destruct (resolveDispute_once (Scenario.call Scenario.admin 0 200) 1 false
                Scenario.w_disputed) as [Hgoes _].
    apply Hgoes.
    + vm_compute. reflexivity.
    + vm_compute. reflexivity.
    + vm_compute. reflexivity.
    + vm_compute. reflexivity.
    + vm_compute. discriminate.
    + vm_compute. discriminate.
    + vm_compute. discriminate.
    + split; vm_compute; reflexivity.
Defined.

(** * Fee breakdown *)

Lemma calculateFeeBreakdown_effect (e : Env) (id : uint256) (w w' : World)
    (fb : FeeBreakdown) :
  calculateFeeBreakdown e id w = Ok (fb, w') ->
  let a := agreements w !!! id in
  let depositFee := depositAmount a * platformFeePercent w / 100 in
  let rentFee := totalRentPaid a * rentProcessingFeePercent w / 100 in
  w' = w /\ depositFee <= depositAmount a /\ rentFee <= totalRentPaid a /\
  fb = {| fb_depositAmount := depositAmount a;
          fb_totalRentPaid := totalRentPaid a;
          platformFeeOnDeposit := depositFee;
          platformFeeOnRent := rentFee;
          listingFee := getListingFee (propertyVerification w);
          totalGasSponsored := 0;
          netToLandlord := (depositAmount a - depositFee) + (totalRentPaid a - rentFee);
          netToTenant := 0 |}.
Proof.
  intros H. unfold calculateFeeBreakdown in H. inv_tx. auto.
Qed.

(** Within the fee caps, and for amounts far from the top of [uint256], the
    view does return a breakdown. *)
Lemma calculateFeeBreakdown_defined (e : Env) (id : uint256) (w : World) :
  msg_value e = 0 ->
  platformFeePercent w <= 5 -> rentProcessingFeePercent w <= 3 ->
  depositAmount (agreements w !!! id) * 5 <= MAX_UINT256 ->
  totalRentPaid (agreements w !!! id) * 3 <= MAX_UINT256 ->
  depositAmount (agreements w !!! id) + totalRentPaid (agreements w !!! id) <= MAX_UINT256 ->
  exists fb, calculateFeeBreakdown e id w = Ok (fb, w).
Proof.
  intros Hval Hp Hr Hd Ht Hsum.
  set (a := agreements w !!! id) in *.
  assert (Hdf : depositAmount a * platformFeePercent w / 100 <= depositAmount a).
  { apply N.Div0.div_le_upper_bound. nia. }
  assert (Hrf : totalRentPaid a * rentProcessingFeePercent w / 100 <= totalRentPaid a).
  { apply N.Div0.div_le_upper_bound. nia. }
  assert (Hnet : depositAmount a - depositAmount a * platformFeePercent w / 100
                 + (totalRentPaid a - totalRentPaid a * rentProcessingFeePercent w / 100)
                 <= MAX_UINT256).
  { revert Hdf Hrf Hsum.
    generalize (depositAmount a * platformFeePercent w / 100).
    generalize (totalRentPaid a * rentProcessingFeePercent w / 100).
    generalize MAX_UINT256. intros. lia. }
  eexists.
  unfold calculateFeeBreakdown, nonpayable, agreement, bind, gets, require,
    checked_mul, checked_sub, checked_add, ret.
  fold a.
  rewrite (decide_True (P := msg_value e = 0)) by exact Hval.
  rewrite (decide_True (P := depositAmount a * platformFeePercent w <= MAX_UINT256)) by nia.
  rewrite (decide_True (P := totalRentPaid a * rentProcessingFeePercent w <= MAX_UINT256))
    by nia.
  rewrite (decide_True (P := _ / 100 <= depositAmount a)) by exact Hdf.
  rewrite (decide_True (P := _ / 100 <= totalRentPaid a)) by exact Hrf.
  rewrite (decide_True (P := _ + _ <= MAX_UINT256)) by exact Hnet.
  reflexivity.
Qed.

(** C4 (as the contract has it). Whenever [calculateFeeBreakdown] returns,
    with [depositFee = depositAmount * platformFeePercent / 100],
    [rentFee = totalRentPaid * rentProcessingFeePercent / 100] and
    [landlordNet = (depositAmount - depositFee) + (totalRentPaid - rentFee)],
    the figures reconcile as
    [landlordNet + depositFee = depositAmount + (totalRentPaid - rentFee)],
    that is [landlordNet + depositFee + rentFee = depositAmount + totalRentPaid],
    and [rentFee + (totalRentPaid - rentFee) = totalRentPaid]; the sum
    [landlordNet + depositFee] equals [depositAmount] exactly when the rent
    part [totalRentPaid - rentFee] is zero. *)
Theorem feeBreakdown_reconciles (e : Env) (id : uint256) (w w' : World) (fb : FeeBreakdown) :
  calculateFeeBreakdown e id w = Ok (fb, w') ->
  let a := agreements w !!! id in
  platformFeeOnDeposit fb = depositAmount a * platformFeePercent w / 100 /\
  platformFeeOnRent fb = totalRentPaid a * rentProcessingFeePercent w / 100 /\
  netToLandlord fb = (depositAmount a - platformFeeOnDeposit fb)
                     + (totalRentPaid a - platformFeeOnRent fb) /\
  netToLandlord fb + platformFeeOnDeposit fb
    = depositAmount a + (totalRentPaid a - platformFeeOnRent fb) /\
  netToLandlord fb + platformFeeOnDeposit fb + platformFeeOnRent fb
    = depositAmount a + totalRentPaid a /\
  platformFeeOnRent fb + (totalRentPaid a - platformFeeOnRent fb) = totalRentPaid a /\
  (netToLandlord fb + platformFeeOnDeposit fb = depositAmount a
   <-> totalRentPaid a - platformFeeOnRent fb = 0).
Proof.
  intros H a.
  destruct (calculateFeeBreakdown_effect _ _ _ _ _ H) as (_ & Hd & Hr & ->).
  subst a. simpl. clear H.
  revert Hd Hr.
  generalize (depositAmount (agreements w !!! id) * platformFeePercent w / 100).
  generalize (totalRentPaid (agreements w !!! id) * rentProcessingFeePercent w / 100).
  intros rentFee depositFee Hd Hr.
  repeat split; intros; try reflexivity; lia.
Qed.

Lemma feeBreakdown_reconciles_witness :
  exists fb,
    calculateFeeBreakdown (Scenario.call Scenario.bob 0 60) 1 Scenario.w_paid
      = Ok (fb, Scenario.w_paid) /\
    netToLandlord fb + platformFeeOnDeposit fb + platformFeeOnRent fb = 1000 + 150.
Proof.
  destruct (calculateFeeBreakdown_defined (Scenario.call Scenario.bob 0 60) 1 Scenario.w_paid)
    as [fb Hfb].
  1: vm_compute; reflexivity.
  1-5: vm_compute; discriminate.
  exists fb. split; [exact Hfb|].
  destruct (feeBreakdown_reconciles _ _ _ _ _ Hfb) as (_ & _ & _ & _ & Hsum & _).
  rewrite Hsum. vm_compute. reflexivity.
Defined.

(** C4 as stated fails: after Alice's payment of 150 on a deposit of 1000 the
    breakdown has [netToLandlord = 1129] and [platformFeeOnDeposit = 20],
    which add up to 1149 and not to the deposit. *)
Lemma landlordNet_plus_depositFee_exceeds_deposit :
  exists fb,
    calculateFeeBreakdown (Scenario.call Scenario.bob 0 60) 1 Scenario.w_paid
      = Ok (fb, Scenario.w_paid) /\
    platformFeePercent Scenario.w_paid <= 5 /\
    rentProcessingFeePercent Scenario.w_paid <= 3 /\
    fb_depositAmount fb = 1000 /\
    netToLandlord fb + platformFeeOnDeposit fb = 1149 /\
    netToLandlord fb + platformFeeOnDeposit fb <> fb_depositAmount fb.
Proof.
  eexists. split; [vm_compute; reflexivity|].
  split; [vm_compute; discriminate|].
  split; [vm_compute; discriminate|].
  split; [reflexivity|]. split; [reflexivity|]. discriminate.
Qed.

(** * Deposit release *)

Lemma releaseDeposit_effect (e : Env) (id : uint256) (w w' : World) (u : unit) :
  releaseDeposit e id w = Ok (u, w') ->
  let a := agreements w !!! id in
  let fee := platformFeeOf w (depositAmount a) in
  (status a = Active \/ status a = Completed) /\
  disputeDeadline a <= block_timestamp e /\ endDate a <= block_timestamp e /\
  agreements w' = <[id := set_status Completed a]> (agreements w) /\
  sent w' = sent w ++ [(landlord a, depositAmount a - fee); (platformWallet w, fee)] /\
  balance w' + depositAmount a = balance w.
Proof.
  intros H. unfold releaseDeposit, _emitFeeBreakdown in H. inv_tx.
  all: unfold platformFeeOf; rewrite <- ?app_assoc; simpl.
  all: repeat (split; [first [assumption | reflexivity | (left; assumption)
                              | (right; assumption)]|]); lia.
Qed.

(** Nothing in [releaseDeposit] tells a Completed agreement from an Active
    one: under the same conditions on caller, time, funds, payees and receipt
    ledger the call goes through and pays. *)
Lemma releaseDeposit_succeeds (e : Env) (id : uint256) (w : World) :
  let a := agreements w !!! id in
  let fee := depositAmount a * platformFeePercent w / 100 in
  msg_value e = 0 ->
  status a = Active \/ status a = Completed ->
  msg_sender e = tenant a \/ msg_sender e = landlord a \/ msg_sender e = owner w ->
  disputeDeadline a <= block_timestamp e -> endDate a <= block_timestamp e ->
  platformFeePercent w <= 5 -> rentProcessingFeePercent w <= 3 ->
  depositAmount a * 5 <= MAX_UINT256 -> totalRentPaid a * 3 <= MAX_UINT256 ->
  depositAmount a + totalRentPaid a <= MAX_UINT256 ->
  depositAmount a <= balance w ->
  accepts e (landlord a) (depositAmount a - fee) = true ->
  accepts e (platformWallet w) fee = true ->
  this w ∈ minters (rentalReceipt w) ->
  _nextReceiptId (rentalReceipt w) + 1 <= MAX_UINT256 ->
  tenant a <> 0 -> landlord a <> 0 -> 0 < depositAmount a -> startDate a < endDate a ->
  0 < N.of_nat (String.length (metadataHash a)) ->
  exists w', releaseDeposit e id w = Ok (tt, w') /\
    status (agreements w' !!! id) = Completed /\
    sent w' = sent w ++ [(landlord a, depositAmount a - fee); (platformWallet w, fee)].
Proof.
  intros a fee Hval Hst Hwho Hdl Hend Hp Hr Hd5 Ht3 Hsum Hbal Hacc Haccw Hmint Hrid Hten
    Hlan Hdep Hper Hmeta.
  subst a fee.
  assert (Hmul : depositAmount (agreements w !!! id) * platformFeePercent w <= MAX_UINT256)
    by nia.
  assert (Hfee : depositAmount (agreements w !!! id) * platformFeePercent w / 100
                 <= depositAmount (agreements w !!! id)).
  { apply N.Div0.div_le_upper_bound. nia. }
  assert (Hmulr : totalRentPaid (agreements w !!! id) * rentProcessingFeePercent w
                  <= MAX_UINT256) by nia.
  assert (Hfeer : totalRentPaid (agreements w !!! id) * rentProcessingFeePercent w / 100
                  <= totalRentPaid (agreements w !!! id)).
  { apply N.Div0.div_le_upper_bound. nia. }
  set (fee := depositAmount (agreements w !!! id) * platformFeePercent w / 100) in *.
  set (rfee := totalRentPaid (agreements w !!! id) * rentProcessingFeePercent w / 100) in *.
  eexists. split; [|split].
  - unfold releaseDeposit, _emitFeeBreakdown, nonpayable, agreement, mintReceipt, onlyMinter,
      recordReceipt.
    run.
  - simp_w. rewrite lookup_total_insert_eq. reflexivity.
  - simp_w. rewrite <- app_assoc. reflexivity.
Qed.

(** C1 (the contract departs from it). Agreement 1 is Completed by a first
    [releaseDeposit], which pays 980 to the landlord and 20 to the platform.
    A second [releaseDeposit] on it is not stopped by the status check: it
    succeeds, leaves the status at Completed and pays the same 980 and 20
    again, out of the deposit locked for agreement 2. *)
Theorem releaseDeposit_pays_again :
  status (agreements Scenario.w_released !!! 1) = Completed /\
  sent Scenario.w_released = [(Scenario.larry, 980); (Scenario.wallet, 20)] /\
  balance Scenario.w_released = 1000 /\
  releaseDeposit (Scenario.call Scenario.larry 0 Scenario.afterLease) 1 Scenario.w_released
    = Ok (tt, Scenario.w_released_again) /\
  status (agreements Scenario.w_released_again !!! 1) = Completed /\
  sent Scenario.w_released_again =
    [(Scenario.larry, 980); (Scenario.wallet, 20); (Scenario.larry, 980); (Scenario.wallet, 20)] /\
  balance Scenario.w_released_again = 0 /\
  depositAmount (agreements Scenario.w_released_again !!! 2) = 1000.
Proof. repeat (split; [vm_compute; reflexivity|]). vm_compute. reflexivity. Qed.

(** * Parameters, pause and ownership *)

Lemma deploy_paramsInRange pv rr (deployer self wallet : address) :
  paramsInRange (deploy pv rr deployer self wallet).
Proof. unfold paramsInRange, deploy, days. simpl. lia. Qed.

Lemma step_paramsInRange (w w' : World) (e : Env) (op : Op) :
  step w e op w' -> paramsInRange w -> paramsInRange w'.
Proof.
  unfold step, paramsInRange. intros H Hin.
  by_operation H; tauto.
Qed.

(** X1. The fee percentages and the two periods stay within the bounds of
    their update functions: they are within them at deployment and no
    sequence of successful transactions takes them out (platform fee at most
    5, rent processing fee at most 3, dispute period between 1 and 30 days,
    grace period between 1 and 7 days). *)
Theorem parameters_stay_in_range (w w' : World) :
  (forall pv rr deployer self wallet, paramsInRange (deploy pv rr deployer self wallet)) /\
  (paramsInRange w -> reaches w w' -> paramsInRange w').
Proof.
  split; [exact deploy_paramsInRange|].
  intros Hin Hreach. induction Hreach as [w|w e op w1 w2 Hstep _ IH]; [exact Hin|].
  apply IH. exact (step_paramsInRange _ _ _ _ Hstep Hin).
Qed.

Lemma parameters_stay_in_range_witness :
  paramsInRange Scenario.genesis /\ paramsInRange Scenario.w_created.
Proof.
  destruct (parameters_stay_in_range Scenario.genesis Scenario.w_created) as [Hdeploy Hkept].
  assert (H0 : paramsInRange Scenario.genesis) by apply Hdeploy.
  split; [exact H0|].
  apply (Hkept H0).
  apply (reaches_step _ (Scenario.call Scenario.alice 1000 10) Scenario.lease
           Scenario.w_created _); [|apply reaches_refl].
  vm_compute. reflexivity.
Defined.

Lemma totalSent_snoc (l : list (address * N)) (r : address) (amt : N) :
  totalSent (l ++ [(r, amt)]) = totalSent l + amt.
Proof.
  unfold totalSent. induction l as [|p l IH]; simpl; [lia|].
  rewrite IH. lia.
Qed.

(** X2. Ether is conserved by every successful transaction: what the
    contract holds afterwards plus everything it has ever sent out equals what
    it held before plus everything sent out before plus the [msg.value] of the
    call. *)
Theorem balance_conserved (w w' : World) (e : Env) (op : Op) :
  step w e op w' ->
  balance w' + totalSent (sent w') = balance w + totalSent (sent w) + msg_value e.
Proof.
  unfold step. intros H.
  by_operation H; rewrite ?totalSent_snoc; lia.
Qed.

Lemma balance_conserved_witness :
  balance Scenario.w_paid + totalSent (sent Scenario.w_paid)
  = balance Scenario.w_active + totalSent (sent Scenario.w_active) + 150.
Proof.
  apply (balance_conserved Scenario.w_active Scenario.w_paid
           (Scenario.call Scenario.alice 150 50) (PayRent 1 "june")).
  vm_compute. reflexivity.
Defined.

Lemma step_paused (w w' : World) (e : Env) (op : Op) :
  step w e op w' -> paused w = true -> paused w' = true.
Proof.
  unfold step. intros H Hp.
  by_operation H; first [exact Hp | reflexivity | congruence].
Qed.

Lemma reaches_paused (w w' : World) :
  reaches w w' -> paused w = true -> paused w' = true.
Proof.
  induction 1 as [w|w e op w1 w2 Hstep _ IH]; intros Hp; [exact Hp|].
  apply IH. exact (step_paused _ _ _ _ Hstep Hp).
Qed.

Lemma whenNotPaused_blocks (w : World) :
  paused w = true -> whenNotPaused w = Revert "EnforcedPause".
Proof. unfold whenNotPaused, bind, gets. intros ->. reflexivity. Qed.

(** X3. Pausing cannot be undone: once [paused] is set it stays set through
    every later transaction, and from then on [createAgreement] and [payRent]
    revert with [EnforcedPause] whatever their arguments. *)
Theorem pause_is_permanent (w w' : World) :
  paused w = true -> reaches w w' ->
  paused w' = true /\
  (forall e p l r i s d h, createAgreement e p l r i s d h w' = Revert "EnforcedPause") /\
  (forall e id h, payRent e id h w' = Revert "EnforcedPause").
Proof.
  intros Hp Hreach. pose proof (reaches_paused _ _ Hreach Hp) as Hp'.
  split; [exact Hp'|]. split.
  - intros. unfold createAgreement, payable, bind, modify.
    rewrite whenNotPaused_blocks; [reflexivity|exact Hp'].
  - intros. unfold payRent, payable, bind, modify.
    rewrite whenNotPaused_blocks; [reflexivity|exact Hp'].
Qed.

Lemma pause_is_permanent_witness :
  paused Cases.w_paused = true /\
  payRent (Scenario.call Scenario.alice 100 50) 1 "june" Cases.w_paused
  = Revert "EnforcedPause".
Proof.
  assert (Hp : paused Cases.w_paused = true) by (vm_compute; reflexivity).
  split; [exact Hp|].
  destruct (pause_is_permanent Cases.w_paused Cases.w_paused Hp (reaches_refl _))
    as (_ & _ & Hpay).
  apply Hpay.
Defined.

(** X4. Only the owner changes the configuration: a successful transaction
    sent by anyone else is none of the [onlyOwner] functions and leaves the
    fee percentages, the periods, the pause flag, the owner and the subsidy
    flags as they were.  The platform wallet is changed by nobody. *)
Theorem configuration_is_owner_only (w w' : World) (e : Env) (op : Op) :
  step w e op w' ->
  platformWallet w' = platformWallet w /\
  (msg_sender e <> owner w ->
   adminOnly op = false /\
   platformFeePercent w' = platformFeePercent w /\
   rentProcessingFeePercent w' = rentProcessingFeePercent w /\
   disputePeriod w' = disputePeriod w /\
   defaultGracePeriod w' = defaultGracePeriod w /\
   paused w' = paused w /\
   owner w' = owner w /\
   isGasSubsidized w' = isGasSubsidized w).
Proof.
  unfold step. intros H.
  by_operation H; (split; [reflexivity|]); intros Hno;
    first [congruence | simpl; repeat split; reflexivity].
Qed.

Lemma configuration_is_owner_only_witness :
  platformWallet Scenario.w_paid = Scenario.wallet /\
  platformFeePercent Scenario.w_paid = 2.
Proof.
  destruct (configuration_is_owner_only Scenario.w_active Scenario.w_paid
              (Scenario.call Scenario.alice 150 50) (PayRent 1 "june"))
    as (Hw & Hcfg).
  { vm_compute. reflexivity. }
  destruct Hcfg as (_ & Hfee & _).
  { vm_compute. discriminate. }
  split; [rewrite Hw | rewrite Hfee]; vm_compute; reflexivity.
Defined.

(** * Creation and confirmation *)

Lemma createAgreement_effect (e : Env) (p : uint256) (l : address) (r i s d : uint256)
    (h : string) (w w' : World) (id : uint256) :
  createAgreement e p l r i s d h w = Ok (id, w') ->
  id = _nextAgreementId w /\
  _nextAgreementId w' = id + 1 /\
  paused w = false /\
  0 < msg_value e /\ 0 < r /\ (1 * days <= i /\ i <= 365 * days) /\
  isPropertyVerified (propertyVerification w) p = true /\
  l = getPropertyOwner (propertyVerification w) p /\
  l <> msg_sender e /\ s < d /\ block_timestamp e <= s /\
  agreements w' =
    <[id := {| agreementId := id; propertyId := p; tenant := msg_sender e; landlord := l;
               depositAmount := msg_value e; monthlyRent := r; rentInterval := i;
               startDate := s; endDate := d; createdAt := block_timestamp e;
               status := Pending; metadataHash := h; tenantConfirmed := false;
               landlordConfirmed := false; disputeDeadline := 0;
               nextRentDueDate := s + i; overdueGracePeriod := defaultGracePeriod w;
               totalRentPaid := 0 |}]> (agreements w) /\
  tenantAgreements w' =
    <[msg_sender e := (tenantAgreements w !!! msg_sender e) ++ [id]]> (tenantAgreements w) /\
  landlordAgreements w' =
    <[l := (landlordAgreements w !!! l) ++ [id]]> (landlordAgreements w) /\
  balance w' = balance w + msg_value e /\
  sent w' = sent w /\
  disputes w' = disputes w /\ rentPayments w' = rentPayments w.
Proof.
  intros H. unfold createAgreement in H. inv_tx.
  repeat (split; [first [assumption | reflexivity]|]). reflexivity.
Qed.

(** X5. A successful [createAgreement] returns the next free id and advances
    the counter by one.  It stores under that id a Pending, unconfirmed
    agreement whose tenant is the caller, whose deposit is [msg.value] and
    whose first rent is due one interval after [startDate]; the agreement has
    distinct parties, positive deposit and rent, an interval between 1 and
    365 days and a lease period that has not begun and ends after it starts.
    The id is appended to the lists of tenant and landlord, every other
    agreement is left as it was and no ether leaves the contract. *)
Theorem createAgreement_spec (e : Env) (p : uint256) (l : address) (r i s d : uint256)
    (h : string) (w w' : World) (id : uint256) :
  createAgreement e p l r i s d h w = Ok (id, w') ->
  let a := agreements w' !!! id in
  id = _nextAgreementId w /\ _nextAgreementId w' = id + 1 /\
  status a = Pending /\ tenantConfirmed a = false /\ landlordConfirmed a = false /\
  tenant a = msg_sender e /\ landlord a = l /\ tenant a <> landlord a /\
  landlord a = getPropertyOwner (propertyVerification w) p /\
  depositAmount a = msg_value e /\ 0 < depositAmount a /\
  monthlyRent a = r /\ 0 < monthlyRent a /\
  rentInterval a = i /\ 1 * days <= rentInterval a /\ rentInterval a <= 365 * days /\
  startDate a = s /\ endDate a = d /\ block_timestamp e <= startDate a /\
  startDate a < endDate a /\
  nextRentDueDate a = startDate a + rentInterval a /\
  totalRentPaid a = 0 /\ metadataHash a = h /\
  overdueGracePeriod a = defaultGracePeriod w /\
  tenantAgreements w' !!! msg_sender e = (tenantAgreements w !!! msg_sender e) ++ [id] /\
  landlordAgreements w' !!! l = (landlordAgreements w !!! l) ++ [id] /\
  (forall id', id' <> id -> agreements w' !!! id' = agreements w !!! id') /\
  sent w' = sent w.
Proof.
  intros H a.
  destruct (createAgreement_effect _ _ _ _ _ _ _ _ _ _ _ H)
    as (Hid & Hnext & _ & Hdep & Hrent & [Hi1 Hi2] & _ & Hl & Hne & Hper & Hfut &
        Hag & Hta & Hla & _ & Hsent & _).
  subst a. rewrite Hag, Hta, Hla, !lookup_total_insert_eq. simpl.
  repeat (split; [first [assumption | reflexivity | congruence]|]).
  split; [|exact Hsent].
  intros id' Hne'. apply lookup_total_insert_ne. congruence.
Qed.

Lemma createAgreement_spec_witness :
  createAgreement (Scenario.call Scenario.alice 1000 10) 1 Scenario.larry 100 (30 * days)
    Scenario.leaseStart Scenario.leaseEnd "terms" Scenario.genesis
  = Ok (1, Scenario.w_created) /\
  status (agreements Scenario.w_created !!! 1) = Pending /\
  tenantAgreements Scenario.w_created !!! Scenario.alice = [1].
Proof.
  assert (H : createAgreement (Scenario.call Scenario.alice 1000 10) 1 Scenario.larry 100
                (30 * days) Scenario.leaseStart Scenario.leaseEnd "terms" Scenario.genesis
              = Ok (1, Scenario.w_created)) by (vm_compute; reflexivity).
  split; [exact H|].
  destruct (createAgreement_spec _ _ _ _ _ _ _ _ _ _ _ H)
    as (_ & _ & Hst & _ & _ & _ & _ & _ & _ & _ & _ & _ & _ & _ & _ & _ & _ & _ & _ & _ &
        _ & _ & _ & _ & Hta & _).
  split; [exact Hst|].
  etransitivity; [exact Hta|]. vm_compute. reflexivity.
Defined.

Lemma step_sameTerms (w w' : World) (e : Env) (op : Op) (id : uint256) :
  step w e op w' -> created w id ->
  sameTerms (agreements w !!! id) (agreements w' !!! id).
Proof.
  unfold step, created, sameTerms. intros H Hid.
  by_operation H; simpl; lookup_cases; simp_w; repeat split; reflexivity.
Qed.

Lemma reaches_sameTerms (w w' : World) (id : uint256) :
  created w id -> reaches w w' ->
  sameTerms (agreements w !!! id) (agreements w' !!! id).
Proof.
  intros Hid Hreach. revert Hid.
  induction Hreach as [w|w e op w1 w2 Hstep _ IH]; intros Hid.
  - unfold sameTerms. repeat split; reflexivity.
  - pose proof (step_sameTerms _ _ _ _ id Hstep Hid) as H1.
    specialize (IH (step_created _ _ _ _ _ Hstep Hid)).
    unfold sameTerms in *. intuition congruence.
Qed.

(** X6. The terms of an agreement are fixed at creation: parties, property,
    deposit, rent, interval, dates, metadata hash and grace period of an
    agreement whose id has been handed out are the same after any sequence of
    successful transactions. *)
Theorem terms_are_immutable (w w' : World) (id : uint256) :
  created w id -> reaches w w' ->
  sameTerms (agreements w !!! id) (agreements w' !!! id).
Proof. exact (reaches_sameTerms w w' id). Qed.

Lemma terms_are_immutable_witness :
  created Scenario.w_active 1 /\
  depositAmount (agreements Scenario.w_paid !!! 1)
  = depositAmount (agreements Scenario.w_active !!! 1).
Proof.
  assert (Hid : created Scenario.w_active 1) by (vm_compute; reflexivity).
  split; [exact Hid|].
  assert (Hreach : reaches Scenario.w_active Scenario.w_paid).
  { apply (reaches_step _ (Scenario.call Scenario.alice 150 50) (PayRent 1 "june")
             Scenario.w_paid _); [|apply reaches_refl].
    vm_compute. reflexivity. }
  destruct (terms_are_immutable _ _ _ Hid Hreach) as (_ & _ & _ & _ & Hdep & _).
  exact Hdep.
Defined.

Lemma tenantConfirm_effect (e : Env) (id : uint256) (w w' : World) (u : unit) :
  tenantConfirm e id w = Ok (u, w') ->
  let a := agreements w !!! id in
  msg_value e = 0 /\ tenant a = msg_sender e /\ status a = Pending /\
  tenantConfirmed a = false /\
  agreements w' =
    <[id := if landlordConfirmed a
            then set_disputeDeadline (block_timestamp e + disputePeriod w)
                   (set_status Active (set_tenantConfirmed true a))
            else set_tenantConfirmed true a]> (agreements w) /\
  sent w' = sent w /\ balance w' = balance w /\ _nextAgreementId w' = _nextAgreementId w.
Proof.
  intros H. cbv zeta. unfold tenantConfirm, _activateAgreement in H. inv_tx.
  all: rewrite ?lookup_total_insert_eq, ?insert_insert_eq.
  all: repeat (split; [first [assumption | reflexivity]|]); reflexivity.
Qed.

Lemma landlordConfirm_effect (e : Env) (id : uint256) (w w' : World) (u : unit) :
  landlordConfirm e id w = Ok (u, w') ->
  let a := agreements w !!! id in
  msg_value e = 0 /\ landlord a = msg_sender e /\ status a = Pending /\
  landlordConfirmed a = false /\
  agreements w' =
    <[id := if tenantConfirmed a
            then set_disputeDeadline (block_timestamp e + disputePeriod w)
                   (set_status Active (set_landlordConfirmed true a))
            else set_landlordConfirmed true a]> (agreements w) /\
  sent w' = sent w /\ balance w' = balance w /\ _nextAgreementId w' = _nextAgreementId w.
Proof.
  intros H. cbv zeta. unfold landlordConfirm, _activateAgreement in H. inv_tx.
  all: rewrite ?lookup_total_insert_eq, ?insert_insert_eq.
  all: repeat (split; [first [assumption | reflexivity]|]); reflexivity.
Qed.

(** X7. A confirmation by the tenant (respectively the landlord) is accepted
    only from that party, on a Pending agreement it has not confirmed yet.
    It sets the party's flag and moves no ether; if the other party has
    confirmed already the agreement becomes Active with
    [disputeDeadline = block.timestamp + disputePeriod], otherwise it stays
    Pending with its deadline untouched. *)
Theorem confirmations_activate (e : Env) (id : uint256) (w : World) :
  let a := agreements w !!! id in
  (forall u w', tenantConfirm e id w = Ok (u, w') ->
     let a' := agreements w' !!! id in
     tenant a = msg_sender e /\ status a = Pending /\ tenantConfirmed a = false /\
     tenantConfirmed a' = true /\ landlordConfirmed a' = landlordConfirmed a /\
     (landlordConfirmed a = true ->
        status a' = Active /\ disputeDeadline a' = block_timestamp e + disputePeriod w) /\
     (landlordConfirmed a = false ->
        status a' = Pending /\ disputeDeadline a' = disputeDeadline a) /\
     sent w' = sent w /\ balance w' = balance w) /\
  (forall u w', landlordConfirm e id w = Ok (u, w') ->
     let a' := agreements w' !!! id in
     landlord a = msg_sender e /\ status a = Pending /\ landlordConfirmed a = false /\
     landlordConfirmed a' = true /\ tenantConfirmed a' = tenantConfirmed a /\
     (tenantConfirmed a = true ->
        status a' = Active /\ disputeDeadline a' = block_timestamp e + disputePeriod w) /\
     (tenantConfirmed a = false ->
        status a' = Pending /\ disputeDeadline a' = disputeDeadline a) /\
     sent w' = sent w /\ balance w' = balance w).
Proof.
  cbv zeta. split; intros u w' H.
  - destruct (tenantConfirm_effect _ _ _ _ _ H)
      as (_ & Hwho & Hst & Hflag & Hag & Hsent & Hbal & _).
    rewrite Hag, lookup_total_insert_eq.
    destruct (landlordConfirmed (agreements w !!! id)) eqn:Hother; simpl;
      rewrite ?Hother; repeat split; first [assumption | reflexivity | discriminate].
  - destruct (landlordConfirm_effect _ _ _ _ _ H)
      as (_ & Hwho & Hst & Hflag & Hag & Hsent & Hbal & _).
    rewrite Hag, lookup_total_insert_eq.
    destruct (tenantConfirmed (agreements w !!! id)) eqn:Hother; simpl;
      rewrite ?Hother; repeat split; first [assumption | reflexivity | discriminate].
Qed.

Lemma confirmations_activate_witness :
  status (agreements Scenario.w_half !!! 1) = Pending /\
  status (agreements Scenario.w_active !!! 1) = Active /\
  disputeDeadline (agreements Scenario.w_active !!! 1) = 40 + 7 * days.
Proof.
  destruct (confirmations_activate (Scenario.call Scenario.alice 0 30) 1 Scenario.w_two)
    as [Hten _].
  destruct (confirmations_activate (Scenario.call Scenario.larry 0 40) 1 Scenario.w_half)
    as [_ Hlan].
  destruct (Hten tt Scenario.w_half) as (_ & _ & _ & _ & _ & _ & Hstay & _).
  { vm_compute. reflexivity. }
  destruct (Hlan tt Scenario.w_active) as (_ & _ & _ & _ & _ & Hact & _).
  { vm_compute. reflexivity. }
  destruct Hstay as [Hp _]; [vm_compute; reflexivity|].
  destruct Hact as [Ha Hd]; [vm_compute; reflexivity|].
  split; [exact Hp|]. split; [exact Ha|].
  etransitivity; [exact Hd|]. vm_compute. reflexivity.
Defined.

Lemma step_confirmed (w w' : World) (e : Env) (op : Op) (id : uint256) :
  step w e op w' -> created w id ->
  (tenantConfirmed (agreements w !!! id) = true ->
   tenantConfirmed (agreements w' !!! id) = true) /\
  (landlordConfirmed (agreements w !!! id) = true ->
   landlordConfirmed (agreements w' !!! id) = true).
Proof.
  unfold step, created. intros H Hid.
  by_operation H; simpl; lookup_cases; simp_w; split; intros; first [assumption | reflexivity].
Qed.

Lemma reaches_confirmed (w w' : World) (id : uint256) :
  reaches w w' -> created w id ->
  (tenantConfirmed (agreements w !!! id) = true ->
   tenantConfirmed (agreements w' !!! id) = true) /\
  (landlordConfirmed (agreements w !!! id) = true ->
   landlordConfirmed (agreements w' !!! id) = true).
Proof.
  induction 1 as [w|w e op w1 w2 Hstep _ IH]; intros Hid; [auto|].
  destruct (step_confirmed _ _ _ _ id Hstep Hid) as [Ht Hl].
  destruct (IH (step_created _ _ _ _ _ Hstep Hid)) as [Ht' Hl'].
  auto.
Qed.

Lemma tenantConfirm_needs_unconfirmed (e : Env) (id : uint256) (w : World) :
  tenantConfirmed (agreements w !!! id) = true ->
  exists why, tenantConfirm e id w = Revert why.
Proof.
  intros Hc. destruct (tenantConfirm e id w) as [[u w']|why] eqn:H; [|eauto].
  apply tenantConfirm_effect in H. destruct H as (_ & _ & _ & H & _). congruence.
Qed.

Lemma landlordConfirm_needs_unconfirmed (e : Env) (id : uint256) (w : World) :
  landlordConfirmed (agreements w !!! id) = true ->
  exists why, landlordConfirm e id w = Revert why.
Proof.
  intros Hc. destruct (landlordConfirm e id w) as [[u w']|why] eqn:H; [|eauto].
  apply landlordConfirm_effect in H. destruct H as (_ & _ & _ & H & _). congruence.
Qed.

Lemma bind_step {A B : Type} (m : M A) (k : A -> M B) (w w1 : World) (a : A) :
  m w = Ok (a, w1) -> bind m k w = k a w1.
Proof. unfold bind. intros ->. reflexivity. Qed.

(** Running a transaction forwards up to the guard that rejects it. *)
Ltac run_to_revert :=
  repeat (simp_w; rewrite ?lookup_total_insert_eq; simp_w; cbv beta;
          lazymatch goal with
          | |- bind _ _ _ = Revert _ =>
              first [ apply bind_Revert; apply require_not;
                      solve [first [discriminate | congruence | lia | tauto]]
                    | erewrite bind_step; [|run_prim] ]
          end).

(** X8. Each party confirms at most once: after a successful [tenantConfirm]
    the tenant's immediate retry reverts with "Already confirmed" while the
    agreement is still Pending and with "Agreement not pending" once it is
    Active, and for an agreement whose id has been handed out every later
    [tenantConfirm] reverts, whoever sends it and whatever happened in
    between.  The same holds for [landlordConfirm]. *)
Theorem confirmation_only_once (e : Env) (id : uint256) (w w' : World) (u : unit) :
  (tenantConfirm e id w = Ok (u, w') ->
     tenantConfirm e id w' =
       Revert (if landlordConfirmed (agreements w !!! id)
               then "Agreement not pending" else "Already confirmed") /\
     (created w id -> forall w2 e2, reaches w' w2 ->
        exists why, tenantConfirm e2 id w2 = Revert why)) /\
  (landlordConfirm e id w = Ok (u, w') ->
     landlordConfirm e id w' =
       Revert (if tenantConfirmed (agreements w !!! id)
               then "Agreement not pending" else "Already confirmed") /\
     (created w id -> forall w2 e2, reaches w' w2 ->
        exists why, landlordConfirm e2 id w2 = Revert why)).
Proof.
  split; intros H.
  - destruct (tenantConfirm_effect _ _ _ _ _ H)
      as (Hval & Hwho & Hst & Hflag & Hag & _ & _ & Hnext).
    cbv zeta in Hag.
    assert (Hnow : agreements w' !!! id =
                   if landlordConfirmed (agreements w !!! id)
                   then set_disputeDeadline (block_timestamp e + disputePeriod w)
                          (set_status Active (set_tenantConfirmed true (agreements w !!! id)))
                   else set_tenantConfirmed true (agreements w !!! id))
      by (rewrite Hag; apply lookup_total_insert_eq).
    split.
    + unfold tenantConfirm, nonpayable, agreement, gets at 1.
      erewrite bind_step; [|run_prim]. erewrite bind_step; [|reflexivity].
      cbv beta. rewrite Hnow.
      destruct (landlordConfirmed (agreements w !!! id)); run_to_revert.
    + intros Hid w2 e2 Hreach. apply tenantConfirm_needs_unconfirmed.
      assert (Hid' : created w' id) by (unfold created in *; rewrite Hnext; exact Hid).
      apply (reaches_confirmed _ _ _ Hreach Hid').
      rewrite Hnow. destruct (landlordConfirmed (agreements w !!! id)); reflexivity.
  - destruct (landlordConfirm_effect _ _ _ _ _ H)
      as (Hval & Hwho & Hst & Hflag & Hag & _ & _ & Hnext).
    cbv zeta in Hag.
    assert (Hnow : agreements w' !!! id =
                   if tenantConfirmed (agreements w !!! id)
                   then set_disputeDeadline (block_timestamp e + disputePeriod w)
                          (set_status Active (set_landlordConfirmed true (agreements w !!! id)))
                   else set_landlordConfirmed true (agreements w !!! id))
      by (rewrite Hag; apply lookup_total_insert_eq).
    split.
    + unfold landlordConfirm, nonpayable, agreement, gets at 1.
      erewrite bind_step; [|run_prim]. erewrite bind_step; [|reflexivity].
      cbv beta. rewrite Hnow.
      destruct (tenantConfirmed (agreements w !!! id)); run_to_revert.
    + intros Hid w2 e2 Hreach. apply landlordConfirm_needs_unconfirmed.
      assert (Hid' : created w' id) by (unfold created in *; rewrite Hnext; exact Hid).
      apply (reaches_confirmed _ _ _ Hreach Hid').
      rewrite Hnow. destruct (tenantConfirmed (agreements w !!! id)); reflexivity.
Qed.

Lemma confirmation_only_once_witness :
  tenantConfirm (Scenario.call Scenario.alice 0 30) 1 Scenario.w_half
  = Revert "Already confirmed".
Proof.
  destruct (confirmation_only_once (Scenario.call Scenario.alice 0 30) 1
              Scenario.w_two Scenario.w_half tt) as [Hten _].
  destruct Hten as [Hretry _]; [vm_compute; reflexivity|].
  etransitivity; [exact Hretry|]. vm_compute. reflexivity.
Defined.

(** * Invariants of the agreement and dispute tables *)

Lemma step_activeConfirmed (w w' : World) (e : Env) (op : Op) :
  step w e op w' -> activeConfirmed w -> activeConfirmed w'.
Proof.
  unfold step, activeConfirmed. intros H Hinv id.
  by_operation H; simpl; lookup_cases; simp_w; intros Hact;
    first [ discriminate Hact
          | exact (Hinv _ Hact)
          | congruence
          | split; first [reflexivity | assumption] ].
Qed.

Lemma step_disputesOpen (w w' : World) (e : Env) (op : Op) :
  step w e op w' -> disputesOpen w -> disputesOpen w'.
Proof.
  unfold step, disputesOpen. intros H Hinv id.
  by_operation H; simpl; lookup_cases; simp_w; intros Hdis;
    first [ discriminate Hdis
          | exact (Hinv _ Hdis)
          | congruence
          | reflexivity
          | assumption ].
Qed.

(** X9. In every state the contract can be in, an Active agreement has been
    confirmed by both its tenant and its landlord: the property holds at
    deployment and is kept by every successful transaction. *)
Theorem active_agreements_are_confirmed (w w' : World) :
  (forall pv rr deployer self wallet,
     activeConfirmed (deploy pv rr deployer self wallet)) /\
  (activeConfirmed w -> reaches w w' -> activeConfirmed w').
Proof.
  split.
  - intros pv rr deployer self wallet id. unfold deploy. simpl.
    rewrite lookup_total_empty. discriminate.
  - intros Hinv Hreach. induction Hreach as [w|w e op w1 w2 Hstep _ IH]; [exact Hinv|].
    apply IH. exact (step_activeConfirmed _ _ _ _ Hstep Hinv).
Qed.

(** X10. In every state the contract can be in, the dispute of a Disputed
    agreement is unresolved, so that [resolveDispute] is never turned down
    for being resolved already: the property holds at deployment and is kept
    by every successful transaction. *)
Theorem disputed_agreements_are_unresolved (w w' : World) :
  (forall pv rr deployer self wallet,
     disputesOpen (deploy pv rr deployer self wallet)) /\
  (disputesOpen w -> reaches w w' -> disputesOpen w').
Proof.
  split.
  - intros pv rr deployer self wallet id. unfold deploy. simpl.
    rewrite lookup_total_empty. discriminate.
  - intros Hinv Hreach. induction Hreach as [w|w e op w1 w2 Hstep _ IH]; [exact Hinv|].
    apply IH. exact (step_disputesOpen _ _ _ _ Hstep Hinv).
Qed.

(** The history of the concrete deployment up to the activation of
    agreement 1 and to the dispute raised on it. *)
Lemma reaches_w_active : reaches Scenario.genesis Scenario.w_active.
Proof.
  apply (reaches_step _ (Scenario.call Scenario.alice 1000 10) Scenario.lease
           Scenario.w_created _); [vm_compute; reflexivity|].
  apply (reaches_step _ (Scenario.call Scenario.bob 1000 20) Scenario.lease
           Scenario.w_two _); [vm_compute; reflexivity|].
  apply (reaches_step _ (Scenario.call Scenario.alice 0 30) (TenantConfirm 1)
           Scenario.w_half _); [vm_compute; reflexivity|].
  apply (reaches_step _ (Scenario.call Scenario.larry 0 40) (LandlordConfirm 1)
           Scenario.w_active _); [vm_compute; reflexivity|].
  apply reaches_refl.
Qed.

Lemma reaches_trans (w1 w2 w3 : World) : reaches w1 w2 -> reaches w2 w3 -> reaches w1 w3.
Proof.
  induction 1 as [w|w e op wa wb Hstep _ IH]; intros H; [exact H|].
  exact (reaches_step _ _ _ _ _ Hstep (IH H)).
Qed.

Lemma reaches_w_disputed : reaches Scenario.genesis Scenario.w_disputed.
Proof.
  apply (reaches_trans _ _ _ reaches_w_active).
  apply (reaches_step _ (Scenario.call Scenario.alice 0 100)
           (RaiseDispute 1 "broken heating" "photo") Scenario.w_disputed _);
    [vm_compute; reflexivity|].
  apply reaches_refl.
Qed.

Lemma active_agreements_are_confirmed_witness :
  status (agreements Scenario.w_active !!! 1) = Active /\
  tenantConfirmed (agreements Scenario.w_active !!! 1) = true /\
  landlordConfirmed (agreements Scenario.w_active !!! 1) = true.
Proof.
  assert (Hst : status (agreements Scenario.w_active !!! 1) = Active)
    by (vm_compute; reflexivity).
  split; [exact Hst|].
  destruct (active_agreements_are_confirmed Scenario.genesis Scenario.w_active)
    as [Hdeploy Hkeep].
  exact (Hkeep (Hdeploy _ _ _ _ _) reaches_w_active 1 Hst).
Defined.

Lemma disputed_agreements_are_unresolved_witness :
  status (agreements Scenario.w_disputed !!! 1) = Disputed /\
  resolved (disputes Scenario.w_disputed !!! 1) = false.
Proof.
  assert (Hst : status (agreements Scenario.w_disputed !!! 1) = Disputed)
    by (vm_compute; reflexivity).
  split; [exact Hst|].
  destruct (disputed_agreements_are_unresolved Scenario.genesis Scenario.w_disputed)
    as [Hdeploy Hkeep].
  exact (Hkeep (Hdeploy _ _ _ _ _) reaches_w_disputed 1 Hst).
Defined.

(** * Cancellation and termination *)

Lemma cancelAgreement_effect (e : Env) (id : uint256) (w w' : World) (u : unit) :
  cancelAgreement e id w = Ok (u, w') ->
  let a := agreements w !!! id in
  status a = Pending /\ msg_sender e = tenant a /\ depositAmount a <= balance w /\
  agreements w' = <[id := set_status Cancelled a]> (agreements w) /\
  sent w' = sent w ++ [(tenant a, depositAmount a)] /\
  balance w' = balance w - depositAmount a /\
  disputes w' = disputes w /\ rentPayments w' = rentPayments w.
Proof.
  intros H. cbv zeta. unfold cancelAgreement in H. inv_tx.
  repeat (split; [first [assumption | reflexivity]|]). reflexivity.
Qed.

(** X11. [cancelAgreement] is open to the tenant while the agreement is
    Pending and to nobody afterwards: a successful call finds the agreement
    Pending, makes it Cancelled and sends the whole deposit, without fee, to
    the tenant; a call on an agreement in any other status reverts with
    "Agreement not pending". *)
Theorem cancelAgreement_spec (e : Env) (id : uint256) (w : World) :
  let a := agreements w !!! id in
  (forall u w', cancelAgreement e id w = Ok (u, w') ->
     status a = Pending /\ msg_sender e = tenant a /\
     status (agreements w' !!! id) = Cancelled /\
     sameTerms a (agreements w' !!! id) /\
     sent w' = sent w ++ [(tenant a, depositAmount a)] /\
     balance w' + depositAmount a = balance w) /\
  (msg_value e = 0 -> status a <> Pending ->
     cancelAgreement e id w = Revert "Agreement not pending").
Proof.
  cbv zeta. split.
  - intros u w' H.
    destruct (cancelAgreement_effect _ _ _ _ _ H) as (Hst & Hwho & Hbal & Hag & Hsent & Hb & _).
    cbv zeta in *. rewrite Hag, lookup_total_insert_eq. unfold sameTerms. simpl.
    repeat (split; [first [assumption | reflexivity | (repeat split; reflexivity)]|]). lia.
  - intros Hval Hst. unfold cancelAgreement, nonpayable, agreement. run_to_revert.
Qed.

Lemma cancelAgreement_spec_witness :
  status (agreements Cases.w_cancelled !!! 2) = Cancelled /\
  sent Cases.w_cancelled = [(Scenario.bob, 1000)] /\
  cancelAgreement (Scenario.call Scenario.alice 0 50) 1 Scenario.w_active
  = Revert "Agreement not pending".
Proof.
  destruct (cancelAgreement_spec (Scenario.call Scenario.bob 0 50) 2 Scenario.w_active)
    as [Hok _].
  destruct (cancelAgreement_spec (Scenario.call Scenario.alice 0 50) 1 Scenario.w_active)
    as [_ Hno].
  destruct (Hok tt Cases.w_cancelled) as (_ & _ & Hst & _ & Hsent & _).
  { vm_compute. reflexivity. }
  split; [exact Hst|]. split.
  - etransitivity; [exact Hsent|]. vm_compute. reflexivity.
  - apply Hno; [vm_compute; reflexivity | vm_compute; discriminate].
Defined.

(** X12. Creating an agreement and cancelling it right away is a round trip
    for the money, as long as the tenant takes the refund: the tenant's
    [cancelAgreement] on the id just returned then succeeds, sends back
    exactly the [msg.value] that was locked and leaves the contract balance
    where it was before the agreement was created.  A tenant whose address
    refuses the refund cannot cancel: the call reverts. *)
Theorem create_then_cancel (e e2 : Env) (p : uint256) (l : address) (r i s d : uint256)
    (h : string) (w w1 : World) (id : uint256) :
  createAgreement e p l r i s d h w = Ok (id, w1) ->
  msg_sender e2 = msg_sender e -> msg_value e2 = 0 ->
  (accepts e2 (msg_sender e) (msg_value e) = true ->
   exists w2,
     cancelAgreement e2 id w1 = Ok (tt, w2) /\
     status (agreements w2 !!! id) = Cancelled /\
     sent w2 = sent w ++ [(msg_sender e, msg_value e)] /\
     balance w2 = balance w) /\
  (accepts e2 (msg_sender e) (msg_value e) = false ->
   exists why, cancelAgreement e2 id w1 = Revert why).
Proof.
  intros H Hwho Hval.
  destruct (createAgreement_effect _ _ _ _ _ _ _ _ _ _ _ H)
    as (_ & _ & _ & _ & _ & _ & _ & _ & _ & _ & _ & Hag & _ & _ & Hbal & Hsent & _).
  assert (Hnow : agreements w1 !!! id =
    {| agreementId := id; propertyId := p; tenant := msg_sender e; landlord := l;
       depositAmount := msg_value e; monthlyRent := r; rentInterval := i;
       startDate := s; endDate := d; createdAt := block_timestamp e;
       status := Pending; metadataHash := h; tenantConfirmed := false;
       landlordConfirmed := false; disputeDeadline := 0;
       nextRentDueDate := s + i; overdueGracePeriod := defaultGracePeriod w;
       totalRentPaid := 0 |}) by (rewrite Hag; apply lookup_total_insert_eq).
  split.
  - intros Hacc. eexists. split; [|split; [|split]].
    + unfold cancelAgreement, nonpayable, agreement, gets at 1.
      eapply bind_Ok_intro; [run_prim|].
      eapply bind_Ok_intro; [reflexivity|]. cbv beta. rewrite Hnow.
      assert (Hfunds : msg_value e <= balance w1) by lia.
      run.
    + simp_w. rewrite lookup_total_insert_eq. reflexivity.
    + simp_w. rewrite Hsent. reflexivity.
    + simp_w. lia.
  - intros Hrej.
    destruct (cancelAgreement e2 id w1) as [[u w2]|why] eqn:Hc; [exfalso|eauto].
    clear Hag Hbal Hsent H. unfold cancelAgreement in Hc. inv_tx.
    match goal with
    | Ha : accepts _ _ _ = true |- _ => rewrite Hnow in Ha; simpl in Ha; congruence
    end.
Qed.

Lemma create_then_cancel_witness :
  (exists w2,
     cancelAgreement (Scenario.call Scenario.alice 0 15) 1 Scenario.w_created = Ok (tt, w2) /\
     balance w2 = 0) /\
  (exists why,
     cancelAgreement (Cases.refusedCall Scenario.alice 0 15) 1 Scenario.w_created
     = Revert why).
Proof.
  split.
  - destruct (create_then_cancel (Scenario.call Scenario.alice 1000 10)
                (Scenario.call Scenario.alice 0 15) 1 Scenario.larry 100 (30 * days)
                Scenario.leaseStart Scenario.leaseEnd "terms" Scenario.genesis
                Scenario.w_created 1) as [Hback _].
    1-3: vm_compute; reflexivity.
    destruct Hback as (w2 & Hok & _ & _ & Hbal); [vm_compute; reflexivity|].
    exists w2. split; [exact Hok|]. exact Hbal.
  - destruct (create_then_cancel (Scenario.call Scenario.alice 1000 10)
                (Cases.refusedCall Scenario.alice 0 15) 1 Scenario.larry 100 (30 * days)
                Scenario.leaseStart Scenario.leaseEnd "terms" Scenario.genesis
                Scenario.w_created 1) as [_ Hstuck].
    1-3: vm_compute; reflexivity.
    apply Hstuck. vm_compute. reflexivity.
Defined.

Lemma step_closed_frozen (w w' : World) (e : Env) (op : Op) (id : uint256) :
  step w e op w' -> created w id -> closed (status (agreements w !!! id)) ->
  agreements w' !!! id = agreements w !!! id /\
  disputes w' !!! id = disputes w !!! id /\
  rentPayments w' !!! id = rentPayments w !!! id /\
  target op <> Some id.
Proof.
  unfold step, created, closed. intros H Hid Hcl.
  by_operation H; simpl; repeat split; try discriminate;
    try (intros [= ->]); lookup_cases; try reflexivity;
    exfalso; intuition congruence.
Qed.

Lemma reaches_closed_frozen (w w' : World) (id : uint256) :
  reaches w w' -> created w id -> closed (status (agreements w !!! id)) ->
  agreements w' !!! id = agreements w !!! id /\
  disputes w' !!! id = disputes w !!! id /\
  rentPayments w' !!! id = rentPayments w !!! id.
Proof.
  induction 1 as [w|w e op w1 w2 Hstep _ IH]; intros Hid Hcl; [auto|].
  destruct (step_closed_frozen _ _ _ _ id Hstep Hid Hcl) as (Ha & Hd & Hr & _).
  destruct IH as (Ha' & Hd' & Hr').
  - exact (step_created _ _ _ _ _ Hstep Hid).
  - rewrite Ha. exact Hcl.
  - rewrite Ha', Hd', Hr'. auto.
Qed.

(** X13. Cancelled and Terminated are final: once an agreement whose id has
    been handed out is in one of them, every transaction addressed to it
    reverts, and through any sequence of successful transactions its record,
    its dispute and its rent ledger stay exactly as they are. *)
Theorem closed_agreements_are_frozen (w : World) (id : uint256) :
  created w id -> closed (status (agreements w !!! id)) ->
  (forall e op, target op = Some id -> exists why, exec e op w = Revert why) /\
  (forall w', reaches w w' ->
     agreements w' !!! id = agreements w !!! id /\
     disputes w' !!! id = disputes w !!! id /\
     rentPayments w' !!! id = rentPayments w !!! id /\
     forall e op, target op = Some id -> exists why, exec e op w' = Revert why).
Proof.
  intros Hid Hcl.
  assert (Hrej : forall w0, created w0 id -> closed (status (agreements w0 !!! id)) ->
            forall e op, target op = Some id -> exists why, exec e op w0 = Revert why).
  { intros w0 Hid0 Hcl0 e op Htgt.
    destruct (exec e op w0) as [[[] w1]|why] eqn:H; [|eauto].
    exfalso. destruct (step_closed_frozen _ _ _ _ id H Hid0 Hcl0) as (_ & _ & _ & Hno).
    contradiction. }
  split; [exact (Hrej w Hid Hcl)|].
  intros w' Hreach.
  destruct (reaches_closed_frozen _ _ _ Hreach Hid Hcl) as (Ha & Hd & Hr).
  repeat (split; [assumption|]).
  apply Hrej.
  - clear -Hreach Hid. induction Hreach as [w|w e op w1 w2 Hstep _ IH]; [exact Hid|].
    apply IH. exact (step_created _ _ _ _ _ Hstep Hid).
  - rewrite Ha. exact Hcl.
Qed.

Lemma closed_agreements_are_frozen_witness :
  created Cases.w_cancelled 2 /\
  exists why,
    exec (Scenario.call Scenario.bob 0 70) (RaiseDispute 2 "again" "x") Cases.w_cancelled
    = Revert why.
Proof.
  assert (Hid : created Cases.w_cancelled 2) by (vm_compute; reflexivity).
  split; [exact Hid|].
  destruct (closed_agreements_are_frozen Cases.w_cancelled 2 Hid) as [Hrej _].
  { left. vm_compute. reflexivity. }
  apply Hrej. reflexivity.
Defined.

Lemma terminateAgreement_effect (e : Env) (id refund : uint256) (w w' : World) (u : unit) :
  terminateAgreement e id refund w = Ok (u, w') ->
  let a := agreements w !!! id in
  let remaining := depositAmount a + totalRentPaid a - refund in
  let fee := remaining * platformFeePercent w / 100 in
  owner w = msg_sender e /\
  (status a = Active \/ status a = Disputed) /\
  refund <= depositAmount a + totalRentPaid a /\
  fee <= remaining /\
  agreements w' = <[id := set_status Terminated a]> (agreements w) /\
  sent w' = sent w ++
            (if decide (0 < refund) then [(tenant a, refund)] else []) ++
            (if decide (0 < remaining)
             then [(landlord a, remaining - fee); (platformWallet w, fee)] else []) /\
  balance w' + (depositAmount a + totalRentPaid a) = balance w /\
  disputes w' = disputes w /\ rentPayments w' = rentPayments w.
Proof.
  intros H. cbv zeta. unfold terminateAgreement in H. inv_tx.
  all: repeat match goal with
         | |- context [decide ?P] => destruct (decide P); try contradiction
         end.
  all: try match goal with
         | Hz : ~ 0 < ?x + ?y - ?z |- _ =>
             let Hr := fresh "Hr" in
             assert (Hr : x + y - z = 0) by lia;
             rewrite ?Hr, ?N.mul_0_l, ?N.Div0.div_0_l
         end.
  all: rewrite <- ?app_assoc, ?app_nil_r; simpl.
  all: repeat (split; [first [assumption | reflexivity | (left; assumption)
                              | (right; assumption) | lia]|]);
       try reflexivity.
Qed.

(** X14. A successful [terminateAgreement] comes from the owner on an Active
    or Disputed agreement with a refund of at most
    [depositAmount + totalRentPaid].  It makes the agreement Terminated, sends
    the refund (if any) to the tenant and, of the remainder (if any), the
    platform fee to the platform wallet and the rest to the landlord: in all
    it pays out exactly [depositAmount + totalRentPaid], rent already
    forwarded by [payRent] included. *)
Theorem terminateAgreement_spec (e : Env) (id refund : uint256) (w w' : World) (u : unit) :
  terminateAgreement e id refund w = Ok (u, w') ->
  let a := agreements w !!! id in
  let remaining := depositAmount a + totalRentPaid a - refund in
  let fee := remaining * platformFeePercent w / 100 in
  let out := (if decide (0 < refund) then [(tenant a, refund)] else []) ++
             (if decide (0 < remaining)
              then [(landlord a, remaining - fee); (platformWallet w, fee)] else []) in
  owner w = msg_sender e /\
  (status a = Active \/ status a = Disputed) /\
  refund <= depositAmount a + totalRentPaid a /\
  status (agreements w' !!! id) = Terminated /\
  sent w' = sent w ++ out /\
  totalSent out = depositAmount a + totalRentPaid a /\
  balance w' + (depositAmount a + totalRentPaid a) = balance w.
Proof.
  intros H. cbv zeta.
  destruct (terminateAgreement_effect _ _ _ _ _ _ H)
    as (Hown & Hst & Hle & Hfee & Hag & Hsent & Hbal & _).
  cbv zeta in *.
  split; [exact Hown|]. split; [exact Hst|]. split; [exact Hle|].
  split; [rewrite Hag, lookup_total_insert_eq; reflexivity|].
  split; [exact Hsent|]. split; [|exact Hbal].
  revert Hfee.
  generalize ((depositAmount (agreements w !!! id)
               + totalRentPaid (agreements w !!! id) - refund)
              * platformFeePercent w / 100).
  intros fee Hfee.
  destruct (decide (0 < refund)), (decide (0 < _)); unfold totalSent; simpl; lia.
Qed.

Lemma terminateAgreement_spec_witness :
  terminateAgreement (Scenario.call Scenario.admin 0 60) 1 300 Scenario.w_paid
  = Ok (tt, Cases.w_terminated) /\
  status (agreements Cases.w_terminated !!! 1) = Terminated /\
  sent Cases.w_terminated =
    sent Scenario.w_paid ++ [(Scenario.alice, 300); (Scenario.larry, 833); (Scenario.wallet, 17)].
Proof.
  assert (H : terminateAgreement (Scenario.call Scenario.admin 0 60) 1 300 Scenario.w_paid
              = Ok (tt, Cases.w_terminated)) by (vm_compute; reflexivity).
  split; [exact H|].
  destruct (terminateAgreement_spec _ _ _ _ _ _ H) as (_ & _ & _ & Hst & Hsent & _).
  split; [exact Hst|].
  etransitivity; [exact Hsent|]. vm_compute. reflexivity.
Defined.

(** * Disputes and evidence *)

Lemma raiseDispute_effect (e : Env) (id : uint256) (r h : string) (w w' : World) (u : unit) :
  raiseDispute e id r h w = Ok (u, w') ->
  let a := agreements w !!! id in
  (status a = Active \/ status a = Pending) /\
  (msg_sender e = tenant a \/ msg_sender e = landlord a) /\
  0 < N.of_nat (String.length r) /\
  agreements w' = <[id := set_status Disputed a]> (agreements w) /\
  disputes w' =
    <[id := {| d_agreementId := id; initiator := msg_sender e; reason := r;
               evidenceHashes := [h]; d_createdAt := block_timestamp e;
               resolved := false; winner := 0; isRentDispute := false |}]> (disputes w) /\
  sent w' = sent w /\ balance w' = balance w /\ rentPayments w' = rentPayments w.
Proof.
  intros H. cbv zeta. unfold raiseDispute in H. inv_tx.
  all: repeat (split; [first [assumption | reflexivity | (left; assumption)
                              | (right; assumption)]|]); reflexivity.
Qed.

(** X15. A successful [raiseDispute] comes from the tenant or the landlord
    of an Active or Pending agreement and carries a non-empty reason.  It
    makes the agreement Disputed, replaces whatever dispute record the id had
    by a fresh unresolved one holding the caller, the reason and the given
    evidence hash as its only evidence, and moves no ether.  With an empty
    reason an otherwise acceptable call reverts with "Reason required". *)
Theorem raiseDispute_spec (e : Env) (id : uint256) (r h : string) (w : World) :
  let a := agreements w !!! id in
  (forall u w', raiseDispute e id r h w = Ok (u, w') ->
     (status a = Active \/ status a = Pending) /\
     (msg_sender e = tenant a \/ msg_sender e = landlord a) /\
     r <> ""%string /\
     status (agreements w' !!! id) = Disputed /\
     disputes w' !!! id =
       {| d_agreementId := id; initiator := msg_sender e; reason := r;
          evidenceHashes := [h]; d_createdAt := block_timestamp e;
          resolved := false; winner := 0; isRentDispute := false |} /\
     sent w' = sent w /\ balance w' = balance w) /\
  (msg_value e = 0 -> status a = Active \/ status a = Pending ->
   msg_sender e = tenant a \/ msg_sender e = landlord a -> r = ""%string ->
   raiseDispute e id r h w = Revert "Reason required").
Proof.
  cbv zeta. split.
  - intros u w' H.
    destruct (raiseDispute_effect _ _ _ _ _ _ _ H)
      as (Hst & Hwho & Hr & Hag & Hd & Hsent & Hbal & _).
    cbv zeta in *. rewrite Hag, Hd, !lookup_total_insert_eq.
    split; [exact Hst|]. split; [exact Hwho|].
    split; [intros ->; simpl in Hr; lia|].
    repeat (split; [first [assumption | reflexivity]|]). assumption.
  - intros Hval Hst Hwho ->. unfold raiseDispute, nonpayable, agreement.
    run_to_revert.
Qed.

Lemma raiseDispute_spec_witness :
  status (agreements Scenario.w_disputed !!! 1) = Disputed /\
  evidenceHashes (disputes Scenario.w_disputed !!! 1) = ["photo"%string] /\
  raiseDispute (Scenario.call Scenario.alice 0 100) 1 "" "photo" Scenario.w_active
  = Revert "Reason required".
Proof.
  destruct (raiseDispute_spec (Scenario.call Scenario.alice 0 100) 1 "broken heating" "photo"
              Scenario.w_active) as [Hok _].
  destruct (raiseDispute_spec (Scenario.call Scenario.alice 0 100) 1 "" "photo"
              Scenario.w_active) as [_ Hno].
  destruct (Hok tt Scenario.w_disputed) as (_ & _ & _ & Hst & Hd & _).
  { vm_compute. reflexivity. }
  split; [exact Hst|]. split; [rewrite Hd; reflexivity|].
  apply Hno.
  - vm_compute. reflexivity.
  - left. vm_compute. reflexivity.
  - left. vm_compute. reflexivity.
  - reflexivity.
Defined.

Lemma submitEvidence_effect (e : Env) (id : uint256) (h : string) (w w' : World) (u : unit) :
  submitEvidence e id h w = Ok (u, w') ->
  let a := agreements w !!! id in
  let d := disputes w !!! id in
  status a = Disputed /\
  (msg_sender e = tenant a \/ msg_sender e = landlord a) /\
  resolved d = false /\ 0 < N.of_nat (String.length h) /\
  disputes w' = <[id := set_evidenceHashes (evidenceHashes d ++ [h]) d]> (disputes w) /\
  agreements w' = agreements w /\ sent w' = sent w /\ balance w' = balance w.
Proof.
  intros H. cbv zeta. unfold submitEvidence in H. inv_tx.
  all: repeat (split; [first [assumption | reflexivity | (left; assumption)
                              | (right; assumption)]|]); reflexivity.
Qed.

(** What a transaction appends to the evidence of agreement [id]. *)
Lemma step_dispute_kept (w w' : World) (e : Env) (op : Op) (id : uint256) :
  step w e op w' ->
  status (agreements w !!! id) <> Pending -> status (agreements w !!! id) <> Active ->
  let d := disputes w !!! id in
  let d' := disputes w' !!! id in
  initiator d' = initiator d /\ reason d' = reason d /\
  d_createdAt d' = d_createdAt d /\ isRentDispute d' = isRentDispute d /\
  evidenceHashes d' =
    evidenceHashes d ++
    match op with
    | SubmitEvidence id' h => if decide (id' = id) then [h] else []
    | _ => []
    end.
Proof.
  unfold step. intros H Hp Ha. cbv zeta.
  by_operation H; simpl; lookup_cases; simp_w;
    repeat match goal with
      | |- context [decide ?P] => destruct (decide P); try congruence
      end;
    rewrite ?app_nil_r;
    first [ (repeat split; reflexivity) | exfalso; intuition congruence ].
Qed.

Lemma past_active_stage (s : AgreementStatus) :
  (s <> Pending /\ s <> Active) <-> (2 <= stage s)%nat.
Proof. destruct s; simpl; split; intros; try lia; try (split; discriminate); intuition. Qed.

(** X16. The evidence of a dispute is append-only.  A successful
    [submitEvidence] is sent by the tenant or the landlord of a Disputed
    agreement with an unresolved dispute and adds its non-empty hash at the
    end of the list.  For an agreement that is past Active (Disputed,
    Completed, Cancelled or Terminated), whatever transactions follow, the
    initiator, reason, creation time and rent flag of its dispute stay as
    they are and the evidence recorded so far remains a prefix of the
    evidence list. *)
Theorem evidence_is_append_only (w : World) (id : uint256) :
  let d := disputes w !!! id in
  (forall e h u w', submitEvidence e id h w = Ok (u, w') ->
     status (agreements w !!! id) = Disputed /\
     (msg_sender e = tenant (agreements w !!! id) \/
      msg_sender e = landlord (agreements w !!! id)) /\
     resolved d = false /\ h <> ""%string /\
     evidenceHashes (disputes w' !!! id) = evidenceHashes d ++ [h] /\
     agreements w' = agreements w) /\
  (created w id ->
   status (agreements w !!! id) <> Pending -> status (agreements w !!! id) <> Active ->
   forall w', reaches w w' ->
     let d' := disputes w' !!! id in
     initiator d' = initiator d /\ reason d' = reason d /\
     d_createdAt d' = d_createdAt d /\ isRentDispute d' = isRentDispute d /\
     evidenceHashes d `prefix_of` evidenceHashes d').
Proof.
  cbv zeta. split.
  - intros e h u w' H.
    destruct (submitEvidence_effect _ _ _ _ _ _ H)
      as (Hst & Hwho & Hres & Hh & Hd & Hag & _).
    cbv zeta in *. rewrite Hd, lookup_total_insert_eq. simpl.
    split; [exact Hst|]. split; [exact Hwho|]. split; [exact Hres|].
    split; [intros ->; simpl in Hh; lia|]. split; [reflexivity|exact Hag].
  - intros Hid Hp Ha w' Hreach. revert Hid Hp Ha.
    induction Hreach as [w|w e op w1 w2 Hstep _ IH]; intros Hid Hp Ha.
    + repeat split; reflexivity.
    + destruct (step_dispute_kept _ _ _ _ id Hstep Hp Ha) as (Hi & Hr & Hc & Hf & He).
      assert (Hpast : status (agreements w1 !!! id) <> Pending /\
                      status (agreements w1 !!! id) <> Active).
      { apply past_active_stage.
        assert (Hnow : (2 <= stage (status (agreements w !!! id)))%nat)
          by (apply past_active_stage; auto).
        destruct (step_status _ _ _ _ id Hstep Hid) as [->|Hedge]; [exact Hnow|].
        apply contract_edge_stage in Hedge. lia. }
      destruct Hpast as [Hp1 Ha1].
      destruct (IH (step_created _ _ _ _ _ Hstep Hid) Hp1 Ha1)
        as (Hi' & Hr' & Hc' & Hf' & He').
      rewrite Hi', Hr', Hc', Hf'.
      repeat (split; [assumption|]).
      etransitivity; [|exact He']. rewrite He. apply prefix_app_r. reflexivity.
Qed.

Lemma evidence_is_append_only_witness :
  evidenceHashes (disputes Cases.w_evidence !!! 1) = ["photo"%string; "invoice"%string].
Proof.
  destruct (evidence_is_append_only Scenario.w_disputed 1) as [Hadd _].
  destruct (Hadd (Scenario.call Scenario.larry 0 110) "invoice"%string tt Cases.w_evidence)
    as (_ & _ & _ & _ & Hev & _).
  { vm_compute. reflexivity. }
  etransitivity; [exact Hev|]. vm_compute. reflexivity.
Defined.

(** * Rent ledger *)

Lemma ledgerTotal_app (l k : list RentPayment) :
  ledgerTotal (l ++ k) = ledgerTotal l + ledgerTotal k.
Proof.
  unfold ledgerTotal. induction l as [|p l IH]; simpl; [reflexivity|].
  rewrite IH. lia.
Qed.

Lemma step_rentPayments (w w' : World) (e : Env) (op : Op) (id : uint256) :
  step w e op w' ->
  exists more,
    rentPayments w' !!! id = rentPayments w !!! id ++ more /\
    ledgerTotal more = rentPaidBy e op id.
Proof.
  unfold step. intros H.
  by_operation H; simpl;
    try (exists []; rewrite app_nil_r; split; reflexivity).
  all: destruct (decide _) as [->|Hne].
  all: rewrite ?lookup_total_insert_eq, ?lookup_total_insert_ne by exact Hne.
  all: first [ (eexists; split; [reflexivity|]; unfold ledgerTotal; simpl; lia)
             | (exists []; rewrite app_nil_r; split; reflexivity) ].
Qed.

(** X17. The rent ledger and the accumulator agree.  The ledger of an
    agreement only ever grows at its end, and for an agreement whose id has
    been handed out, if [totalRentPaid] equals the sum of the amounts in its
    ledger, it still does after any sequence of successful transactions. *)
Theorem ledger_matches_totalRentPaid (w w' : World) (id : uint256) :
  reaches w w' ->
  rentPayments w !!! id `prefix_of` rentPayments w' !!! id /\
  (created w id ->
   totalRentPaid (agreements w !!! id) = ledgerTotal (rentPayments w !!! id) ->
   totalRentPaid (agreements w' !!! id) = ledgerTotal (rentPayments w' !!! id)).
Proof.
  induction 1 as [w|w e op w1 w2 Hstep _ IH].
  - split; [reflexivity|auto].
  - destruct (step_rentPayments _ _ _ _ id Hstep) as (more & Hmore & Hsum).
    destruct IH as [Hpre Hkeep]. split.
    + etransitivity; [|exact Hpre]. rewrite Hmore. apply prefix_app_r. reflexivity.
    + intros Hid Heq. apply Hkeep; [exact (step_created _ _ _ _ _ Hstep Hid)|].
      rewrite (step_totalRentPaid _ _ _ _ id Hstep Hid), Hmore, ledgerTotal_app.
      rewrite Heq, Hsum. reflexivity.
Qed.

Lemma ledger_matches_totalRentPaid_witness :
  totalRentPaid (agreements Scenario.w_paid !!! 1)
  = ledgerTotal (rentPayments Scenario.w_paid !!! 1).
Proof.
  assert (Hreach : reaches Scenario.w_active Scenario.w_paid).
  { apply (reaches_step _ (Scenario.call Scenario.alice 150 50) (PayRent 1 "june")
             Scenario.w_paid _); [|apply reaches_refl].
    vm_compute. reflexivity. }
  destruct (ledger_matches_totalRentPaid _ _ 1 Hreach) as [_ Hkeep].
  apply Hkeep; vm_compute; reflexivity.
Defined.

Lemma step_ledgerAligned (w w' : World) (e : Env) (op : Op) (id : uint256) :
  step w e op w' -> created w id -> ledgerAligned w id -> ledgerAligned w' id.
Proof.
  unfold step, created. intros H Hid [Hdue Hper].
  destruct op;
    try (invert_op H; unfold ledgerAligned; simpl; lookup_cases; simp_w;
         split; assumption).
  simpl in H.
  destruct (payRent_effect _ _ _ _ _ _ H) as (_&_&_& Hint &_& Hag & Hpay &_).
  cbv zeta in Hag, Hpay, Hint. unfold ledgerAligned. rewrite Hag, Hpay.
  match type of H with
  | payRent _ ?i _ _ = _ => destruct (decide (i = id)) as [->|Hne]
  end.
  - rewrite !lookup_total_insert_eq. simpl. split.
    + rewrite length_app. simpl. rewrite Hdue. lia.
    + intros k p Hk. apply lookup_app_Some in Hk. destruct Hk as [Hk|[Hlen Hk]].
      * exact (Hper k p Hk).
      * destruct (k - length (rentPayments w !!! id))%nat as [|j] eqn:Hj;
          simpl in Hk; [|rewrite lookup_nil in Hk; discriminate].
        injection Hk as <-. simpl.
        assert (k = length (rentPayments w !!! id)) as -> by lia.
        rewrite Hdue in *. split; lia.
  - rewrite !lookup_total_insert_ne by exact Hne. split; assumption.
Qed.

(** X18. Rent periods follow the schedule.  For an agreement whose id has
    been handed out, if the [k]-th recorded payment covers the [k]-th
    interval after [startDate] and [nextRentDueDate] is the end of the first
    unpaid interval, the same is true after any sequence of successful
    transactions: payments are booked to consecutive periods, one interval
    each, however late or early they arrive. *)
Theorem rent_periods_follow_schedule (w w' : World) (id : uint256) :
  created w id -> ledgerAligned w id -> reaches w w' -> ledgerAligned w' id.
Proof.
  intros Hid Hal Hreach. revert Hid Hal.
  induction Hreach as [w|w e op w1 w2 Hstep _ IH]; intros Hid Hal; [exact Hal|].
  apply IH; [exact (step_created _ _ _ _ _ Hstep Hid)|].
  exact (step_ledgerAligned _ _ _ _ _ Hstep Hid Hal).
Qed.

Lemma rent_periods_follow_schedule_witness :
  nextRentDueDate (agreements Scenario.w_paid !!! 1)
  = Scenario.leaseStart + 2 * (30 * days).
Proof.
  assert (Hid : created Scenario.w_active 1) by (vm_compute; reflexivity).
  assert (Hal : ledgerAligned Scenario.w_active 1).
  { split; [vm_compute; reflexivity|].
    intros k p Hk. exfalso. revert Hk.
    replace (rentPayments Scenario.w_active !!! 1) with (@nil RentPayment)
      by (vm_compute; reflexivity).
    rewrite lookup_nil. discriminate. }
  assert (Hreach : reaches Scenario.w_active Scenario.w_paid).
  { apply (reaches_step _ (Scenario.call Scenario.alice 150 50) (PayRent 1 "june")
             Scenario.w_paid _); [|apply reaches_refl].
    vm_compute. reflexivity. }
  destruct (rent_periods_follow_schedule _ _ _ Hid Hal Hreach) as [Hdue _].
  etransitivity; [exact Hdue|]. vm_compute. reflexivity.
Defined.

(** * Receipts *)

Lemma recordReceipt_effect (r : Receipt) (o : option uint256) (n : uint256) (w w' : World) :
  recordReceipt r o w = Ok (n, w') ->
  let rr := rentalReceipt w in
  n = _nextReceiptId rr /\
  w' = set_rentalReceipt
         {| minters := minters rr;
            _nextReceiptId := _nextReceiptId rr + 1;
            receipts := <[_nextReceiptId rr := r]> (receipts rr);
            tenantReceipts :=
              <[r_tenant r := (tenantReceipts rr !!! r_tenant r) ++ [_nextReceiptId rr]]>
                (tenantReceipts rr);
            agreementRentReceipts :=
              match o with
              | Some id =>
                  <[id := (agreementRentReceipts rr !!! id) ++ [_nextReceiptId rr]]>
                    (agreementRentReceipts rr)
              | None => agreementRentReceipts rr
              end |} w.
Proof. intros H. cbv zeta. unfold recordReceipt in H. inv_ok. auto. Qed.

Lemma mintRentPaymentProof_effect (e : Env) (t l : address) (id amt date ps pe : uint256)
    (h : string) (n : uint256) (w w' : World) :
  mintRentPaymentProof e t l id amt date ps pe h w = Ok (n, w') ->
  let rr := rentalReceipt w in
  let r := {| receiptType := RentPaymentReceipt; r_tenant := t; r_landlord := l;
              r_propertyId := 0; r_amount := amt; r_startDate := ps; r_endDate := pe;
              issuedDate := date; r_metadataHash := h; linkedAgreementId := id |} in
  this w ∈ minters rr /\ t <> 0 /\ l <> 0 /\ 0 < amt /\ ps < pe /\
  0 < N.of_nat (String.length h) /\
  n = _nextReceiptId rr /\
  w' = set_rentalReceipt
         {| minters := minters rr;
            _nextReceiptId := _nextReceiptId rr + 1;
            receipts := <[_nextReceiptId rr := r]> (receipts rr);
            tenantReceipts :=
              <[t := (tenantReceipts rr !!! t) ++ [_nextReceiptId rr]]> (tenantReceipts rr);
            agreementRentReceipts :=
              <[id := (agreementRentReceipts rr !!! id) ++ [_nextReceiptId rr]]>
                (agreementRentReceipts rr) |} w.
Proof.
  intros H. cbv zeta. unfold mintRentPaymentProof, onlyMinter in H.
  repeat (first [ match goal with
                  | Hr : recordReceipt _ _ _ = Ok _ |- _ =>
                      apply recordReceipt_effect in Hr; destruct Hr as [? ?]; subst
                  end
                | inv_ok_one ]; simp_w).
  auto 10.
Qed.

Lemma mintReceipt_effect (e : Env) (t l : address) (p dep rent s d : uint256)
    (h : string) (n : uint256) (w w' : World) :
  mintReceipt e t l p dep rent s d h w = Ok (n, w') ->
  let rr := rentalReceipt w in
  let r := {| receiptType := RentalAgreementReceipt; r_tenant := t; r_landlord := l;
              r_propertyId := p; r_amount := dep; r_startDate := s; r_endDate := d;
              issuedDate := block_timestamp e; r_metadataHash := h;
              linkedAgreementId := _nextReceiptId rr |} in
  this w ∈ minters rr /\ t <> 0 /\ l <> 0 /\ 0 < dep /\ s < d /\
  0 < N.of_nat (String.length h) /\
  n = _nextReceiptId rr /\
  w' = set_rentalReceipt
         {| minters := minters rr;
            _nextReceiptId := _nextReceiptId rr + 1;
            receipts := <[_nextReceiptId rr := r]> (receipts rr);
            tenantReceipts :=
              <[t := (tenantReceipts rr !!! t) ++ [_nextReceiptId rr]]> (tenantReceipts rr);
            agreementRentReceipts := agreementRentReceipts rr |} w.
Proof.
  intros H. cbv zeta. unfold mintReceipt, onlyMinter in H.
  repeat (first [ match goal with
                  | Hr : recordReceipt _ _ _ = Ok _ |- _ =>
                      apply recordReceipt_effect in Hr; destruct Hr as [? ?]; subst
                  end
                | inv_ok_one ]; simp_w).
  auto 10.
Qed.

(** Inversion that keeps track of what the receipt contract stored. *)
Ltac inv_mint_one :=
  match goal with
  | H : mintRentPaymentProof _ _ _ _ _ _ _ _ _ _ = Ok _ |- _ =>
      apply mintRentPaymentProof_effect in H;
      destruct H as (? & ? & ? & ? & ? & ? & ? & ?); subst
  | H : mintReceipt _ _ _ _ _ _ _ _ _ _ = Ok _ |- _ =>
      apply mintReceipt_effect in H;
      destruct H as (? & ? & ? & ? & ? & ? & ? & ?); subst
  | _ => inv_call_one
  end.

Ltac inv_mint := simp_w; repeat (inv_mint_one; simp_w).

(** X19. Every accepted rent payment leaves a proof in the receipt contract:
    a successful [payRent] finds the escrow among the minters, carries a
    non-empty metadata hash, and stores under the next receipt id a
    rent-payment receipt naming tenant, landlord, agreement, amount paid,
    payment time and the period paid for; the receipt id is appended to the
    lists of the tenant and of the agreement and the receipt counter moves on
    by one. *)
Theorem payRent_records_proof (e : Env) (id : uint256) (h : string) (w w' : World)
    (u : unit) :
  payRent e id h w = Ok (u, w') ->
  let a := agreements w !!! id in
  let rr := rentalReceipt w in
  let rr' := rentalReceipt w' in
  let rid := _nextReceiptId rr in
  this w ∈ minters rr /\ h <> ""%string /\
  receipts rr' !! rid =
    Some {| receiptType := RentPaymentReceipt; r_tenant := tenant a;
            r_landlord := landlord a; r_propertyId := 0; r_amount := msg_value e;
            r_startDate := nextRentDueDate a - rentInterval a;
            r_endDate := nextRentDueDate a; issuedDate := block_timestamp e;
            r_metadataHash := h; linkedAgreementId := id |} /\
  _nextReceiptId rr' = rid + 1 /\
  tenantReceipts rr' !!! tenant a = (tenantReceipts rr !!! tenant a) ++ [rid] /\
  agreementRentReceipts rr' !!! id = (agreementRentReceipts rr !!! id) ++ [rid] /\
  (forall other, other <> rid -> receipts rr' !! other = receipts rr !! other).
Proof.
  intros H. cbv zeta. unfold payRent in H. inv_mint.
  all: rewrite ?lookup_total_insert_eq in *; simp_w.
  all: cbn [receipts _nextReceiptId tenantReceipts agreementRentReceipts minters].
  all: rewrite lookup_insert_eq, !lookup_total_insert_eq.
  all: split; [assumption|].
  all: split; [intros ->; match goal with Hh : 0 < N.of_nat _ |- _ => simpl in Hh; lia end|].
  all: repeat (split; [reflexivity|]).
  all: intros other Hne; apply lookup_insert_ne; congruence.
Qed.

Lemma payRent_records_proof_witness :
  _nextReceiptId (rentalReceipt Scenario.w_paid) = 2 /\
  agreementRentReceipts (rentalReceipt Scenario.w_paid) !!! 1 = [1].
Proof.
  destruct (payRent_records_proof (Scenario.call Scenario.alice 150 50) 1 "june"
              Scenario.w_active Scenario.w_paid tt)
    as (_ & _ & _ & Hnext & _ & Hlist & _).
  { vm_compute. reflexivity. }
  split.
  - etransitivity; [exact Hnext|]. vm_compute. reflexivity.
  - etransitivity; [exact Hlist|]. vm_compute. reflexivity.
Defined.

Lemma releaseDeposit_receipt (e : Env) (id : uint256) (w w' : World) (u : unit) :
  releaseDeposit e id w = Ok (u, w') ->
  let a := agreements w !!! id in
  let rr := rentalReceipt w in
  let rr' := rentalReceipt w' in
  let rid := _nextReceiptId rr in
  this w ∈ minters rr /\ tenant a <> 0 /\ landlord a <> 0 /\ 0 < depositAmount a /\
  startDate a < endDate a /\ 0 < N.of_nat (String.length (metadataHash a)) /\
  receipts rr' !! rid =
    Some {| receiptType := RentalAgreementReceipt; r_tenant := tenant a;
            r_landlord := landlord a; r_propertyId := propertyId a;
            r_amount := depositAmount a; r_startDate := startDate a;
            r_endDate := endDate a; issuedDate := block_timestamp e;
            r_metadataHash := metadataHash a; linkedAgreementId := rid |} /\
  _nextReceiptId rr' = rid + 1 /\
  tenantReceipts rr' !!! tenant a = (tenantReceipts rr !!! tenant a) ++ [rid] /\
  agreementRentReceipts rr' = agreementRentReceipts rr.
Proof.
  intros H. cbv zeta. unfold releaseDeposit, _emitFeeBreakdown in H. inv_mint.
  all: cbn [receipts _nextReceiptId tenantReceipts agreementRentReceipts minters].
  all: rewrite lookup_insert_eq, !lookup_total_insert_eq.
  all: repeat (split; [first [assumption | reflexivity]|]); reflexivity.
Qed.

(** X20. Every release leaves a receipt: a successful [releaseDeposit] finds
    the escrow among the minters and stores under the next receipt id an
    agreement receipt with the tenant, landlord, property, deposit, lease
    dates and metadata hash of the agreement; the receipt's
    [linkedAgreementId] is the receipt's own id, and the id is appended to
    the tenant's list only. *)
Theorem releaseDeposit_records_receipt (e : Env) (id : uint256) (w w' : World) (u : unit) :
  releaseDeposit e id w = Ok (u, w') ->
  let a := agreements w !!! id in
  let rr := rentalReceipt w in
  let rr' := rentalReceipt w' in
  let rid := _nextReceiptId rr in
  this w ∈ minters rr /\
  receipts rr' !! rid =
    Some {| receiptType := RentalAgreementReceipt; r_tenant := tenant a;
            r_landlord := landlord a; r_propertyId := propertyId a;
            r_amount := depositAmount a; r_startDate := startDate a;
            r_endDate := endDate a; issuedDate := block_timestamp e;
            r_metadataHash := metadataHash a; linkedAgreementId := rid |} /\
  _nextReceiptId rr' = rid + 1 /\
  tenantReceipts rr' !!! tenant a = (tenantReceipts rr !!! tenant a) ++ [rid] /\
  agreementRentReceipts rr' = agreementRentReceipts rr.
Proof.
  intros H. cbv zeta.
  destruct (releaseDeposit_receipt _ _ _ _ _ H) as (Hm & _ & _ & _ & _ & _ & Hr & Hn & Ht & Ha).
  auto.
Qed.

Lemma releaseDeposit_records_receipt_witness :
  _nextReceiptId (rentalReceipt Scenario.w_released) = 2 /\
  tenantReceipts (rentalReceipt Scenario.w_released) !!! Scenario.alice = [1].
Proof.
  destruct (releaseDeposit_records_receipt (Scenario.call Scenario.larry 0 Scenario.afterLease)
              1 Scenario.w_active Scenario.w_released tt)
    as (_ & _ & Hnext & Hlist & _).
  { vm_compute. reflexivity. }
  split.
  - etransitivity; [exact Hnext|]. vm_compute. reflexivity.
  - etransitivity; [exact Hlist|]. vm_compute. reflexivity.
Defined.

(** X21. [createAgreement] accepts an empty metadata hash, the receipt
    contract does not: an agreement whose id has been handed out and whose
    [metadataHash] is empty can never be released, for [releaseDeposit] on it
    reverts in every state the contract can get to. *)
Theorem blank_terms_block_release (w w' : World) (id : uint256) :
  created w id -> metadataHash (agreements w !!! id) = ""%string -> reaches w w' ->
  forall e, exists why, releaseDeposit e id w' = Revert why.
Proof.
  intros Hid Hblank Hreach e.
  destruct (releaseDeposit e id w') as [[u w2]|why] eqn:H; [|eauto].
  exfalso.
  destruct (releaseDeposit_receipt _ _ _ _ _ H) as (_ & _ & _ & _ & _ & Hlen & _).
  destruct (reaches_sameTerms _ _ _ Hid Hreach)
    as (_ & _ & _ & _ & _ & _ & _ & _ & _ & _ & Hmeta & _).
  cbv zeta in Hlen. rewrite Hmeta, Hblank in Hlen. simpl in Hlen. lia.
Qed.

Lemma blank_terms_block_release_witness :
  status (agreements Cases.w_blank !!! 1) = Active /\
  exists why,
    releaseDeposit (Scenario.call Scenario.larry 0 Scenario.afterLease) 1 Cases.w_blank
    = Revert why.
Proof.
  split; [vm_compute; reflexivity|].
  apply (blank_terms_block_release Cases.w_blank Cases.w_blank 1).
  - vm_compute. reflexivity.
  - vm_compute. reflexivity.
  - apply reaches_refl.
Defined.

Lemma step_receipts (w w' : World) (e : Env) (op : Op) (rid : uint256) :
  step w e op w' -> rid < _nextReceiptId (rentalReceipt w) ->
  receipts (rentalReceipt w') !! rid = receipts (rentalReceipt w) !! rid /\
  _nextReceiptId (rentalReceipt w) <= _nextReceiptId (rentalReceipt w') /\
  minters (rentalReceipt w') = minters (rentalReceipt w).
Proof.
  unfold step. intros H Hrid.
  destruct op; simpl in H; unfold_ops; inv_mint;
    cbn [receipts _nextReceiptId tenantReceipts agreementRentReceipts minters];
    rewrite ?lookup_insert_ne by lia;
    repeat split; first [reflexivity | lia].
Qed.

(** X22. Receipts are never rewritten: a receipt id below the receipt
    counter keeps its receipt through any sequence of successful escrow
    transactions, the counter never goes back and the escrow never touches
    the set of minters. *)
Theorem receipts_are_append_only (w w' : World) (rid : uint256) :
  rid < _nextReceiptId (rentalReceipt w) -> reaches w w' ->
  receipts (rentalReceipt w') !! rid = receipts (rentalReceipt w) !! rid /\
  _nextReceiptId (rentalReceipt w) <= _nextReceiptId (rentalReceipt w') /\
  minters (rentalReceipt w') = minters (rentalReceipt w).
Proof.
  intros Hrid Hreach. revert Hrid.
  induction Hreach as [w|w e op w1 w2 Hstep _ IH]; intros Hrid.
  - repeat split; first [reflexivity | lia].
  - destruct (step_receipts _ _ _ _ rid Hstep Hrid) as (Hr & Hn & Hm).
    destruct IH as (Hr' & Hn' & Hm'); [lia|].
    rewrite Hr', Hm'. repeat split; first [assumption | lia].
Qed.

Lemma receipts_are_append_only_witness :
  receipts (rentalReceipt Cases.w_terminated) !! 1
  = receipts (rentalReceipt Scenario.w_paid) !! 1.
Proof.
  apply (receipts_are_append_only Scenario.w_paid Cases.w_terminated 1).
  - vm_compute. reflexivity.
  - apply (reaches_step _ (Scenario.call Scenario.admin 0 60) (TerminateAgreement 1 300)
             Cases.w_terminated _); [|apply reaches_refl].
    vm_compute. reflexivity.
Defined.

(** * Gas subsidy bookkeeping *)

Lemma step_isGasSubsidized (w w' : World) (e : Env) (op : Op) (t : address) :
  step w e op w' ->
  isGasSubsidized w' !!! t =
    match op with
    | GrantGasSubsidy t' => if decide (t' = t) then true else isGasSubsidized w !!! t
    | _ => isGasSubsidized w !!! t
    end.
Proof.
  unfold step. intros H.
  by_operation H; simpl; try reflexivity.
  destruct (decide _) as [->|Hne].
  - apply lookup_total_insert_eq.
  - apply lookup_total_insert_ne. exact Hne.
Qed.

(** X23. Nobody is eligible for the gas subsidy at deployment; eligibility
    is granted by the owner only, to a non-zero address, one address at a
    time, and is never taken back: a flag that is set stays set through any
    sequence of successful transactions. *)
Theorem gas_subsidy_is_never_revoked (w w' : World) (t : address) :
  (forall pv rr deployer self wallet,
     isGasSubsidized (deploy pv rr deployer self wallet) !!! t = false) /\
  (forall e t' u w1, grantGasSubsidy e t' w = Ok (u, w1) ->
     owner w = msg_sender e /\ t' <> 0 /\
     isGasSubsidized w1 !!! t' = true /\
     (t <> t' -> isGasSubsidized w1 !!! t = isGasSubsidized w !!! t) /\
     gasSubsidyPool w1 = gasSubsidyPool w) /\
  (isGasSubsidized w !!! t = true -> reaches w w' -> isGasSubsidized w' !!! t = true).
Proof.
  split; [|split].
  - intros. unfold deploy. simpl. rewrite lookup_total_empty. reflexivity.
  - intros e t' u w1 H. unfold grantGasSubsidy in H. inv_tx.
    rewrite lookup_total_insert_eq.
    repeat (split; [first [assumption | reflexivity]|]).
    split; [|reflexivity].
    intros Hne. apply lookup_total_insert_ne. congruence.
  - intros Hset Hreach. revert Hset.
    induction Hreach as [w|w e op w1 w2 Hstep _ IH]; intros Hset; [exact Hset|].
    apply IH. rewrite (step_isGasSubsidized _ _ _ _ t Hstep).
    destruct op; try exact Hset.
    destruct (decide _); [reflexivity|exact Hset].
Qed.

Lemma gas_subsidy_is_never_revoked_witness :
  isGasSubsidized Scenario.w_subsidised !!! Scenario.alice = true.
Proof.
  destruct (gas_subsidy_is_never_revoked Scenario.w_granted Scenario.w_subsidised
              Scenario.alice) as (_ & _ & Hkeep).
  apply Hkeep; [vm_compute; reflexivity|].
  apply (reaches_step _ (Scenario.call Scenario.alice 100 80) (PayRent 1 "july")
           Scenario.w_subsidised _); [|apply reaches_refl].
  vm_compute. reflexivity.
Defined.

(** X24. The subsidy pool is an exact account: a successful transaction
    changes it by what [fundGasSubsidy] brings in, which is its non-zero
    [msg.value], less what [payRent] hands to a subsidised tenant, and by
    nothing else. *)
Theorem subsidy_pool_account (w w' : World) (e : Env) (op : Op) :
  step w e op w' ->
  gasSubsidyPool w' + poolPaidBy e op w
  = gasSubsidyPool w + match op with FundGasSubsidy => msg_value e | _ => 0 end /\
  (op = FundGasSubsidy -> 0 < msg_value e /\ sent w' = sent w).
Proof.
  unfold step. intros H.
  by_operation H; simpl; unfold subsidyAmount, gasRefundOf, subsidyDue;
    repeat match goal with
      | |- context [decide ?P] => destruct (decide P)
      end;
    (split; [first [lia | tauto] | first [discriminate | (intros _; split; [assumption|reflexivity])]]).
Qed.

Lemma subsidy_pool_account_witness :
  gasSubsidyPool Scenario.w_funded
  + poolPaidBy (Scenario.call Scenario.admin 40 60) FundGasSubsidy Scenario.w_active = 40.
Proof.
  destruct (subsidy_pool_account Scenario.w_active Scenario.w_funded
              (Scenario.call Scenario.admin 40 60) FundGasSubsidy) as [Hfund _].
  { vm_compute. reflexivity. }
  etransitivity; [exact Hfund|]. vm_compute. reflexivity.
Defined.

(** * The property-verification contract *)

Section RegistryInversion.
Context {A B : Type}.

Lemma reg_bind_Ok (m : Registry.R A) (k : A -> Registry.R B) (s s' : Registry.State) (b : B) :
  Registry.bind m k s = Ok (b, s') ->
  exists a s1, m s = Ok (a, s1) /\ k a s1 = Ok (b, s').
Proof.
  unfold Registry.bind. destruct (m s) as [[a s1]|why]; [|discriminate].
  intros Hk. exists a, s1. split; [reflexivity|exact Hk].
Qed.

Lemma reg_bind_step (m : Registry.R A) (k : A -> Registry.R B) (s s1 : Registry.State)
    (a : A) :
  m s = Ok (a, s1) -> Registry.bind m k s = k a s1.
Proof. unfold Registry.bind. intros ->. reflexivity. Qed.

Lemma reg_bind_Revert (m : Registry.R A) (k : A -> Registry.R B) (s : Registry.State)
    (why : string) :
  m s = Revert why -> Registry.bind m k s = Revert why.
Proof. unfold Registry.bind. intros ->. reflexivity. Qed.

Lemma reg_ret_Ok (a a' : A) (s s' : Registry.State) :
  Registry.ret a s = Ok (a', s') -> a' = a /\ s' = s.
Proof. unfold Registry.ret. intros [= -> ->]. split; reflexivity. Qed.

Lemma reg_gets_Ok (f : Registry.State -> A) (a : A) (s s' : Registry.State) :
  Registry.gets f s = Ok (a, s') -> a = f s /\ s' = s.
Proof. unfold Registry.gets. intros [= <- <-]. split; reflexivity. Qed.

End RegistryInversion.

Lemma reg_modify_Ok (f : Registry.State -> Registry.State) (u : unit)
    (s s' : Registry.State) :
  Registry.modify f s = Ok (u, s') -> s' = f s.
Proof. unfold Registry.modify. intros Heq. congruence. Qed.

Lemma reg_require_Ok (P : Prop) `{Decision P} (why : string) (u : unit)
    (s s' : Registry.State) :
  Registry.require P why s = Ok (u, s') -> P /\ s' = s.
Proof.
  unfold Registry.require. destruct (decide P) as [HP|HP]; [|discriminate].
  intros [_ ->]%reg_ret_Ok. split; [exact HP|reflexivity].
Qed.

Lemma reg_require_intro (P : Prop) `{Decision P} (why : string) (s : Registry.State) :
  P -> Registry.require P why s = Ok (tt, s).
Proof.
  unfold Registry.require. intros HP. destruct (decide P); [reflexivity|contradiction].
Qed.

Lemma reg_require_not (P : Prop) `{Decision P} (why : string) (s : Registry.State) :
  ~ P -> Registry.require P why s = Revert why.
Proof.
  unfold Registry.require. intros HP. destruct (decide P); [contradiction|reflexivity].
Qed.

Lemma reg_checked_add_Ok (a b c : N) (s s' : Registry.State) :
  Registry.checked_add a b s = Ok (c, s') -> c = a + b /\ a + b <= MAX_UINT256 /\ s' = s.
Proof.
  unfold Registry.checked_add. destruct (decide _) as [Hle|]; [|discriminate].
  intros [-> ->]%reg_ret_Ok. auto.
Qed.

Lemma reg_checked_sub_Ok (a b c : N) (s s' : Registry.State) :
  Registry.checked_sub a b s = Ok (c, s') -> c = a - b /\ b <= a /\ s' = s.
Proof.
  unfold Registry.checked_sub. destruct (decide _) as [Hle|]; [|discriminate].
  intros [-> ->]%reg_ret_Ok. auto.
Qed.

Ltac reg_simp :=
  cbn [
    Registry.owner Registry.propertyAddress Registry.documentHash Registry.videoHash
    Registry.gpsCoordinates Registry.verificationDate Registry.isVerified Registry.isActive
    Registry.kycLevel Registry.personaVerificationId Registry.videoTimestamp
    Registry.governmentIdVerified Registry.addressProofVerified
    Registry.set_verificationDate Registry.set_isVerified Registry.set_isActive
    Registry._nextPropertyId Registry.properties Registry.kycProofs
    Registry.landlordProperties Registry.listingFee Registry.kycProcessingFee
    Registry.feeCollector Registry.sponsorshipPool Registry.gasSponsored Registry._owner
    Registry.badges Registry.balance Registry.sent Registry.events
    Registry.set__nextPropertyId Registry.set_properties Registry.set_kycProofs
    Registry.set_landlordProperties Registry.set_listingFee Registry.set_kycProcessingFee
    Registry.set_sponsorshipPool Registry.set_gasSponsored Registry.set__owner
    Registry.set_badges Registry.set_balance Registry.set_sent Registry.set_events
  ] in *.

Ltac reg_inv_one :=
  match goal with
  | H : Registry.bind _ _ _ = Ok _ |- _ =>
      apply reg_bind_Ok in H; destruct H as (? & ? & ? & H)
  | H : Registry.ret _ _ = Ok _ |- _ => apply reg_ret_Ok in H; destruct H as [? ?]; subst
  | H : Registry.gets _ _ = Ok _ |- _ => apply reg_gets_Ok in H; destruct H as [? ?]; subst
  | H : Registry.modify _ _ = Ok _ |- _ => apply reg_modify_Ok in H; subst
  | H : Registry.revert _ _ = Ok _ |- _ => discriminate H
  | H : Revert _ = Ok _ |- _ => discriminate H
  | H : Registry.require _ _ _ = Ok _ |- _ =>
      apply reg_require_Ok in H; destruct H as [? ?]; subst
  | H : Registry.checked_add _ _ _ = Ok _ |- _ =>
      apply reg_checked_add_Ok in H; destruct H as (? & ? & ?); subst
  | H : Registry.checked_sub _ _ _ = Ok _ |- _ =>
      apply reg_checked_sub_Ok in H; destruct H as (? & ? & ?); subst
  | H : (if decide ?P then _ else _) _ = Ok _ |- _ => destruct (decide P)
  | H : (if ?b then _ else _) _ = Ok _ |- _ => destruct b eqn:?
  end.

Ltac reg_unfold :=
  unfold Registry.submitProperty, Registry.linkKYCProof, Registry.verifyProperty,
    Registry.deactivateProperty, Registry.grantGasSponsorship, Registry.fundSponsorshipPool,
    Registry.emergencyWithdrawSponsorship, Registry.updateListingFee, Registry.updateKYCFee,
    Registry.transferOwnership, Registry.renounceOwnership, Registry._safeMint,
    Registry.sendValue, Registry.emit, Registry.property, Registry.updateProperty,
    Registry.onlyOwner, Registry.nonpayable, Registry.payable in *.

Ltac reg_inv := reg_unfold; reg_simp; repeat (reg_inv_one; reg_simp).

Ltac reg_by_operation H :=
  match type of H with
  | Registry.exec _ ?op _ = Ok _ => destruct op; simpl in H; reg_inv
  end.

Lemma submitProperty_effect (e : Env) (a d v g : string) (k : uint256)
    (s s' : Registry.State) (id : uint256) :
  Registry.submitProperty e a d v g k s = Ok (id, s') ->
  let requiredFee :=
    Registry.listingFee s + (if decide (k = 2) then Registry.kycProcessingFee s else 0) in
  let sponsored := Registry.gasSponsored s !!! msg_sender e in
  a <> ""%string /\ d <> ""%string /\ v <> ""%string /\ g <> ""%string /\
  (k = 1 \/ k = 2) /\
  id = Registry._nextPropertyId s /\ Registry._nextPropertyId s' = id + 1 /\
  Registry.properties s' =
    <[id := {| Registry.owner := msg_sender e; Registry.propertyAddress := a;
               Registry.documentHash := d; Registry.videoHash := v;
               Registry.gpsCoordinates := g; Registry.verificationDate := 0;
               Registry.isVerified := false; Registry.isActive := true;
               Registry.kycLevel := k |}]> (Registry.properties s) /\
  Registry.landlordProperties s' =
    <[msg_sender e := (Registry.landlordProperties s !!! msg_sender e) ++ [id]]>
      (Registry.landlordProperties s) /\
  Registry.kycProofs s' = Registry.kycProofs s /\
  (sponsored = false ->
     requiredFee <= msg_value e /\
     Registry.sent s' = Registry.sent s ++ [(Registry.feeCollector s, msg_value e)] /\
     Registry.sponsorshipPool s' = Registry.sponsorshipPool s /\
     Registry.balance s' = Registry.balance s) /\
  (sponsored = true ->
     requiredFee <= Registry.sponsorshipPool s /\
     Registry.sent s' = Registry.sent s /\
     Registry.sponsorshipPool s' = Registry.sponsorshipPool s - requiredFee /\
     Registry.balance s' = Registry.balance s + msg_value e).
Proof.
  intros H. cbv zeta. reg_inv.
  all: repeat match goal with
         | Hs : negb ?b = _ |- _ => destruct b eqn:?; simpl in Hs; try discriminate Hs
         | Hl : 0 < N.of_nat (String.length ?x) |- _ =>
             assert (x <> ""%string) by (intros ->; simpl in Hl; lia); clear Hl
         end.
  all: repeat (split; [first [assumption | reflexivity]|]).
  all: split; intros; try discriminate; repeat split; try reflexivity; lia.
Qed.

(** X25. A successful [submitProperty] carries four non-empty strings and a
    KYC level of 1 or 2, returns the next free property id and stores under it
    an active, unverified property owned by the caller.  The fee due is
    [listingFee], plus [kycProcessingFee] at level 2.  A caller without
    sponsorship must send at least that much and the whole [msg.value],
    excess included, is forwarded to the fee collector; a sponsored caller has
    the fee deducted from the sponsorship pool, which must cover it, and
    whatever it sent stays in the contract. *)
Theorem submitProperty_spec (e : Env) (a d v g : string) (k : uint256)
    (s s' : Registry.State) (id : uint256) :
  Registry.submitProperty e a d v g k s = Ok (id, s') ->
  let requiredFee :=
    Registry.listingFee s + (if decide (k = 2) then Registry.kycProcessingFee s else 0) in
  let p := Registry.properties s' !!! id in
  a <> ""%string /\ d <> ""%string /\ v <> ""%string /\ g <> ""%string /\
  (k = 1 \/ k = 2) /\
  id = Registry._nextPropertyId s /\ Registry._nextPropertyId s' = id + 1 /\
  Registry.owner p = msg_sender e /\ Registry.kycLevel p = k /\
  Registry.isVerified p = false /\ Registry.isActive p = true /\
  Registry.isPropertyVerified s' id = false /\
  Registry.landlordProperties s' !!! msg_sender e
    = (Registry.landlordProperties s !!! msg_sender e) ++ [id] /\
  (forall id', id' <> id -> Registry.properties s' !!! id' = Registry.properties s !!! id') /\
  (Registry.gasSponsored s !!! msg_sender e = false ->
     requiredFee <= msg_value e /\
     Registry.sent s' = Registry.sent s ++ [(Registry.feeCollector s, msg_value e)] /\
     Registry.sponsorshipPool s' = Registry.sponsorshipPool s /\
     Registry.balance s' = Registry.balance s) /\
  (Registry.gasSponsored s !!! msg_sender e = true ->
     requiredFee <= Registry.sponsorshipPool s /\
     Registry.sent s' = Registry.sent s /\
     Registry.sponsorshipPool s' = Registry.sponsorshipPool s - requiredFee /\
     Registry.balance s' = Registry.balance s + msg_value e).
Proof.
  intros H. cbv zeta.
  destruct (submitProperty_effect _ _ _ _ _ _ _ _ _ H)
    as (Ha & Hd & Hv & Hg & Hk & Hid & Hnext & Hprops & Hlist & _ & Hpay & Hpool).
  cbv zeta in *. unfold Registry.isPropertyVerified.
  rewrite Hprops, Hlist, !lookup_total_insert_eq. simpl.
  repeat (split; [first [assumption | reflexivity]|]).
  split; [|split; assumption].
  intros id' Hne. apply lookup_total_insert_ne. congruence.
Qed.

Lemma submitProperty_spec_witness :
  Registry.owner (Registry.properties Registry.r_listed !!! 1) = Scenario.larry /\
  Registry.sent Registry.r_listed = [(Scenario.wallet, Registry.fee)].
Proof.
  destruct (submitProperty_spec (Scenario.call Scenario.larry Registry.fee 1)
              "12 Elm Street" "deed" "tour" "51.5,-0.1" 2 Registry.r_genesis
              Registry.r_listed 1)
    as (_ & _ & _ & _ & _ & _ & _ & Hown & _ & _ & _ & _ & _ & _ & Hpay & _).
  { vm_compute. reflexivity. }
  split; [exact Hown|].
  destruct Hpay as (_ & Hsent & _); [vm_compute; reflexivity|].
  etransitivity; [exact Hsent|]. vm_compute. reflexivity.
Defined.

Lemma reg_step_nextPropertyId (s s' : Registry.State) (e : Env) (op : Registry.Op) :
  Registry.step s e op s' -> Registry._nextPropertyId s <= Registry._nextPropertyId s'.
Proof. unfold Registry.step. intros H. reg_by_operation H; lia. Qed.

Lemma reg_step_verifiedSound (s s' : Registry.State) (e : Env) (op : Registry.Op) :
  Registry.step s e op s' -> Registry.verifiedSound s -> Registry.verifiedSound s'.
Proof.
  unfold Registry.step, Registry.verifiedSound. intros H Hinv id.
  reg_by_operation H; simpl.
  all: repeat match goal with
         | |- context [ <[?i := _]> _ !!! ?j ] =>
             destruct (decide (i = j)) as [<-|Hne];
             [rewrite ?lookup_total_insert_eq
             |rewrite ?(lookup_total_insert_ne _ i j) by exact Hne]
         end.
  all: reg_simp; intros Hv; try discriminate Hv; try exact (Hinv _ Hv).
  all: try congruence.
  all: try (split; [assumption|]; intros Hk; first [contradiction | (split; assumption)]).
Qed.

(** X26. Verification is sound in every state the registry can be in: a
    verified property exists (its owner is not the zero address) and, at KYC
    level 2, has both the government-id and the address proof on record.  This
    holds at deployment and is kept by every successful transaction, proofs
    being frozen once the property is verified. *)
Theorem verification_is_sound (s s' : Registry.State) :
  (forall deployer collector, Registry.verifiedSound (Registry.deploy deployer collector)) /\
  (Registry.verifiedSound s -> Registry.reaches s s' -> Registry.verifiedSound s').
Proof.
  split.
  - intros deployer collector id. unfold Registry.deploy. simpl.
    rewrite lookup_total_empty. discriminate.
  - intros Hinv Hreach. induction Hreach as [s|s e op s1 s2 Hstep _ IH]; [exact Hinv|].
    apply IH. exact (reg_step_verifiedSound _ _ _ _ Hstep Hinv).
Qed.

(** The history of the concrete registry up to the verification of
    property 1. *)
Lemma reaches_r_verified : Registry.reaches Registry.r_genesis Registry.r_verified.
Proof.
  apply (Registry.reaches_step _ (Scenario.call Scenario.larry Registry.fee 1)
           (Registry.SubmitProperty "12 Elm Street" "deed" "tour" "51.5,-0.1" 2)
           Registry.r_listed _); [vm_compute; reflexivity|].
  apply (Registry.reaches_step _ (Scenario.call Scenario.admin 0 2)
           (Registry.LinkKYCProof 1 "persona-1" "t0" true true)
           Registry.r_linked _); [vm_compute; reflexivity|].
  apply (Registry.reaches_step _ (Scenario.call Scenario.admin 0 3)
           (Registry.VerifyProperty 1) Registry.r_verified _); [vm_compute; reflexivity|].
  apply Registry.reaches_refl.
Qed.

Lemma verification_is_sound_witness :
  Registry.isVerified (Registry.properties Registry.r_verified !!! 1) = true /\
  Registry.kycLevel (Registry.properties Registry.r_verified !!! 1) = 2 /\
  Registry.owner (Registry.properties Registry.r_verified !!! 1) <> 0 /\
  Registry.governmentIdVerified (Registry.kycProofs Registry.r_verified !!! 1) = true /\
  Registry.addressProofVerified (Registry.kycProofs Registry.r_verified !!! 1) = true.
Proof.
  assert (Hver : Registry.isVerified (Registry.properties Registry.r_verified !!! 1) = true)
    by (vm_compute; reflexivity).
  assert (Hlevel : Registry.kycLevel (Registry.properties Registry.r_verified !!! 1) = 2)
    by (vm_compute; reflexivity).
  split; [exact Hver|]. split; [exact Hlevel|].
  destruct (verification_is_sound Registry.r_genesis Registry.r_verified)
    as [Hdeploy Hkeep].
  destruct (Hkeep (Hdeploy _ _) reaches_r_verified 1 Hver) as [Howner Hproofs].
  split; [exact Howner|]. exact (Hproofs Hlevel).
Defined.

Lemma verifyProperty_effect (e : Env) (id : uint256) (s s' : Registry.State) (u : unit) :
  Registry.verifyProperty e id s = Ok (u, s') ->
  let p := Registry.properties s !!! id in
  let proof := Registry.kycProofs s !!! id in
  Registry._owner s = msg_sender e /\
  Registry.owner p <> 0 /\ Registry.isVerified p = false /\ Registry.isActive p = true /\
  (Registry.kycLevel p = 2 ->
     Registry.governmentIdVerified proof = true /\
     Registry.addressProofVerified proof = true) /\
  Registry.properties s' =
    <[id := Registry.set_verificationDate (block_timestamp e)
              (Registry.set_isVerified true p)]> (Registry.properties s) /\
  Registry.badges s' = <[id := Registry.owner p]> (Registry.badges s) /\
  Registry.sent s' = Registry.sent s /\
  Registry._nextPropertyId s' = Registry._nextPropertyId s.
Proof.
  intros H. cbv zeta. reg_inv.
  all: rewrite ?lookup_total_insert_eq, ?insert_insert_eq.
  all: repeat (split; [first [assumption | reflexivity]|]).
  all: try (split; [intros; first [contradiction | (split; assumption)]|]).
  all: repeat (split; [first [assumption | reflexivity]|]); reflexivity.
Qed.

Lemma reg_step_flags (s s' : Registry.State) (e : Env) (op : Registry.Op) (id : uint256) :
  Registry.step s e op s' -> Registry.submitted s id ->
  Registry.owner (Registry.properties s' !!! id) = Registry.owner (Registry.properties s !!! id) /\
  (Registry.isVerified (Registry.properties s !!! id) = true ->
   Registry.isVerified (Registry.properties s' !!! id) = true) /\
  (Registry.isActive (Registry.properties s !!! id) = false ->
   Registry.isActive (Registry.properties s' !!! id) = false).
Proof.
  unfold Registry.step, Registry.submitted. intros H Hid.
  reg_by_operation H; simpl.
  all: repeat match goal with
         | |- context [ <[?i := _]> _ !!! ?j ] =>
             destruct (decide (i = j)) as [Heq|Hne];
             [first [exfalso; lia | rewrite <- Heq in *; rewrite ?lookup_total_insert_eq]
             |rewrite ?(lookup_total_insert_ne _ i j) by exact Hne]
         end.
  all: reg_simp; repeat split; intros; first [assumption | reflexivity | congruence].
Qed.

Lemma reg_reaches_flags (s s' : Registry.State) (id : uint256) :
  Registry.reaches s s' -> Registry.submitted s id ->
  Registry.submitted s' id /\
  Registry.owner (Registry.properties s' !!! id) = Registry.owner (Registry.properties s !!! id) /\
  (Registry.isVerified (Registry.properties s !!! id) = true ->
   Registry.isVerified (Registry.properties s' !!! id) = true) /\
  (Registry.isActive (Registry.properties s !!! id) = false ->
   Registry.isActive (Registry.properties s' !!! id) = false).
Proof.
  induction 1 as [s|s e op s1 s2 Hstep _ IH]; intros Hid; [auto|].
  destruct (reg_step_flags _ _ _ _ id Hstep Hid) as (Ho & Hv & Ha).
  assert (Hid1 : Registry.submitted s1 id).
  { unfold Registry.submitted in *. pose proof (reg_step_nextPropertyId _ _ _ _ Hstep). lia. }
  destruct (IH Hid1) as (Hid2 & Ho' & Hv' & Ha').
  split; [exact Hid2|]. split; [congruence|]. auto.
Qed.

(** X27. A successful [verifyProperty] is the owner's, on an existing, active
    property not yet verified and, at KYC level 2, with both proofs linked;
    it marks the property verified at the current time, makes it eligible
    for the escrow and hands the badge to its owner.  A property is verified
    once: for a property whose id has been handed out every later
    [verifyProperty] reverts, whatever happened in between. *)
Theorem verifyProperty_once (e : Env) (id : uint256) (s s' : Registry.State) (u : unit) :
  Registry.verifyProperty e id s = Ok (u, s') ->
  let p := Registry.properties s !!! id in
  let p' := Registry.properties s' !!! id in
  Registry._owner s = msg_sender e /\
  Registry.owner p <> 0 /\ Registry.isVerified p = false /\ Registry.isActive p = true /\
  (Registry.kycLevel p = 2 ->
     Registry.governmentIdVerified (Registry.kycProofs s !!! id) = true /\
     Registry.addressProofVerified (Registry.kycProofs s !!! id) = true) /\
  Registry.isVerified p' = true /\ Registry.verificationDate p' = block_timestamp e /\
  Registry.owner p' = Registry.owner p /\
  Registry.isPropertyVerified s' id = true /\
  Registry.badges s' !!! id = Registry.owner p /\
  (Registry.submitted s id ->
   forall s2 e2, Registry.reaches s' s2 ->
     exists why, Registry.verifyProperty e2 id s2 = Revert why).
Proof.
  intros H. cbv zeta.
  destruct (verifyProperty_effect _ _ _ _ _ H)
    as (Hown & Hex & Hnv & Hact & Hkyc & Hprops & Hbadge & _ & Hnext).
  cbv zeta in *.
  assert (Hp' : Registry.properties s' !!! id =
                Registry.set_verificationDate (block_timestamp e)
                  (Registry.set_isVerified true (Registry.properties s !!! id)))
    by (rewrite Hprops; apply lookup_total_insert_eq).
  unfold Registry.isPropertyVerified. rewrite Hp', Hbadge, lookup_total_insert_eq. simpl.
  rewrite Hact.
  repeat (split; [first [assumption | reflexivity]|]).
  intros Hid s2 e2 Hreach.
  assert (Hid' : Registry.submitted s' id)
    by (unfold Registry.submitted in *; rewrite Hnext; exact Hid).
  destruct (reg_reaches_flags _ _ _ Hreach Hid') as (_ & _ & Hv & _).
  assert (Hv2 : Registry.isVerified (Registry.properties s2 !!! id) = true)
    by (apply Hv; rewrite Hp'; reflexivity).
  destruct (Registry.verifyProperty e2 id s2) as [[u2 s3]|why] eqn:H2; [|eauto].
  apply verifyProperty_effect in H2. destruct H2 as (_ & _ & H2 & _). congruence.
Qed.

Lemma verifyProperty_once_witness :
  Registry.isPropertyVerified Registry.r_verified 1 = true /\
  Registry.badges Registry.r_verified !!! 1 = Scenario.larry.
Proof.
  destruct (verifyProperty_once (Scenario.call Scenario.admin 0 3) 1 Registry.r_linked
              Registry.r_verified tt)
    as (_ & _ & _ & _ & _ & _ & _ & _ & Hok & Hbadge & _).
  { vm_compute. reflexivity. }
  split; [exact Hok|].
  etransitivity; [exact Hbadge|]. vm_compute. reflexivity.
Defined.

(** X28. Deactivation is final and the escrow honours it: once a property
    whose id has been handed out is inactive, it stays inactive and
    [isPropertyVerified] answers false for it in every later state of the
    registry, [verifyProperty] on it reverts, and [createAgreement] reverts
    for it in any escrow that reads such a state. *)
Theorem deactivation_is_final (s s' : Registry.State) (id : uint256) :
  Registry.submitted s id ->
  Registry.isActive (Registry.properties s !!! id) = false ->
  Registry.reaches s s' ->
  Registry.isActive (Registry.properties s' !!! id) = false /\
  Registry.isPropertyVerified s' id = false /\
  (forall e, exists why, Registry.verifyProperty e id s' = Revert why) /\
  (forall w e l r i st en h,
     propertyVerification w = Registry.views s' ->
     exists why, createAgreement e id l r i st en h w = Revert why).
Proof.
  intros Hid Hoff Hreach.
  destruct (reg_reaches_flags _ _ _ Hreach Hid) as (_ & _ & _ & Ha).
  specialize (Ha Hoff).
  assert (Hview : Registry.isPropertyVerified s' id = false).
  { unfold Registry.isPropertyVerified. rewrite Ha. apply andb_false_r. }
  split; [exact Ha|]. split; [exact Hview|]. split.
  - intros e. destruct (Registry.verifyProperty e id s') as [[u s2]|why] eqn:H; [|eauto].
    apply verifyProperty_effect in H. destruct H as (_ & _ & _ & H & _). congruence.
  - intros w e l r i st en h Hpv.
    destruct (createAgreement e id l r i st en h w) as [[n w']|why] eqn:H; [|eauto].
    unfold createAgreement in H. inv_tx.
    match goal with
    | Hver : isPropertyVerified (propertyVerification w) id = true |- _ =>
        rewrite Hpv in Hver; simpl in Hver; congruence
    end.
Qed.

Lemma deactivation_is_final_witness :
  Registry.isPropertyVerified Registry.r_deactivated 1 = false.
Proof.
  destruct (deactivation_is_final Registry.r_deactivated Registry.r_deactivated 1)
    as (_ & Hview & _).
  - vm_compute. reflexivity.
  - vm_compute. reflexivity.
  - apply Registry.reaches_refl.
  - exact Hview.
Defined.

Lemma reg_step_pool_backed (s s' : Registry.State) (e : Env) (op : Registry.Op) :
  Registry.step s e op s' ->
  Registry.sponsorshipPool s <= Registry.balance s ->
  Registry.sponsorshipPool s' <= Registry.balance s'.
Proof. unfold Registry.step. intros H Hle. reg_by_operation H; lia. Qed.

Lemma emergencyWithdraw_effect (e : Env) (s s' : Registry.State) (u : unit) :
  Registry.emergencyWithdrawSponsorship e s = Ok (u, s') ->
  Registry._owner s = msg_sender e /\ 0 < Registry.sponsorshipPool s /\
  Registry.sponsorshipPool s <= Registry.balance s /\
  Registry.sponsorshipPool s' = 0 /\
  Registry.sent s' = Registry.sent s ++ [(Registry._owner s, Registry.sponsorshipPool s)] /\
  Registry.balance s' = Registry.balance s - Registry.sponsorshipPool s.
Proof. intros H. reg_inv. repeat (split; [first [assumption | reflexivity]|]). reflexivity. Qed.

(** X29. The sponsorship pool is backed by ether: the pool never exceeds the
    balance of the registry, at deployment and after any sequence of
    successful transactions.  Hence the owner's [emergencyWithdrawSponsorship]
    goes through whenever the pool is non-zero and the owner takes the
    payment; it sends the owner exactly the pool and leaves the pool empty.
    An owner whose address refuses the payment cannot withdraw: the call
    reverts. *)
Theorem sponsorship_pool_is_backed (s s' : Registry.State) :
  (forall deployer collector,
     Registry.sponsorshipPool (Registry.deploy deployer collector)
     <= Registry.balance (Registry.deploy deployer collector)) /\
  (Registry.sponsorshipPool s <= Registry.balance s -> Registry.reaches s s' ->
   Registry.sponsorshipPool s' <= Registry.balance s' /\
   (forall e, msg_value e = 0 -> msg_sender e = Registry._owner s' ->
              0 < Registry.sponsorshipPool s' ->
      (accepts e (Registry._owner s') (Registry.sponsorshipPool s') = true ->
       exists s2,
         Registry.emergencyWithdrawSponsorship e s' = Ok (tt, s2) /\
         Registry.sponsorshipPool s2 = 0 /\
         Registry.sent s2 =
           Registry.sent s' ++ [(Registry._owner s', Registry.sponsorshipPool s')] /\
         Registry.balance s2 + Registry.sponsorshipPool s' = Registry.balance s') /\
      (accepts e (Registry._owner s') (Registry.sponsorshipPool s') = false ->
       exists why, Registry.emergencyWithdrawSponsorship e s' = Revert why))).
Proof.
  split; [intros deployer collector; simpl; lia|].
  intros Hle Hreach.
  assert (Hle' : Registry.sponsorshipPool s' <= Registry.balance s').
  { induction Hreach as [s|s e op s1 s2 Hstep _ IH]; [exact Hle|].
    apply IH. exact (reg_step_pool_backed _ _ _ _ Hstep Hle). }
  split; [exact Hle'|].
  intros e Hval Hwho Hpos. split.
  - intros Hacc. eexists. split; [|split; [|split]].
    + unfold Registry.emergencyWithdrawSponsorship, Registry.nonpayable, Registry.onlyOwner,
        Registry.sendValue.
      repeat (reg_simp;
              lazymatch goal with
              | |- Registry.bind _ _ _ = Ok _ =>
                  erewrite reg_bind_step;
                  [|first [ apply reg_require_intro; reg_simp;
                            first [assumption | reflexivity | congruence | lia]
                          | reflexivity ]]
              end).
      reflexivity.
    + reflexivity.
    + reflexivity.
    + reg_simp. lia.
  - intros Hrej.
    destruct (Registry.emergencyWithdrawSponsorship e s') as [[u s2]|why] eqn:Hc;
      [exfalso|eauto].
    reg_inv. congruence.
Qed.

Lemma sponsorship_pool_is_backed_witness :
  0 < Registry.sponsorshipPool Registry.r_funded /\
  Registry.sponsorshipPool Registry.r_funded <= Registry.balance Registry.r_funded /\
  (exists s2,
     Registry.emergencyWithdrawSponsorship (Scenario.call Scenario.admin 0 6)
       Registry.r_funded = Ok (tt, s2) /\
     Registry.sponsorshipPool s2 = 0 /\
     Registry.sent s2 = Registry.sent Registry.r_funded ++ [(Scenario.admin, 500)]) /\
  (exists why,
     Registry.emergencyWithdrawSponsorship (Cases.refusedCall Scenario.admin 0 6)
       Registry.r_funded = Revert why).
Proof.
  assert (Hpos : 0 < Registry.sponsorshipPool Registry.r_funded)
    by (vm_compute; reflexivity).
  split; [exact Hpos|].
  destruct (sponsorship_pool_is_backed Registry.r_genesis Registry.r_funded)
    as [Hdeploy Hkept].
  destruct Hkept as [Hle Hout].
  - apply Hdeploy.
  - apply (Registry.reaches_step _ (Scenario.call Scenario.larry Registry.fee 1)
             (Registry.SubmitProperty "12 Elm Street" "deed" "tour" "51.5,-0.1" 2)
             Registry.r_listed _); [vm_compute; reflexivity|].
    apply (Registry.reaches_step _ (Scenario.call Scenario.bob 500 5)
             Registry.FundSponsorshipPool Registry.r_funded _); [vm_compute; reflexivity|].
    apply Registry.reaches_refl.
  - split; [exact Hle|]. split.
    + destruct (Hout (Scenario.call Scenario.admin 0 6)) as [Hgoes _].
      1-2: vm_compute; reflexivity.
      { exact Hpos. }
      destruct Hgoes as (s2 & Hok & Hpool & Hsent & _); [vm_compute; reflexivity|].
      exists s2. split; [exact Hok|]. split; [exact Hpool|].
      etransitivity; [exact Hsent|]. vm_compute. reflexivity.
    + destruct (Hout (Cases.refusedCall Scenario.admin 0 6)) as [_ Hstuck].
      1-2: vm_compute; reflexivity.
      { exact Hpos. }
      apply Hstuck. vm_compute. reflexivity.
Defined.

(** X30. Escrow and registry fit together: when the escrow reads a registry
    state in which verification is sound, every agreement [createAgreement]
    accepts is for a property that is verified and active in that state, and
    its landlord is the property's owner, which is not the zero address. *)
Theorem agreements_have_verified_landlords (s : Registry.State) (w w' : World) (e : Env)
    (p : uint256) (l : address) (r i st en : uint256) (h : string) (id : uint256) :
  Registry.verifiedSound s -> propertyVerification w = Registry.views s ->
  createAgreement e p l r i st en h w = Ok (id, w') ->
  Registry.isVerified (Registry.properties s !!! p) = true /\
  Registry.isActive (Registry.properties s !!! p) = true /\
  landlord (agreements w' !!! id) = Registry.owner (Registry.properties s !!! p) /\
  landlord (agreements w' !!! id) <> 0 /\
  tenant (agreements w' !!! id) <> landlord (agreements w' !!! id).
Proof.
  intros Hsound Hpv H.
  destruct (createAgreement_effect _ _ _ _ _ _ _ _ _ _ _ H)
    as (_ & _ & _ & _ & _ & _ & Hver & Hl & Hne & _ & _ & Hag & _).
  rewrite Hpv in Hver, Hl. simpl in Hver, Hl.
  unfold Registry.isPropertyVerified in Hver. apply andb_true_iff in Hver.
  destruct Hver as [Hv Ha]. unfold Registry.getPropertyOwner in Hl.
  destruct (Hsound p Hv) as [Hex _].
  rewrite Hag, lookup_total_insert_eq. simpl.
  repeat split; first [assumption | congruence].
Qed.

Lemma agreements_have_verified_landlords_witness :
  landlord (agreements Joint.w_created !!! 1) = Scenario.larry /\
  landlord (agreements Joint.w_created !!! 1) <> 0.
Proof.
  assert (Hsound : Registry.verifiedSound Registry.r_verified).
  { apply (reg_step_verifiedSound Registry.r_linked _ (Scenario.call Scenario.admin 0 3)
             (Registry.VerifyProperty 1)); [vm_compute; reflexivity|].
    apply (reg_step_verifiedSound Registry.r_listed _ (Scenario.call Scenario.admin 0 2)
             (Registry.LinkKYCProof 1 "persona-1" "t0" true true)); [vm_compute; reflexivity|].
    apply (reg_step_verifiedSound Registry.r_genesis _
             (Scenario.call Scenario.larry Registry.fee 1)
             (Registry.SubmitProperty "12 Elm Street" "deed" "tour" "51.5,-0.1" 2));
      [vm_compute; reflexivity|].
    intros id. unfold Registry.r_genesis, Registry.deploy. simpl.
    rewrite lookup_total_empty. discriminate. }
  destruct (agreements_have_verified_landlords Registry.r_verified Joint.genesis
              Joint.w_created (Scenario.call Scenario.alice 1000 10) 1 Scenario.larry 100
              (30 * days) Scenario.leaseStart Scenario.leaseEnd "terms" 1 Hsound)
    as (_ & _ & Hl & Hnz & _).
  - reflexivity.
  - vm_compute. reflexivity.
  - split; [|exact Hnz].
    etransitivity; [exact Hl|]. vm_compute. reflexivity.
Defined.
